(** * build_samate.py: discovery of test sources and the bounded build

    A shallow embedding of [build_samate.py]: the recursive discovery of
    test sources ([find_all_testcases_rec], [find_all_testcases]), the
    thread pool ([Jobs]), the compiler invocation ([build_source_files])
    and the part of [main] that builds the support files and dispatches
    the test sources in chunks.

    Python strings are modelled as [string], Python integers as [Z] (or
    [nat] for lengths), sets of strings as [gset string].  What the script
    prints, which directories it lists and which processes it starts are
    recorded as a list of events. *)

From Stdlib Require Import ZArith Lia Ascii String DecimalString.
From stdpp Require Import base decidable option list strings gmap.

(** ** Exceptions

    The exceptions the modelled code raises: [Exception(msg)], and the
    [UnboundLocalError] of a local variable read before it is assigned. *)

Inductive exn :=
  | Exception (msg : string)
  | UnboundLocalError (name : string).

(** ** Platform functions

    The script uses a few library functions whose result depends on the
    platform or is only printed: [os.path.join] (posixpath or ntpath) and
    [str] applied to a list of strings, to a set of strings or to a list
    of exceptions.  They are taken as an interface; [posix] below is the
    instance used for concrete runs. *)

Class Platform := {
  os_path_join : string -> string -> string;
  str_of_list : list string -> string;
  str_of_set : gset string -> string;
  str_of_exns : list exn -> string
}.

(** ** Events *)

Inductive event :=
  | EvPrint (line : string)                           (* print(line) *)
  | EvListdir (dir : string)                          (* os.listdir(dir) *)
  | EvChdir (dir : string)                            (* os.chdir(dir) *)
  | EvCall (cmd : list string) (quiet : bool) (rtn : Z) (* subprocess.call(cmd, ...) = rtn *)
  | EvBuild (source_paths : list string)              (* the main thread calls build_source_files(args, source_paths) *)
  | EvStartJob (source_paths : list string)           (* jobs.start_job(build_source_files_job(args, source_paths)) *)
  | EvHasErrors (b : bool)                            (* jobs.has_errors() = b *)
  | EvThread (i : nat).                               (* the thread of the i-th job moves on *)

(** ** Python helpers *)

(** Truth value of an optional string ([None] and [""] are false). *)
Definition truthy (o : option string) : bool :=
  match o with
  | Some (String _ _) => true
  | _ => false
  end.

(** [str(n)] for a length. *)
Definition str_nat (n : nat) : string := NilZero.string_of_uint (Nat.to_uint n).

(** [str(z)] for an integer. *)
Definition str_Z (z : Z) : string := NilZero.string_of_int (Z.to_int z).

(** [s.split(",")] *)
Fixpoint split_comma_from (cur : string) (s : string) : list string :=
  match s with
  | EmptyString => [cur]
  | String c s' =>
      if Stdlib.Strings.Ascii.eqb c ","%char then cur :: split_comma_from "" s'
      else split_comma_from (cur +:+ String c "") s'
  end.

Definition split_comma (s : string) : list string := split_comma_from "" s.

(** ** The regular expressions

    The three patterns of [find_all_testcases], as syntax trees, and what
    it means for [re.match] to accept a name: [rmatch r before m after g]
    says that [r] matches the text [m] found between [before] and [after],
    and that group 1 is [g] ([None] when the group took no part).
    [re.match] anchors at the start of the name only.  [^] matches at the
    start of the name; [$] matches at the end of the name and also just
    before a newline that ends the name; [.] matches every character but a
    newline; [[0-9]] matches the ten ASCII digits. *)

Inductive regex :=
  | Lit (s : string)              (* the characters of s *)
  | Class (f : ascii → bool)      (* one character of a class *)
  | Bol                           (* ^ *)
  | Eol                           (* $ *)
  | Cat (r1 r2 : regex)           (* r1 r2 *)
  | Alt (r1 r2 : regex)           (* r1 | r2 *)
  | Star (r : regex)              (* r* *)
  | Plus (r : regex)              (* r+ *)
  | Group (r : regex).            (* ( r ) *)

Definition is_digit (c : ascii) : bool :=
  (48 <=? nat_of_ascii c)%nat && (nat_of_ascii c <=? 57)%nat.

Definition newline : ascii := ascii_of_nat 10.

Fixpoint strip_prefix (p s : string) : option string :=
  match p, s with
  | EmptyString, _ => Some s
  | String a p', String b s' => if Stdlib.Strings.Ascii.eqb a b then strip_prefix p' s' else None
  | String _ _, EmptyString => None
  end.

(** The longest run of digits at the start of [s], and what follows it. *)
Fixpoint span_digits (s : string) : string * string :=
  match s with
  | String c s' =>
      if is_digit c then
        let '(ds, rest) := span_digits s' in (String c ds, rest)
      else ("", s)
  | EmptyString => ("", "")
  end.

(** [$]: at the end of the name, or before a newline that ends it. *)
Definition at_dollar (s : string) : bool :=
  match s with
  | EmptyString => true
  | String c EmptyString => Stdlib.Strings.Ascii.eqb c newline
  | _ => false
  end.

Definition not_newline (c : ascii) : bool := negb (Stdlib.Strings.Ascii.eqb c newline).

(** Group 1 of a sequence: the group of the later part if it has one. *)
Definition later_group (g1 g2 : option string) : option string :=
  match g2 with
  | Some _ => g2
  | None => g1
  end.

Inductive rmatch : regex → string → string → string → option string → Prop :=
  | rmatch_lit s before after :
      rmatch (Lit s) before s after None
  | rmatch_class f c before after :
      f c = true → rmatch (Class f) before (String c "") after None
  | rmatch_bol after :
      rmatch Bol "" "" after None
  | rmatch_eol before after :
      at_dollar after = true → rmatch Eol before "" after None
  | rmatch_cat r1 r2 before m1 m2 after g1 g2 :
      rmatch r1 before m1 (m2 +:+ after) g1 →
      rmatch r2 (before +:+ m1) m2 after g2 →
      rmatch (Cat r1 r2) before (m1 +:+ m2) after (later_group g1 g2)
  | rmatch_alt_l r1 r2 before m after g :
      rmatch r1 before m after g → rmatch (Alt r1 r2) before m after g
  | rmatch_alt_r r1 r2 before m after g :
      rmatch r2 before m after g → rmatch (Alt r1 r2) before m after g
  | rmatch_star_nil r before after :
      rmatch (Star r) before "" after None
  | rmatch_star_cons r before m1 m2 after g1 g2 :
      rmatch r before m1 (m2 +:+ after) g1 →
      rmatch (Star r) (before +:+ m1) m2 after g2 →
      rmatch (Star r) before (m1 +:+ m2) after (later_group g1 g2)
  | rmatch_plus r before m1 m2 after g1 g2 :
      rmatch r before m1 (m2 +:+ after) g1 →
      rmatch (Star r) (before +:+ m1) m2 after g2 →
      rmatch (Plus r) before (m1 +:+ m2) after (later_group g1 g2)
  | rmatch_group r before m after g :
      rmatch r before m after g → rmatch (Group r) before m after (Some m).

(** [re.match] finds a match of [r] at the start of [s], with group 1
    equal to [g]. *)
Definition re_match (r : regex) (s : string) (g : option string) : Prop :=
  ∃ m after, s = m +:+ after ∧ rmatch r "" m after g.

(** [dirs_exp = "^" + "CWE([0-9]+)_.*" + "|" + "s[0-9]+" + "$"] *)
Definition dirs_re : regex :=
  Alt (Cat Bol (Cat (Lit "CWE") (Cat (Group (Plus (Class is_digit)))
                                     (Cat (Lit "_") (Star (Class not_newline))))))
      (Cat (Lit "s") (Cat (Plus (Class is_digit)) Eol)).

(** [files_exp = "^CWE[0-9]+_.*\.(c|cpp)$"] *)
Definition files_re_cpp : regex :=
  Cat Bol (Cat (Lit "CWE") (Cat (Plus (Class is_digit))
    (Cat (Lit "_") (Cat (Star (Class not_newline))
      (Cat (Lit ".") (Cat (Group (Alt (Lit "c") (Lit "cpp"))) Eol)))))).

(** [files_exp = "build\.xml$"] *)
Definition files_re_java : regex := Cat (Lit "build.xml") Eol.

(** *** The matchers

    The functions that decide the three patterns.  [[0-9]+] is greedy, and
    in all three patterns the piece that follows it is not a digit, so
    taking the longest run of digits loses no match. *)

(** [CWE([0-9]+)_]: the digits captured, and what follows the underscore. *)
Definition match_cwe_prefix (child : string) : option (string * string) :=
  match strip_prefix "CWE" child with
  | Some s =>
      match span_digits s with
      | (String d ds, String c rest) =>
          if Stdlib.Strings.Ascii.eqb c "_"%char then Some (String d ds, rest) else None
      | _ => None
      end
  | None => None
  end.

(** [s[0-9]+$] *)
Definition match_s_dir (child : string) : bool :=
  match strip_prefix "s" child with
  | Some s =>
      match span_digits s with
      | (String _ _, rest) => at_dollar rest
      | _ => false
      end
  | None => false
  end.

(** [dirs_regexp.match(child)] for [dirs_exp = "^CWE([0-9]+)_.*|s[0-9]+$"].
    [None] is no match; [Some g] is a match object whose [group(1)] is [g].
    The first alternative is tried first; its [.*] may match nothing, so
    the rest of the name is not looked at. *)
Definition dirs_regexp_match (child : string) : option (option string) :=
  match match_cwe_prefix child with
  | Some (id, _) => Some (Some id)
  | None => if match_s_dir child then Some None else None
  end.

(** Does [s] read [x.c] or [x.cpp] up to [$], with no newline in [x]?
    This is [.*\.(c|cpp)$] tried at every split of [s]. *)
Fixpoint match_dot_c (s : string) : bool :=
  match s with
  | EmptyString => false
  | String c s' =>
      (Stdlib.Strings.Ascii.eqb c "."%char &&
         (match strip_prefix "cpp" s' with Some r => at_dollar r | None => false end
          || match strip_prefix "c" s' with Some r => at_dollar r | None => false end))
      || (not_newline c && match_dot_c s')
  end.

(** [files_regexp.match(child)] for [files_exp = "^CWE[0-9]+_.*\.(c|cpp)$"]. *)
Definition files_regexp_cpp (child : string) : bool :=
  match match_cwe_prefix child with
  | Some (_, rest) => match_dot_c rest
  | None => false
  end.

(** [files_regexp.match(child)] for [files_exp = "build\.xml$"]. *)
Definition files_regexp_java (child : string) : bool :=
  match strip_prefix "build.xml" child with
  | Some r => at_dollar r
  | None => false
  end.

Definition dirs_exp : string := "^CWE([0-9]+)_.*|s[0-9]+$".
Definition files_exp_cpp : string := "^CWE[0-9]+_.*\.(c|cpp)$".
Definition files_exp_java : string := "build\.xml$".

(** ** The directory tree

    What [os.listdir], [os.path.isdir] and [os.path.isfile] tell about a
    readable tree: every child has a name and is a directory (with its own
    listing, in [os.listdir] order), a regular file, or neither. *)

#[local] Set Warnings "-register-all".

Inductive entry :=
  | File (name : string)
  | Dir (name : string) (children : list entry)
  | Special (name : string).

Definition entry_name (e : entry) : string :=
  match e with
  | File n | Dir n _ | Special n => n
  end.

(** ** find_all_testcases_rec *)

Definition gcc_excluded : string :=
  "CWE397_Throw_Generic_Exception__declare_dotdotdot_w32_01.cpp".

(** The choice of [recurse_in] and [report] for a directory whose name
    matched [dirs_regexp] with [group(1) = g1]. *)
Definition dir_decision (g1 : option string)
    (cwes_include cwes_exclude : gset string) : bool * bool :=
  if truthy g1 then
    let id := default "" g1 in
    (* CWE-labelled directory *)
    let '(recurse_in, report) :=
      if bool_decide (id ∈ cwes_include) || bool_decide (cwes_include = ∅)
      then (true, true) else (false, false) in
    let recurse_in :=
      if bool_decide (id ∈ cwes_exclude) then false else recurse_in in
    (recurse_in, report)
  else
    (* non-CWE labelled directory (i.e. subdivision directory) *)
    (true, false).

Definition found_line (g1 : option string) (new_results : list string) : event :=
  EvPrint ("    found CWE " +:+ default "" g1 +:+ " with "
           +:+ str_nat (length new_results) +:+ " test sources").

Definition excluding_line (child : string) : event :=
  EvPrint ("  excluding '" +:+ child
           +:+ "' because that test case explicitly does not work in gcc.").

Section Discovery.
Context `{Platform}.
Variable files_regexp : string -> bool.
Variables cwes_include cwes_exclude : gset string.
Variable for_gcc : bool.

(** What one child of [search_dir] adds: the events and the results.
    The inner [fix] is the [for] loop of the recursive call. *)
Fixpoint visit_child (search_dir : string) (e : entry) {struct e}
    : list event * list string :=
  let child := entry_name e in
  let child_path := os_path_join search_dir child in
  match e with
  | Dir _ children =>
      match dirs_regexp_match child with
      | Some g1 =>
          let '(recurse_in, report) := dir_decision g1 cwes_include cwes_exclude in
          if recurse_in then
            let '(evs, new_results) :=
              (fix loop (l : list entry) : list event * list string :=
                 match l with
                 | [] => ([], [])
                 | c :: l' =>
                     let '(evs1, r1) := visit_child child_path c in
                     let '(evs2, r2) := loop l' in
                     (evs1 ++ evs2, r1 ++ r2)
                 end) children in
            let evs := EvListdir child_path :: evs in
            let evs :=
              if report then evs ++ [found_line g1 new_results] else evs in
            (evs, new_results)
          else ([], [])
      | None => ([], [])
      end
  | File _ =>
      if files_regexp child then
        if Stdlib.Strings.String.eqb child gcc_excluded && for_gcc then
          ([excluding_line child], [])
        else ([], [child_path])
      else ([], [])
  | Special _ => ([], [])
  end.

(** The loop over the children of a directory. *)
Fixpoint visit_children (search_dir : string) (l : list entry)
    : list event * list string :=
  match l with
  | [] => ([], [])
  | c :: l' =>
      let '(evs1, r1) := visit_child search_dir c in
      let '(evs2, r2) := visit_children search_dir l' in
      (evs1 ++ evs2, r1 ++ r2)
  end.

(** [find_all_testcases_rec(search_dir, ...)], where [listing] is what
    [os.listdir(search_dir)] returns. *)
Definition find_all_testcases_rec (search_dir : string) (listing : list entry)
    : list event * list string :=
  let '(evs, results) := visit_children search_dir listing in
  (EvListdir search_dir :: evs, results).

End Discovery.

(** ** find_all_testcases *)

(** The fields of [args] the modelled code reads, after the command line
    has been parsed and the paths resolved. *)
Record args := {
  language : string;
  cwes : option string;
  exclude : option string;
  cases : string;
  threads : Z;
  cl : option string;
  test_cases_dir : string;
  test_cases_support_dir : string;
  object_dir : string;
  gcc_path : string;
  cl_path : string;
  ant_path : string;
  use_pipe : bool
}.

(** [set(s.split(","))] when the option is given and not empty, else [set()]. *)
Definition cwes_set (o : option string) : gset string :=
  if truthy o then list_to_set (split_comma (default "" o)) else ∅.

Definition for_gcc_of (a : args) : bool := negb (truthy (cl a)).

Definition find_all_testcases `{Platform} (a : args) (listing : list entry)
    : list event * (exn + list string) :=
  let evs0 := [EvPrint ("  dirs_exp = " +:+ dirs_exp)] in
  let files :=
    if Stdlib.Strings.String.eqb (language a) "cpp" then inr (files_exp_cpp, files_regexp_cpp)
    else if Stdlib.Strings.String.eqb (language a) "java" then inr (files_exp_java, files_regexp_java)
    else inl (Exception "Unknown language (find_all_testcases).") in
  match files with
  | inl e => (evs0, inl e)
  | inr (files_exp, files_regexp) =>
      let cwes_include := cwes_set (cwes a) in
      let cwes_exclude := cwes_set (exclude a) in
      let '(evs, results) :=
        find_all_testcases_rec files_regexp cwes_include cwes_exclude (for_gcc_of a)
          (test_cases_dir a) listing in
      (evs0 ++ [EvPrint ("  files_exp = " +:+ files_exp);
                EvPrint ("  include = " +:+ str_of_set cwes_include);
                EvPrint ("  exclude = " +:+ str_of_set cwes_exclude)] ++ evs,
       inr results)
  end.

(** A concrete platform: [posixpath.join], and a plain rendering of lists
    and sets (Python's quoting rules are not modelled). *)
Definition ends_with_slash (s : string) : bool :=
  match Stdlib.Strings.String.get (Stdlib.Strings.String.length s - 1) s with
  | Some c => Stdlib.Strings.Ascii.eqb c "/"%char
  | None => false
  end.

Definition posix_join (a b : string) : string :=
  match strip_prefix "/" b with
  | Some _ => b
  | None =>
      match a with
      | EmptyString => b
      | _ => if ends_with_slash a then a +:+ b else a +:+ "/" +:+ b
      end
  end.

Definition plain_list (l : list string) : string :=
  "[" +:+ Stdlib.Strings.String.concat ", " l +:+ "]".

Definition exn_text (e : exn) : string :=
  match e with
  | Exception msg => "Exception(" +:+ msg +:+ ")"
  | UnboundLocalError name => "UnboundLocalError(" +:+ name +:+ ")"
  end.

#[export] Instance posix : Platform := {|
  os_path_join := posix_join;
  str_of_list := plain_list;
  str_of_set := fun s => plain_list (elements s);
  str_of_exns := fun l => plain_list (exn_text <$> l)
|}.


(** ** The patterns in the words of the specification *)

Fixpoint string_forall (f : ascii → bool) (s : string) : bool :=
  match s with
  | EmptyString => true
  | String c s' => f c && string_forall f s'
  end.

Abbreviation all_digits := (string_forall is_digit).

(** A category directory: the fixed prefix, a numeric identifier, an
    underscore and a suffix. *)
Definition is_category_name (child id : string) : Prop :=
  id ≠ "" ∧ all_digits id = true ∧ ∃ suffix, child = "CWE" +:+ id +:+ "_" +:+ suffix.

(** A subdivision directory: the letter [s] followed only by digits. *)
Definition is_subdivision_name (child : string) : Prop :=
  ∃ ds, ds ≠ "" ∧ all_digits ds = true ∧ child = "s" +:+ ds.

(** An include or exclude entry written with a leading zero. *)
Definition leading_zero (e : string) : Prop := ∃ r, e = "0" +:+ r.

Fixpoint no_comma (s : string) : bool :=
  match s with
  | EmptyString => true
  | String c s' => negb (Stdlib.Strings.Ascii.eqb c ","%char) && no_comma s'
  end.

(** A directory name that ends in a newline. *)
Definition newline_dir : string := "s1" +:+ String newline "".

(** ** What a run visits *)

Section Visited.
Context `{Platform}.
Variable files_regexp : string → bool.
Variables cwes_include cwes_exclude : gset string.
Variable for_gcc : bool.

(** Discovery recurses into a child when it lists it. *)
Definition recursed_into (search_dir : string) (e : entry) : Prop :=
  EvListdir (os_path_join search_dir (entry_name e))
    ∈ (visit_child files_regexp cwes_include cwes_exclude for_gcc search_dir e).1.

Variables (root : string) (listing : list entry).

(** [visited d l]: the run started on [root] calls
    [find_all_testcases_rec] on the directory [d], whose listing is [l]. *)
Inductive visited : string → list entry → Prop :=
  | visited_root : visited root listing
  | visited_sub d l child children g1 :
      visited d l →
      Dir child children ∈ l →
      dirs_regexp_match child = Some g1 →
      (dir_decision g1 cwes_include cwes_exclude).1 = true →
      visited (os_path_join d child) children.

(** Where a result comes from: a file of a visited directory that the
    file pattern matches and the gcc exception does not remove. *)
Definition from_file (p : string) : Prop :=
  ∃ d l c, visited d l ∧ File c ∈ l ∧ p = os_path_join d c ∧
           files_regexp c = true ∧
           (Stdlib.Strings.String.eqb c gcc_excluded && for_gcc) = false.

End Visited.

(** * The thread pool: class Jobs

    A job is run by a thread of its own, the body of which is [do_job]:
    <<
      try: job.do()
      except Exception as e: self.errors.append(e); raise
      finally: self.slots.release()
    >>
    A thread is at one of four places: inside [job.do()]; after
    [job.do()] raised [e] and before [self.errors.append(e)]; before the
    [release] of the [finally] clause (with the exception that is being
    raised, if any); ended. *)

Fixpoint count_if {A} (f : A → bool) (l : list A) : nat :=
  match l with
  | [] => 0
  | x :: l' => (if f x then 1 else 0) + count_if f l'
  end.

Inductive pc :=
  | Doing
  | Excepting (e : exn)
  | Finishing (r : option exn)
  | Dead (r : option exn).

Section Pool.
Context `{Platform}.
Variable job : Type.

Record thread := { th_job : job; th_pc : pc }.

(** The fields of a [Jobs] object: the value of the semaphore [slots],
    the threads started so far, the exceptions caught so far. *)
Record Jobs := {
  slots : nat;
  outstanding_jobs : list thread;
  errors : list exn
}.

(** [Jobs(threads)] *)
Definition Jobs_init (threads : nat) : Jobs :=
  {| slots := threads; outstanding_jobs := []; errors := [] |}.

(** [self.start_job(job)]: [None] while [self.slots.acquire()] blocks. *)
Definition start_job (self : Jobs) (j : job) : option Jobs :=
  match slots self with
  | O => None
  | S n =>
      Some {| slots := n;
              outstanding_jobs := outstanding_jobs self ++ [{| th_job := j; th_pc := Doing |}];
              errors := errors self |}
  end.

(** [self.has_errors()] *)
Definition has_errors (self : Jobs) : bool :=
  match errors self with
  | [] => false
  | _ :: _ => true
  end.

Definition is_dead (t : thread) : bool :=
  match th_pc t with
  | Dead _ => true
  | _ => false
  end.

(** [self.wait_jobs()]: [None] while a [join] blocks; else what it prints
    and the exception it raises, if any.  (The assignment to
    [self._outstanding_jobs] creates an attribute that nothing reads.) *)
Definition wait_jobs (self : Jobs) : option (list event * option exn) :=
  if forallb is_dead (outstanding_jobs self) then
    if (0 <? length (errors self))%nat then
      Some ([EvPrint ("*** exceptions occurred in " +:+ str_nat (length (errors self))
                      +:+ " threads:");
             EvPrint (str_of_exns (errors self));
             EvPrint ""],
            Some (Exception "Exception in thread(s)."))
    else Some ([], None)
  else None.

Definition set_pc (t : thread) (p : pc) : thread :=
  {| th_job := th_job t; th_pc := p |}.

(** One step of the thread of the [i]-th job.  [result] is how [job.do()]
    ends when the thread is inside it: [None] is a return, [Some e] an
    exception.  There is no step for a thread that has ended. *)
Definition do_job (self : Jobs) (i : nat) (result : option exn) : option Jobs :=
  match outstanding_jobs self !! i with
  | Some t =>
      match th_pc t with
      | Doing =>
          let p := match result with
                   | None => Finishing None
                   | Some e => Excepting e
                   end in
          Some {| slots := slots self;
                  outstanding_jobs := <[i := set_pc t p]> (outstanding_jobs self);
                  errors := errors self |}
      | Excepting e =>
          Some {| slots := slots self;
                  outstanding_jobs := <[i := set_pc t (Finishing (Some e))]> (outstanding_jobs self);
                  errors := errors self ++ [e] |}
      | Finishing r =>
          Some {| slots := S (slots self);
                  outstanding_jobs := <[i := set_pc t (Dead r)]> (outstanding_jobs self);
                  errors := errors self |}
      | Dead _ => None
      end
  | None => None
  end.

(** The steps of a pool: a job is started, or a thread moves on. *)
Inductive step : Jobs → Jobs → Prop :=
  | step_start self j self' :
      start_job self j = Some self' → step self self'
  | step_thread self i result self' :
      do_job self i result = Some self' → step self self'.

(** The states a pool of [threads] slots can be in. *)
Definition reachable (threads : nat) (self : Jobs) : Prop :=
  rtc step (Jobs_init threads) self.

(** The steps of the threads alone. *)
Definition thread_step (self self' : Jobs) : Prop :=
  ∃ i result, do_job self i result = Some self'.

(** The threads inside [job.do()], and the threads that hold a slot. *)
Definition is_doing (t : thread) : bool :=
  match th_pc t with
  | Doing => true
  | _ => false
  end.

Definition executing (self : Jobs) : nat :=
  count_if is_doing (outstanding_jobs self).

Definition holding (self : Jobs) : nat :=
  count_if (λ t, negb (is_dead t)) (outstanding_jobs self).

(** The threads whose exception has been appended to [errors]. *)
Definition has_recorded (t : thread) : bool :=
  match th_pc t with
  | Finishing (Some _) | Dead (Some _) => true
  | _ => false
  end.

Definition recorded (self : Jobs) : nat :=
  count_if has_recorded (outstanding_jobs self).

(** Every job submitted has ended, and how many of them failed. *)
Definition all_done (self : Jobs) : Prop :=
  ∀ t, t ∈ outstanding_jobs self → is_dead t = true.

Definition has_failed (t : thread) : bool :=
  match th_pc t with
  | Dead (Some _) => true
  | _ => false
  end.

Definition failures (self : Jobs) : nat :=
  count_if has_failed (outstanding_jobs self).

(** The steps a thread has left when its job succeeds (or has failed). *)
Definition steps_left (t : thread) : nat :=
  match th_pc t with
  | Doing => 2
  | Excepting _ => 2
  | Finishing _ => 1
  | Dead _ => 0
  end.

Fixpoint total_left (l : list thread) : nat :=
  match l with
  | [] => 0
  | t :: l' => steps_left t + total_left l'
  end.

End Pool.

Arguments wait_jobs {_ job} _.
Arguments th_job {job} _.
Arguments th_pc {job} _.
Arguments slots {job} _.
Arguments outstanding_jobs {job} _.
Arguments errors {job} _.
Arguments Jobs_init {job} _.
Arguments start_job {job} _ _.
Arguments has_errors {job} _.
Arguments do_job {job} _ _ _.
Arguments step {job} _ _.
Arguments step_start {job} _ _ _ _.
Arguments step_thread {job} _ _ _ _ _.
Arguments reachable {job} _ _.
Arguments thread_step {job} _ _.
Arguments executing {job} _.
Arguments holding {job} _.
Arguments recorded {job} _.
Arguments all_done {job} _.
Arguments failures {job} _.
Arguments is_dead {job} _.
Arguments is_doing {job} _.
Arguments has_recorded {job} _.
Arguments has_failed {job} _.
Arguments steps_left {job} _.
Arguments total_left {job} _.
Arguments set_pc {job} _ _.

(** * build_source_files

    [rtns] holds what the two calls of [subprocess.call] return: the exit
    status of the quiet run and, when that is not zero, the exit status of
    the verbose run.  The result is what is printed and started, and the
    exception raised, if any.  ([args.output_mutex] keeps the lines of one
    failure report together; a report is one block of events here.) *)

Definition cases_macro_of (cases : string) : exn + option string :=
  if Stdlib.Strings.String.eqb cases "good" then inr (Some "OMITBAD")
  else if Stdlib.Strings.String.eqb cases "bad" then inr (Some "OMITGOOD")
  else if Stdlib.Strings.String.eqb cases "both" then inr None
  else inl (Exception "Unknown cases.").

(** The command line, the verbose flags, and what is printed on the way. *)
Definition build_command `{Platform} (a : args) (cases_macro : option string)
    (source_paths : list string) : list event * (exn + list string * list string) :=
  if Stdlib.Strings.String.eqb (language a) "cpp" then
    if truthy (cl a) then
      ([], inr ([cl_path a] ++ ["/I" +:+ test_cases_support_dir a]
                ++ (if truthy cases_macro then ["/D" +:+ default "" cases_macro] else [])
                ++ ["/W3"; "/MT"; "/GS"; "/RTC1"; "/bigobj"; "/EHsc"; "/nologo"]
                ++ ["/c"]
                ++ source_paths,
                []))
    else
      ([], inr ([gcc_path a] ++ ["-I"; test_cases_support_dir a]
                ++ (if truthy cases_macro then ["-D" +:+ default "" cases_macro] else [])
                ++ ["-DCALG_RC5=(ALG_CLASS_DATA_ENCRYPT|ALG_TYPE_BLOCK|ALG_SID_RC5)";
                    "-DNO_ERROR=0L";
                    "-D__STDC_FORMAT_MACROS";
                    "-c";
                    "-wrapper"; "true"]
                ++ (if use_pipe a then ["-pipe"] else [])
                ++ source_paths,
                ["-v"; "-pass-exit-codes"]))
  else if Stdlib.Strings.String.eqb (language a) "java" then
    let evs := [EvPrint ("build " +:+ str_of_list source_paths)] in
    if (1 <? length source_paths)%nat then
      (evs, inl (Exception "Can't build more than one file at a time with 'ant'."))
    else
      (evs, inr ([ant_path a] ++ concat ((λ p, ["-buildfile"; p]) <$> source_paths),
                 ["-v"]))
  else
    ([], inl (Exception "Don't know how to build for this language (build_source_files).")).

Definition build_source_files `{Platform} (a : args) (source_paths : list string)
    (rtns : Z * Z) : list event * option exn :=
  match cases_macro_of (cases a) with
  | inl e => ([], Some e)
  | inr cases_macro =>
      match build_command a cases_macro source_paths with
      | (evs, inl e) => (evs, Some e)
      | (evs, inr (cmd, verbose)) =>
          let rtn := rtns.1 in
          let evs := evs ++ [EvCall cmd true rtn] in
          if (rtn =? 0)%Z then (evs, None)
          else
            let rtn2 := rtns.2 in
            (evs ++ [EvPrint "*** FAILED BUILD:";
                     EvPrint ("exec: " +:+ String (ascii_of_nat 34) ""
                              +:+ str_of_list (cmd ++ verbose)
                              +:+ String (ascii_of_nat 34) "");
                     EvPrint "";
                     EvCall (cmd ++ verbose) false rtn2;
                     EvPrint ("exit code: " +:+ str_Z rtn +:+ " / " +:+ str_Z rtn2);
                     EvPrint "***";
                     EvPrint ""],
             Some (match last source_paths with
                   | Some source_path => Exception ("Build '" +:+ source_path +:+ "' failed.")
                   | None => UnboundLocalError "source_path"
                   end))
      end
  end.

(** [build_source_files_job(args, source_paths)]; [job_do] is its [do]. *)
Record build_source_files_job := {
  job_args : args;
  source_paths : list string
}.

Definition job_do `{Platform} (j : build_source_files_job) (rtns : Z * Z)
    : list event * option exn :=
  build_source_files (job_args j) (source_paths j) rtns.

(** * main

    The model starts at the comment [# other initialization] of [main],
    with [args] as the lines above it leave it, and ends where the build
    is done and the working directory restored (the report of the timings
    is left out).

    What the run meets is given by an [env]: the number of CPUs (if
    known), the working directory, the exit statuses of the processes the
    main thread starts, and what the threads of the pool do between two
    calls of the main thread to the pool. *)

Record env := {
  cpu_count : option Z;
  original_dir : string;
  (** the exit statuses for the [k]-th call of [build_source_files] by the main thread *)
  build_rtn : nat → Z * Z;
  (** before the [k]-th call to the pool: the threads that take a step, in
      order, each with the exit statuses of its job *)
  sched : nat → list (nat * (Z * Z))
}.

Record state := {
  trace : list event;
  builds : nat;
  ops : nat
}.

Definition state_init : state := {| trace := []; builds := 0; ops := 0 |}.

(** The state after some more events, after one more call of
    [build_source_files] by the main thread, after one more call to the
    pool. *)
Definition log (s : state) (evs : list event) : state :=
  {| trace := trace s ++ evs; builds := builds s; ops := ops s |}.

Definition next_build (s : state) : state :=
  {| trace := trace s; builds := S (builds s); ops := ops s |}.

Definition next_op (s : state) : state :=
  {| trace := trace s; builds := builds s; ops := S (ops s) |}.

(** How a piece of the run ends.  [Blocked]: the main thread waits for a
    slot or for a thread for ever.  [OutOfFuel] is the answer of a loop
    that is given too few iterations; [main] gives enough. *)
Inductive outcome (A : Type) :=
  | Returned (a : A)
  | Raised (e : exn)
  | Blocked
  | OutOfFuel.

Arguments Returned {A} _.
Arguments Raised {A} _.
Arguments Blocked {A}.
Arguments OutOfFuel {A}.

Definition M (A : Type) : Type := state → outcome A * state.

Definition ret {A} (a : A) : M A := λ s, (Returned a, s).

Definition raise {A} (e : exn) : M A := λ s, (Raised e, s).

Definition bind {A B} (m : M A) (k : A → M B) : M B :=
  λ s, match m s with
       | (Returned a, s') => k a s'
       | (Raised e, s') => (Raised e, s')
       | (Blocked, s') => (Blocked, s')
       | (OutOfFuel, s') => (OutOfFuel, s')
       end.

(** [try: m  except: h] *)
Definition try_except {A} (m : M A) (h : exn → M A) : M A :=
  λ s, match m s with
       | (Raised e, s') => h e s'
       | r => r
       end.

Notation "'do' x ← m ; k" := (bind m (λ x, k))
  (at level 10, x name, m at level 100, k at level 200,
   format "'[v' 'do'  x  ←  m ; '/' k ']'").
Notation "m ;; k" := (bind m (λ _, k))
  (at level 100, k at level 200, right associativity).

Definition emit (evs : list event) : M unit :=
  λ s, (Returned tt, log s evs).

Definition print (line : string) : M unit := emit [EvPrint line].

Definition plural (num : Z) : string := if (num =? 1)%Z then "" else "s".

(** [round(n / d)] for [0 <= n] and [0 < d]: the nearest integer, the
    even one of the two at a tie.  (Python rounds the float [n / d]; it
    is the nearest float to the quotient, which lies on the same side of
    every tie as the quotient as long as [n] is below 2^52.) *)
Definition round_div (n d : Z) : Z :=
  let q := (n / d)%Z in
  let r := (n mod d)%Z in
  if (2 * r <? d)%Z then q
  else if (d <? 2 * r)%Z then (q + 1)%Z
  else if Z.even q then q else (q + 1)%Z.

Definition set_use_pipe (a : args) (b : bool) : args :=
  {| language := language a; cwes := cwes a; exclude := exclude a; cases := cases a;
     threads := threads a; cl := cl a; test_cases_dir := test_cases_dir a;
     test_cases_support_dir := test_cases_support_dir a; object_dir := object_dir a;
     gcc_path := gcc_path a; cl_path := cl_path a; ant_path := ant_path a;
     use_pipe := b |}.

Section Main.
Context `{Platform}.
Variable E : env.

(** A call of [build_source_files] by the main thread. *)
Definition main_build (a : args) (paths : list string) : M unit :=
  λ s, let '(evs, r) := build_source_files a paths (build_rtn E (builds s)) in
       (match r with
        | None => Returned tt
        | Some e => Raised e
        end,
        next_build (log s (EvBuild paths :: evs))).

(** The threads take the steps the schedule lists; a step of a thread
    that does not exist or has ended is skipped.  A thread that leaves
    [job.do()] has run [build_source_files] with the exit statuses given. *)
Fixpoint run_threads (steps : list (nat * (Z * Z))) (jobs : Jobs build_source_files_job)
    : list event * Jobs build_source_files_job :=
  match steps with
  | [] => ([], jobs)
  | (i, rtns) :: steps' =>
      match outstanding_jobs jobs !! i with
      | Some t =>
          let '(evs, r) := job_do (th_job t) rtns in
          match do_job jobs i r with
          | Some jobs' =>
              let '(evs', jobs'') := run_threads steps' jobs' in
              (EvThread i :: (if is_doing t then evs else []) ++ evs', jobs'')
          | None => run_threads steps' jobs
          end
      | None => run_threads steps' jobs
      end
  end.

(** The calls of the main thread to the pool.  The threads move first. *)
Definition pool_start_job (jobs : Jobs build_source_files_job) (j : build_source_files_job)
    : M (Jobs build_source_files_job) :=
  λ s, let '(evs, jobs1) := run_threads (sched E (ops s)) jobs in
       match start_job jobs1 j with
       | Some jobs2 =>
           (Returned jobs2, next_op (log s (evs ++ [EvStartJob (source_paths j)])))
       | None => (Blocked, next_op (log s evs))
       end.

Definition pool_has_errors (jobs : Jobs build_source_files_job)
    : M (bool * Jobs build_source_files_job) :=
  λ s, let '(evs, jobs1) := run_threads (sched E (ops s)) jobs in
       (Returned (has_errors jobs1, jobs1),
        next_op (log s (evs ++ [EvHasErrors (has_errors jobs1)]))).

Definition pool_wait_jobs (jobs : Jobs build_source_files_job)
    : M (Jobs build_source_files_job) :=
  λ s, let '(evs, jobs1) := run_threads (sched E (ops s)) jobs in
       match wait_jobs jobs1 with
       | Some (evs', r) =>
           (match r with
            | None => Returned jobs1
            | Some e => Raised e
            end,
            next_op (log s (evs ++ evs')))
       | None => (Blocked, next_op (log s evs))
       end.

(** The loop [while not success] that builds the support files; it
    returns [args], whose [use_pipe] it may have cleared. *)
Fixpoint build_support_files (fuel : nat) (a : args) (support_files : list string)
    : M args :=
  match fuel with
  | O => λ s, (OutOfFuel, s)
  | S fuel' =>
      try_except
        (main_build a support_files ;; ret a)
        (λ e,
           (* build failed, can we use more conservative settings? *)
           if use_pipe a then
             print "trying without `-pipe`..." ;;
             print "" ;;
             build_support_files fuel' (set_use_pipe a false) support_files
           else
             (* fail *)
             raise e)
  end.

(** The loop [for testcase in testcases]; it returns [chunk],
    [chunk_size] and the pool as they are when the loop is left. *)
Fixpoint submit_loop (a : args) (chunk_max : Z) (testcases : list string)
    (chunk : list string) (chunk_size : Z) (jobs : Jobs build_source_files_job)
    : M (list string * Z * Jobs build_source_files_job) :=
  match testcases with
  | [] => ret (chunk, chunk_size, jobs)
  | testcase :: testcases' =>
      let chunk := chunk ++ [testcase] in
      let chunk_size := (chunk_size + 1)%Z in
      if (chunk_max <=? chunk_size)%Z then
        if (threads a =? 1)%Z then
          (* the simple way, for maximum determinism *)
          main_build a chunk ;;
          submit_loop a chunk_max testcases' [] 0%Z jobs
        else
          (* the threaded way, for maximum performance *)
          do jobs ← pool_start_job jobs {| job_args := a; source_paths := chunk |};
          do r ← pool_has_errors jobs;
          if r.1 then
            (* stop submitting jobs if we hit an error *)
            ret (chunk, chunk_size, r.2)
          else submit_loop a chunk_max testcases' [] 0%Z r.2
      else submit_loop a chunk_max testcases' chunk chunk_size jobs
  end.

(** The step after the loop: [if chunk_size >= 1: ...]. *)
Definition run_remainder (a : args) (chunk : list string) (chunk_size : Z)
    (jobs : Jobs build_source_files_job) : M (Jobs build_source_files_job) :=
  if (1 <=? chunk_size)%Z then
    (* run final 'remainder' chunk *)
    if (threads a =? 1)%Z then main_build a chunk ;; ret jobs
    else pool_start_job jobs {| job_args := a; source_paths := chunk |}
  else ret jobs.

Definition chunk_max_of (a : args) (testcases : list string) : Z :=
  if Stdlib.Strings.String.eqb (language a) "java" then 1%Z
  else Z.min 50 (round_div (Z.of_nat (length testcases)) (threads a)).

(** From [# build testcases] to [jobs.wait_jobs()]. *)
Definition building_line (a : args) (cpus : Z) : string :=
  "building test cases (" +:+ str_Z (threads a) +:+ " thread"
  +:+ plural (threads a) +:+ " / " +:+ str_Z cpus +:+ " CPU"
  +:+ plural cpus +:+ ")...".

Definition build_testcases (a : args) (testcases : list string) : M unit :=
  match cpu_count E with
  | None => raise (UnboundLocalError "cpu_count")
  | Some cpus =>
      print (building_line a cpus) ;;
      print "" ;;
      if (1 <=? threads a)%Z then
        let jobs := Jobs_init (Z.to_nat (threads a)) in
        let chunk_max := chunk_max_of a testcases in
        do r ← submit_loop a chunk_max testcases [] 0%Z jobs;
        let '(chunk, chunk_size, jobs) := r in
        do jobs ← run_remainder a chunk chunk_size jobs;
        pool_wait_jobs jobs ;;
        ret tt
      else raise (Exception "'threads' argument is non-positive.")
  end.

(** From [# find testcases] to the end of the scan. *)
Definition scan_testcases (a : args) (listing : list entry) : M (list string) :=
  print "scanning SAMATE test cases..." ;;
  λ s, let '(evs, r) := find_all_testcases a listing in
       let s' := log s evs in
       match r with
       | inl e => (Raised e, s')
       | inr testcases =>
           (print ("  found " +:+ str_nat (length testcases) +:+ " test sources total") ;;
            (match testcases with
             | [] => ret tt
             | first :: _ =>
                 print ("    from " +:+ first) ;;
                 print ("    to " +:+ default first (last testcases))
             end) ;;
            print "" ;;
            ret testcases) s'
       end.

Definition support_files_of (a : args) : list string :=
  [os_path_join (test_cases_support_dir a) "io.c"]
  ++ (if truthy (cl a)
      then [os_path_join (test_cases_support_dir a) "std_thread.c"] else []).

(** From [# build support files] to the end of its loop. *)
Definition build_support (a : args) : M args :=
  if Stdlib.Strings.String.eqb (language a) "cpp" then
    print "building support files..." ;;
    print "" ;;
    build_support_files 2 a (support_files_of a)
  else ret a.

(** From [# build testcases] to [os.chdir(original_dir)]. *)
Definition build_and_finish (a : args) (testcases : list string) : M unit :=
  build_testcases a testcases ;;
  (* done building *)
  print "all testcases built." ;;
  print "" ;;
  emit [EvChdir (original_dir E)].

(** From [# start building] to [os.chdir(original_dir)]. *)
Definition build_all (a : args) (testcases : list string) : M unit :=
  emit [EvChdir (object_dir a)] ;;
  do a ← build_support a;
  build_and_finish a testcases.

Definition main (a0 : args) (listing : list entry) : outcome unit * state :=
  ((* other initialization *)
   let a := set_use_pipe a0 (negb (truthy (cl a0))) in
   do testcases ← scan_testcases a listing;
   build_all a testcases) state_init.

End Main.

(** ** Batches and schedules *)

(** The batches handed to [build_source_files] by the main thread or to
    [jobs.start_job], in the order of the calls. *)
Fixpoint dispatched (tr : list event) : list (list string) :=
  match tr with
  | [] => []
  | EvBuild p :: tr' => p :: dispatched tr'
  | EvStartJob p :: tr' => p :: dispatched tr'
  | _ :: tr' => dispatched tr'
  end.

Definition is_dispatch (ev : event) : bool :=
  match ev with
  | EvBuild _ | EvStartJob _ => true
  | _ => false
  end.

(** The size of a full batch: [chunk_max], or 1 when that is smaller. *)
Definition chunk_bound (chunk_max : Z) : nat := Z.to_nat (Z.max 1 chunk_max).

(** [ceil(n / d)] for [0 < d]. *)
Definition ceil_div (n d : Z) : Z := ((n + d - 1) / d)%Z.

(** A schedule under which every thread started so far runs to its end
    before each call of the main thread to the pool, and an environment
    in which every process exits with status 0. *)
Definition run_to_end (i : nat) : list (nat * (Z * Z)) :=
  [(i, (0%Z, 0%Z)); (i, (0%Z, 0%Z)); (i, (0%Z, 0%Z))].

Definition eager (n : nat) : list (nat * (Z * Z)) :=
  concat (run_to_end <$> seq 0 n).

Definition quiet_env (n : nat) : env :=
  {| cpu_count := Some 4%Z; original_dir := "/";
     build_rtn := λ _, (0%Z, 0%Z);
     sched := λ _, eager n |}.

(** A pool at rest: every thread has ended and no exception was caught. *)
Definition quiescent (jobs : Jobs build_source_files_job) : Prop :=
  all_done jobs ∧ errors jobs = [].

(** The configurations [build_source_files] can build test cases for. *)
Definition buildable (a : args) : Prop :=
  language a = "cpp" ∧ ∃ cases_macro, cases_macro_of (cases a) = inr cases_macro.

(** The calls of the main thread to the pool that a trace records. *)
Definition is_pool_call (ev : event) : bool :=
  match ev with
  | EvStartJob _ | EvHasErrors _ => true
  | _ => false
  end.

Definition pool_calls (tr : list event) : list event := List.filter is_pool_call tr.

Definition is_listdir (ev : event) : bool :=
  match ev with
  | EvListdir _ => true
  | _ => false
  end.

Definition is_call (ev : event) : bool :=
  match ev with
  | EvCall _ _ _ => true
  | _ => false
  end.

(** * main: the options and the directories

    The lines of [main] from the options of the command line to [# other
    initialization]: the defaults of the options, the directories of the
    suite, the object directory, and the tools.  What the machine answers
    is given by a [host]. *)

(** [s.startswith(p)] *)
Definition startswith (p s : string) : bool :=
  match strip_prefix p s with
  | Some _ => true
  | None => false
  end.

(** [is_windows()], where [system] is what [platform.system()] returns. *)
Definition is_windows (system : string) : bool :=
  if Stdlib.Strings.String.eqb system "Windows" then true
  else if startswith "CYGWIN" system then true
  else false.

(** The default of [--threads]; [cpu_count] is [None] when
    [multiprocessing.cpu_count()] raises [NotImplementedError]. *)
Definition default_threads (cpu_count : option Z) : Z :=
  match cpu_count with
  | Some cpu_count => (cpu_count + 1)%Z (* one per CPU + one ready *)
  | None => 9%Z (* high guess *)
  end.

Definition default_gcc (system : string) : string :=
  if is_windows system then "gcc" else "/usr/bin/i686-w64-mingw32-gcc".

(** The options as they stand on the command line, after [argparse] has
    checked them: the three required ones, and the others, [None] when
    they are not given. *)
Record options := {
  opt_language : string;
  opt_samate : string;
  opt_output : string;
  opt_cwes : option string;
  opt_exclude : option string;
  opt_cases : option string;
  opt_threads : option Z;
  opt_gcc : option string;
  opt_cl : option string
}.

(** What the machine answers: [platform.system()], [os.path.abspath],
    [os.path.isdir] before the object directory is touched,
    [os.path.isdir] of a directory after [shutil.rmtree] of it (which
    ignores errors, so the directory may still be there), whether
    [os.makedirs] succeeds or raises an [OSError], and [shutil.which]. *)
Record host := {
  system : string;
  abspath : string → string;
  isdir : string → bool;
  isdir_after_rmtree : string → bool;
  makedirs_succeeds : string → bool;
  which : string → option string
}.

(** How the start of [main] fails: with an exception that the script
    raises itself, or with the [OSError] of [os.makedirs(dir)]. *)
Inductive setup_error :=
  | Raise (e : exn)
  | OSError (dir : string).

(** What the start of [main] does to the file system. *)
Inductive fs_action :=
  | Rmtree (dir : string)      (* shutil.rmtree(dir, ignore_errors = True) *)
  | Makedirs (dir : string).   (* os.makedirs(dir) *)

(** [args] at [# other initialization].  A path of a tool is [None]
    when the attribute has not been set. *)
Record namespace := {
  ns_language : string;
  ns_samate_dir : string;
  ns_output_dir : string;
  ns_cwes : option string;
  ns_exclude : option string;
  ns_cases : string;
  ns_threads : Z;
  ns_gcc : string;
  ns_cl : option string;
  ns_language_root : string;
  ns_test_cases_dir : string;
  ns_test_cases_support_dir : string;
  ns_object_dir : string;
  ns_gcc_path : option string;
  ns_cl_path : option string;
  ns_ant_path : option string
}.

(** [# compute SAMATE language root]; a [join] of three parts is two
    [join]s. *)
Definition language_root_of `{Platform} (h : host) (language samate_dir : string)
    : exn + string :=
  if Stdlib.Strings.String.eqb language "cpp" then
    let language_root := os_path_join samate_dir "C" in (* root for Samate 1.3 *)
    if isdir h language_root then inr language_root
    else inr samate_dir (* in Samate 1.2 there was no C subdirectory *)
  else if Stdlib.Strings.String.eqb language "java" then
    let language_root := os_path_join (os_path_join samate_dir "Java") "src" in
    if isdir h language_root then inr language_root
    else inr (os_path_join samate_dir "") (* in Samate 1.2 there was no Java subdirectory *)
  else inl (Exception "Unknown language.").

(** [shutil.which(name)], and the exception when the answer is empty. *)
Definition locate (h : host) (name : string) (msg : string) : exn + option string :=
  let path := which h name in
  if truthy path then inr path else inl (Exception msg).

(** [# find gcc / cl]: the paths of gcc, cl and ant. *)
Definition locate_tools (h : host) (language gcc : string) (cl : option string)
    : exn + (option string * option string * option string) :=
  let cpp :=
    if Stdlib.Strings.String.eqb language "cpp" then
      match (if truthy (Some gcc) then locate h gcc "Could not locate gcc."
             else inr None) with
      | inl e => inl e
      | inr gcc_path =>
          match (if truthy cl then locate h (default "" cl) "Could not locate cl."
                 else inr None) with
          | inl e => inl e
          | inr cl_path => inr (gcc_path, cl_path)
          end
      end
    else inr (None, None) in
  match cpp with
  | inl e => inl e
  | inr (gcc_path, cl_path) =>
      if Stdlib.Strings.String.eqb language "java" then
        match locate h "ant" "Could not locate ant." with
        | inl e => inl e
        | inr ant_path => inr (gcc_path, cl_path, ant_path)
        end
      else inr (gcc_path, cl_path, None)
  end.

(** [# ensure temp. object directory exists]: what is done, and whether
    it goes through ([false]: [os.makedirs] raises). *)
Definition ensure_object_dir (h : host) (object_dir : string) : list fs_action * bool :=
  if negb (isdir_after_rmtree h object_dir) then
    ([Rmtree object_dir; Makedirs object_dir], makedirs_succeeds h object_dir)
  else ([Rmtree object_dir], true).

(** From [arg_parser.parse_args()] to [# other initialization]. *)
Definition setup `{Platform} (h : host) (cpu_count : option Z) (o : options)
    : setup_error + namespace :=
  let language := opt_language o in
  let cases := default "both" (opt_cases o) in
  let threads := default (default_threads cpu_count) (opt_threads o) in
  let gcc := default (default_gcc (system h)) (opt_gcc o) in
  (* normalize paths *)
  let samate_dir := abspath h (opt_samate o) in
  let output_dir := abspath h (opt_output o) in
  (* compute SAMATE language root *)
  if negb (isdir h samate_dir) then
    inl (Raise (Exception "Specified SAMATE path is not a directory."))
  else
    match language_root_of h language samate_dir with
    | inl e => inl (Raise e)
    | inr language_root =>
        if negb (isdir h language_root) then
          inl (Raise (Exception "Cannot locate SAMATE language root directory."))
        else
          (* compute SAMATE test cases and support directories *)
          let test_cases_dir := os_path_join language_root "testcases" in
          let test_cases_support_dir := os_path_join language_root "testcasesupport" in
          if negb (isdir h test_cases_dir) then
            inl (Raise (Exception "Cannot locate SAMATE test cases directory."))
          else if negb (isdir h test_cases_support_dir) then
            inl (Raise (Exception "Cannot locate SAMATE test cases support directory."))
          else
            (* ensure temp. object directory exists *)
            let object_dir := os_path_join output_dir "object" in
            if negb (ensure_object_dir h object_dir).2 then inl (OSError object_dir)
            else
            (* find gcc / cl *)
            match locate_tools h language gcc (opt_cl o) with
            | inl e => inl (Raise e)
            | inr (gcc_path, cl_path, ant_path) =>
                inr {| ns_language := language;
                       ns_samate_dir := samate_dir;
                       ns_output_dir := output_dir;
                       ns_cwes := opt_cwes o;
                       ns_exclude := opt_exclude o;
                       ns_cases := cases;
                       ns_threads := threads;
                       ns_gcc := gcc;
                       ns_cl := opt_cl o;
                       ns_language_root := language_root;
                       ns_test_cases_dir := test_cases_dir;
                       ns_test_cases_support_dir := test_cases_support_dir;
                       ns_object_dir := object_dir;
                       ns_gcc_path := gcc_path;
                       ns_cl_path := cl_path;
                       ns_ant_path := ant_path |}
            end
    end.

(** The [args] that the rest of [main] reads, when the paths of the
    tools it will use are set; [use_pipe] is set by [main]. *)
Definition args_of (ns : namespace) : args :=
  {| language := ns_language ns; cwes := ns_cwes ns; exclude := ns_exclude ns;
     cases := ns_cases ns; threads := ns_threads ns; cl := ns_cl ns;
     test_cases_dir := ns_test_cases_dir ns;
     test_cases_support_dir := ns_test_cases_support_dir ns;
     object_dir := ns_object_dir ns;
     gcc_path := default "" (ns_gcc_path ns);
     cl_path := default "" (ns_cl_path ns);
     ant_path := default "" (ns_ant_path ns);
     use_pipe := true |}.

(** The tool the build will start: [ant] for [java], [cl] with [--cl],
    gcc otherwise. *)
Definition tool_path (ns : namespace) : option string :=
  if Stdlib.Strings.String.eqb (ns_language ns) "java" then ns_ant_path ns
  else if truthy (ns_cl ns) then ns_cl_path ns
  else ns_gcc_path ns.

(** ** Several jobs at once *)

(** [self.start_job(j)] for each job of a list, in order, while no
    thread moves on: [None] when one of the calls blocks. *)
Fixpoint start_jobs {job : Type} (self : Jobs job) (js : list job) : option (Jobs job) :=
  match js with
  | [] => Some self
  | j :: js' =>
      match start_job self j with
      | Some self' => start_jobs self' js'
      | None => None
      end
  end.

(** ** Kinds of events *)

(** What [build_source_files] leaves in the trace: the lines it prints
    and the processes it starts. *)
Definition is_output (ev : event) : bool :=
  match ev with
  | EvPrint _ | EvCall _ _ _ => true
  | _ => false
  end.

(** A call of [build_source_files] by the main thread. *)
Definition is_build (ev : event) : bool :=
  match ev with
  | EvBuild _ => true
  | _ => false
  end.

(** A step of a thread of the pool. *)
Definition is_thread (ev : event) : bool :=
  match ev with
  | EvThread _ => true
  | _ => false
  end.

(** A line printed, a change of the working directory. *)
Definition is_print (ev : event) : bool :=
  match ev with
  | EvPrint _ => true
  | _ => false
  end.

Definition is_chdir (ev : event) : bool :=
  match ev with
  | EvChdir _ => true
  | _ => false
  end.

(** What the threaded build leaves in the trace: what the threads print
    and start, their steps, and the calls to the pool. *)
Definition is_pool_event (ev : event) : bool :=
  is_output ev || is_thread ev || is_pool_call ev.

(** An event of the build: anything but a listing of a directory and a
    change of the working directory. *)
Definition is_build_event (ev : event) : bool :=
  negb (is_listdir ev) && negb (is_chdir ev).

(** * Sample inputs

    The tree of the scenario with two CWE120 sources, a configuration
    that selects CWE 120, and the inputs of the other concrete runs. *)

Definition sample_tree : list entry :=
  [ Dir "CWE120_Buffer_Overflow"
      [ Dir "s01" [File "CWE120_bad.cpp"];
        Dir "s02" [File "CWE120_good.cpp"] ];
    Dir "CWE190_Integer_Overflow" [File "CWE190_x.cpp"];
    Dir "CACHE_temp" [File "CWE1_x.c"] ].

Definition sample_args : args := {|
  language := "cpp"; cwes := Some "120"; exclude := None; cases := "both";
  threads := 2; cl := None; test_cases_dir := "/t"; test_cases_support_dir := "/s";
  object_dir := "/o"; gcc_path := "/usr/bin/gcc"; cl_path := ""; ant_path := "";
  use_pipe := true |}.


Definition excluded_tree : list entry :=
  [ Dir "CWE397_Throw_Generic_Exception"
      [ File gcc_excluded; File "CWE397_Throw_Generic_Exception__throw_exception_01.cpp" ] ].

Definition gcc_args : args := {|
  language := "cpp"; cwes := None; exclude := None; cases := "both";
  threads := 2; cl := None; test_cases_dir := "/t"; test_cases_support_dir := "/s";
  object_dir := "/o"; gcc_path := "/usr/bin/gcc"; cl_path := ""; ant_path := "";
  use_pipe := true |}.

(** A pool of two slots with two jobs under way, and a pool of one slot
    whose only job has failed and ended. *)
Definition busy_pool : Jobs nat :=
  {| slots := 0;
     outstanding_jobs := [ {| th_job := 1; th_pc := Doing |};
                           {| th_job := 2; th_pc := Doing |} ];
     errors := [] |}.

Definition failed_pool : Jobs nat :=
  {| slots := 1;
     outstanding_jobs := [ {| th_job := 1; th_pc := Dead (Some (Exception "failed")) |} ];
     errors := [Exception "failed"] |}.

(** Environments: one in which the first job fails at once and the
    later ones succeed, one in which every process fails. *)
Definition first_job_fails : env :=
  {| cpu_count := Some 4%Z; original_dir := "/w";
     build_rtn := λ _, (0%Z, 0%Z);
     sched := λ k, match k with
                   | 1 => [(0, (1%Z, 1%Z)); (0, (1%Z, 1%Z)); (0, (1%Z, 1%Z))]
                   | _ => eager 4
                   end |}.

Definition all_fail : env :=
  {| cpu_count := Some 4%Z; original_dir := "/w";
     build_rtn := λ _, (1%Z, 1%Z);
     sched := λ _, [] |}.

Definition cl_args : args := {|
  language := "cpp"; cwes := None; exclude := None; cases := "both";
  threads := 2; cl := Some "cl"; test_cases_dir := "/t"; test_cases_support_dir := "/s";
  object_dir := "/o"; gcc_path := "/usr/bin/gcc"; cl_path := "/bin/cl"; ant_path := "";
  use_pipe := true |}.

Definition zero_threads_args : args := {|
  language := "cpp"; cwes := None; exclude := None; cases := "both";
  threads := 0; cl := None; test_cases_dir := "/t"; test_cases_support_dir := "/s";
  object_dir := "/o"; gcc_path := "/usr/bin/gcc"; cl_path := ""; ant_path := "";
  use_pipe := true |}.

Definition five_testcases : list string := ["a.c"; "b.c"; "c.c"; "d.c"; "e.c"].

(** Further inputs: a configuration with one thread, one for the
    language [java], and a machine on which
    [multiprocessing.cpu_count()] is not implemented. *)
Definition single_thread_args : args := {|
  language := "cpp"; cwes := None; exclude := None; cases := "both";
  threads := 1; cl := None; test_cases_dir := "/t"; test_cases_support_dir := "/s";
  object_dir := "/o"; gcc_path := "/usr/bin/gcc"; cl_path := ""; ant_path := "";
  use_pipe := true |}.

Definition java_args : args := {|
  language := "java"; cwes := None; exclude := None; cases := "both";
  threads := 2; cl := None; test_cases_dir := "/t"; test_cases_support_dir := "/s";
  object_dir := "/o"; gcc_path := ""; cl_path := ""; ant_path := "/usr/bin/ant";
  use_pipe := true |}.

Definition no_cpu_count : env :=
  {| cpu_count := None; original_dir := "/w";
     build_rtn := λ _, (0%Z, 0%Z);
     sched := λ _, eager 4 |}.

(** A machine with the suite of version 1.3 unpacked in [/juliet] and
    the cross compiler installed, on which directories can be removed and
    made, and a command line that gives the three required options
    only. *)
Definition sample_host : host :=
  {| system := "Linux";
     abspath := λ p, p;
     isdir := λ p, bool_decide (p ∈ ["/juliet"; "/juliet/C"; "/juliet/C/testcases";
                                     "/juliet/C/testcasesupport"]);
     isdir_after_rmtree := λ _, false;
     makedirs_succeeds := λ _, true;
     which := λ name,
       if Stdlib.Strings.String.eqb name "/usr/bin/i686-w64-mingw32-gcc"
       then Some name else None |}.

Definition sample_options : options :=
  {| opt_language := "cpp"; opt_samate := "/juliet"; opt_output := "/out";
     opt_cwes := None; opt_exclude := None; opt_cases := None; opt_threads := None;
     opt_gcc := None; opt_cl := None |}.

Definition sample_namespace : namespace :=
  {| ns_language := "cpp"; ns_samate_dir := "/juliet"; ns_output_dir := "/out";
     ns_cwes := None; ns_exclude := None; ns_cases := "both"; ns_threads := 5;
     ns_gcc := "/usr/bin/i686-w64-mingw32-gcc"; ns_cl := None;
     ns_language_root := "/juliet/C";
     ns_test_cases_dir := "/juliet/C/testcases";
     ns_test_cases_support_dir := "/juliet/C/testcasesupport";
     ns_object_dir := "/out/object";
     ns_gcc_path := Some "/usr/bin/i686-w64-mingw32-gcc";
     ns_cl_path := None; ns_ant_path := None |}.

(** A machine like [sample_host] on which [/out/object] cannot be made,
    for instance because [/out] is a file. *)
Definition readonly_host : host :=
  {| system := system sample_host;
     abspath := abspath sample_host;
     isdir := isdir sample_host;
     isdir_after_rmtree := λ _, false;
     makedirs_succeeds := λ _, false;
     which := which sample_host |}.
(** * Properties of the discovery *)


Lemma append_cons (c : ascii) (s r : string) : String c s +:+ r = String c (s +:+ r).
Proof. reflexivity. Qed.

Lemma append_nil_r (s : string) : s +:+ "" = s.
Proof. induction s as [|c s IH]; [done | by rewrite append_cons, IH]. Qed.

Lemma append_assoc (s1 s2 s3 : string) : (s1 +:+ s2) +:+ s3 = s1 +:+ s2 +:+ s3.
Proof. induction s1 as [|c s1 IH]; [done | by rewrite !append_cons, IH]. Qed.

Lemma at_dollar_spec rest :
  at_dollar rest = true ↔ rest = "" ∨ rest = String newline "".
Proof.
  unfold at_dollar. destruct rest as [|c [|c' rest]].
  - split; [by left | done].
  - destruct (Stdlib.Strings.Ascii.eqb_spec c newline) as [->|Hne].
    + split; [by right | done].
    + split; [done | intros [[=] | [= ?]]; done].
  - split; [done | intros [[=] | [=]]].
Qed.

Lemma strip_prefix_Some p s r : strip_prefix p s = Some r ↔ s = p +:+ r.
Proof.
  revert s; induction p as [|a p IH]; intros s; simpl.
  - split; [intros [= ->] | intros ->]; reflexivity.
  - destruct s as [|b s]; [split; discriminate|].
    destruct (Stdlib.Strings.Ascii.eqb_spec a b) as [->|Hne].
    + rewrite IH. split; [intros ->; reflexivity | intros [= ->]; reflexivity].
    + split; [discriminate | intros [= ? ?]; congruence].
Qed.

Lemma span_digits_spec s ds rest :
  span_digits s = (ds, rest) →
  s = ds +:+ rest ∧ all_digits ds = true ∧
  match rest with String c _ => is_digit c = false | EmptyString => True end.
Proof.
  revert ds rest; induction s as [|c s IH]; intros ds rest; simpl.
  - intros [= <- <-]. done.
  - destruct (is_digit c) eqn:Hc.
    + destruct (span_digits s) as [ds' rest'] eqn:Hs.
      intros [= <- <-]. destruct (IH _ _ eq_refl) as (-> & Hd & Hr).
      simpl. rewrite Hc, Hd. done.
    + intros [= <- <-]. simpl. done.
Qed.

Lemma span_digits_app ds rest :
  all_digits ds = true →
  match rest with String c _ => is_digit c = false | EmptyString => True end →
  span_digits (ds +:+ rest) = (ds, rest).
Proof.
  intros Hd Hr. induction ds as [|c ds IH]; simpl in *.
  - destruct rest as [|c rest]; [done|]. simpl. by rewrite Hr.
  - apply andb_prop in Hd as [Hc Hd]. rewrite Hc, (IH Hd). done.
Qed.

(** The first alternative of [dirs_regexp] accepts exactly the category
    names, and [group(1)] is the identifier. *)
Lemma dirs_regexp_match_category child id :
  dirs_regexp_match child = Some (Some id) ↔ is_category_name child id.
Proof.
  unfold dirs_regexp_match, match_cwe_prefix, is_category_name. split.
  - destruct (strip_prefix "CWE" child) as [s|] eqn:Hp.
    + apply strip_prefix_Some in Hp as ->.
      destruct (span_digits s) as [ds rest] eqn:Hs.
      apply span_digits_spec in Hs as (-> & Hd & _).
      destruct ds as [|d ds].
      { destruct (match_s_dir _); discriminate. }
      destruct rest as [|c rest].
      { destruct (match_s_dir _); discriminate. }
      destruct (Stdlib.Strings.Ascii.eqb_spec c "_"%char) as [->|Hne].
      * intros [= <-]. split; [done|]. split; [done|]. by exists rest.
      * destruct (match_s_dir _); discriminate.
    + destruct (match_s_dir _); discriminate.
  - intros (Hne & Hd & suffix & ->).
    assert (strip_prefix "CWE" ("CWE" +:+ id +:+ "_" +:+ suffix)
            = Some (id +:+ "_" +:+ suffix)) as -> by (by apply strip_prefix_Some).
    rewrite (span_digits_app id ("_" +:+ suffix)); [|done|done].
    destruct id; [done|]. done.
Qed.

(** [group(1)] of a match is never the empty string. *)
Lemma dirs_regexp_match_truthy child id :
  dirs_regexp_match child = Some (Some id) → truthy (Some id) = true.
Proof.
  intros Hm. apply dirs_regexp_match_category in Hm as (Hne & _).
  by destruct id.
Qed.

Lemma dirs_regexp_match_s ds rest :
  ds ≠ "" → all_digits ds = true → at_dollar rest = true →
  dirs_regexp_match ("s" +:+ ds +:+ rest) = Some None.
Proof.
  intros Hne Hd Hr. unfold dirs_regexp_match, match_s_dir.
  change (match_cwe_prefix ("s" +:+ ds +:+ rest)) with (@None (string * string)).
  change (strip_prefix "s" ("s" +:+ ds +:+ rest)) with (Some (ds +:+ rest)).
  cbv beta iota. rewrite (span_digits_app ds rest); [|done|].
  - destruct ds; [done|]. by rewrite Hr.
  - apply at_dollar_spec in Hr as [-> | ->]; done.
Qed.

(** The second alternative accepts the subdivision names, and also a
    subdivision name followed by one newline. *)
Lemma dirs_regexp_match_subdivision child :
  dirs_regexp_match child = Some None ↔
  is_subdivision_name child ∨
  ∃ child', is_subdivision_name child' ∧ child = child' +:+ String newline "".
Proof.
  unfold dirs_regexp_match, match_s_dir, is_subdivision_name. split.
  - destruct (match_cwe_prefix child) as [[? ?]|]; [discriminate|].
    destruct (strip_prefix "s" child) as [s|] eqn:Hp; [|discriminate].
    apply strip_prefix_Some in Hp as ->.
    destruct (span_digits s) as [ds rest] eqn:Hs.
    apply span_digits_spec in Hs as (-> & Hd & _).
    destruct ds as [|d ds]; [discriminate|].
    destruct (at_dollar rest) eqn:Hr; [|discriminate]. intros _.
    apply at_dollar_spec in Hr as [-> | ->].
    + left. exists (String d ds). by rewrite append_nil_r.
    + right. exists ("s" +:+ String d ds). split; [by exists (String d ds)|].
      by rewrite append_assoc.
  - pose proof dirs_regexp_match_s as Hgo.
    unfold dirs_regexp_match, match_s_dir in Hgo.
    intros [(ds & Hne & Hd & ->) | (child' & (ds & Hne & Hd & ->) & ->)].
    + specialize (Hgo ds "" Hne Hd eq_refl). by rewrite append_nil_r in Hgo.
    + specialize (Hgo ds (String newline "") Hne Hd eq_refl).
      by rewrite append_assoc.
Qed.

(** ** The traversal *)

Lemma entry_tree_ind (P : entry → Prop) :
  (∀ n, P (File n)) →
  (∀ n, P (Special n)) →
  (∀ n l, Forall P l → P (Dir n l)) →
  ∀ e, P e.
Proof.
  intros HF HS HD. fix IH 1. intros [n|n l|n]; [apply HF| |apply HS].
  apply HD. induction l as [|e l IHl]; constructor; [apply IH | apply IHl].
Qed.

(** The include and exclude test of a category directory. *)
Lemma dir_decision_category (cwes_include cwes_exclude : gset string) id :
  truthy (Some id) = true →
  (dir_decision (Some id) cwes_include cwes_exclude).1 = true ↔
  (cwes_include = ∅ ∨ id ∈ cwes_include) ∧ id ∉ cwes_exclude.
Proof.
  intros Ht. unfold dir_decision. rewrite Ht. cbn [default].
  repeat case_bool_decide; cbn; intuition congruence.
Qed.

Lemma dir_decision_report_category (cwes_include cwes_exclude : gset string) id :
  truthy (Some id) = true →
  (dir_decision (Some id) cwes_include cwes_exclude).1 = true →
  (dir_decision (Some id) cwes_include cwes_exclude).2 = true.
Proof.
  intros Ht. unfold dir_decision. rewrite Ht. cbn [default].
  repeat case_bool_decide; cbn; done.
Qed.

Section DiscoveryFacts.
Context `{Platform}.
Variable files_regexp : string → bool.
Variables cwes_include cwes_exclude : gset string.
Variable for_gcc : bool.

Abbreviation visit := (visit_child files_regexp cwes_include cwes_exclude for_gcc).
Abbreviation visit_list := (visit_children files_regexp cwes_include cwes_exclude for_gcc).
Abbreviation find_rec :=
  (find_all_testcases_rec files_regexp cwes_include cwes_exclude for_gcc).
Abbreviation recursed_into := (recursed_into files_regexp cwes_include cwes_exclude for_gcc).


(** The loop body on a directory, with the recursive call named. *)
Lemma visit_child_Dir search_dir child children :
  visit search_dir (Dir child children) =
    match dirs_regexp_match child with
    | Some g1 =>
        if (dir_decision g1 cwes_include cwes_exclude).1 then
          let r := find_rec (os_path_join search_dir child) children in
          (if (dir_decision g1 cwes_include cwes_exclude).2
           then r.1 ++ [found_line g1 r.2] else r.1, r.2)
        else ([], [])
    | None => ([], [])
    end.
Proof.
  cbn [visit_child entry_name].
  destruct (dirs_regexp_match child) as [g1|]; [|done].
  destruct (dir_decision g1 cwes_include cwes_exclude) as [[] report]; [|done].
  cbn [fst snd]. unfold find_all_testcases_rec.
  match goal with
  | |- (let '(_, _) := ?f children in _) = _ => set (loop := f)
  end.
  assert (∀ l, loop l = visit_list (os_path_join search_dir child) l) as ->.
  { induction l as [|c l IHl]; [done|].
    cbn [visit_children]. rewrite <- IHl. done. }
  destruct (visit_list _ children) as [evs res]. by destruct report.

Qed.

Lemma visit_child_File search_dir child :
  visit search_dir (File child) =
    if files_regexp child then
      if Stdlib.Strings.String.eqb child gcc_excluded && for_gcc
      then ([excluding_line child], [])
      else ([], [os_path_join search_dir child])
    else ([], []).
Proof. done. Qed.

Lemma visit_children_cons search_dir e l :
  visit_list search_dir (e :: l) =
    ((visit search_dir e).1 ++ (visit_list search_dir l).1,
     (visit search_dir e).2 ++ (visit_list search_dir l).2).
Proof.
  cbn [visit_children].
  destruct (visit search_dir e), (visit_list search_dir l). done.
Qed.

Lemma visit_children_app search_dir l1 l2 :
  visit_list search_dir (l1 ++ l2) =
    ((visit_list search_dir l1).1 ++ (visit_list search_dir l2).1,
     (visit_list search_dir l1).2 ++ (visit_list search_dir l2).2).
Proof.
  induction l1 as [|e l1 IH]; cbn [app].
  - by destruct (visit_list search_dir l2).
  - rewrite !visit_children_cons, IH. cbn [fst snd]. by rewrite !app_assoc.
Qed.

Lemma elem_of_visit_children_results search_dir l p :
  p ∈ (visit_list search_dir l).2 ↔
  ∃ e, e ∈ l ∧ p ∈ (visit search_dir e).2.
Proof.
  induction l as [|e l IH].
  - cbn. split; [by intros ?%elem_of_nil | by intros (? & ?%elem_of_nil & _)].
  - rewrite visit_children_cons. cbn [snd]. rewrite elem_of_app, IH. split.
    + intros [Hp | (e' & He' & Hp)].
      * exists e. split; [apply elem_of_cons; by left | done].
      * exists e'. split; [apply elem_of_cons; by right | done].
    + intros (e' & [-> | He']%elem_of_cons & Hp); [by left | right; eauto].
Qed.

Lemma elem_of_visit_children_events search_dir l ev :
  ev ∈ (visit_list search_dir l).1 ↔
  ∃ e, e ∈ l ∧ ev ∈ (visit search_dir e).1.
Proof.
  induction l as [|e l IH].
  - cbn. split; [by intros ?%elem_of_nil | by intros (? & ?%elem_of_nil & _)].
  - rewrite visit_children_cons. cbn [fst]. rewrite elem_of_app, IH. split.
    + intros [Hp | (e' & He' & Hp)].
      * exists e. split; [apply elem_of_cons; by left | done].
      * exists e'. split; [apply elem_of_cons; by right | done].
    + intros (e' & [-> | He']%elem_of_cons & Hp); [by left | right; eauto].
Qed.


Lemma recursed_into_Dir search_dir child children :
  recursed_into search_dir (Dir child children) ↔
  ∃ g1, dirs_regexp_match child = Some g1 ∧
        (dir_decision g1 cwes_include cwes_exclude).1 = true.
Proof.
  unfold recursed_into. rewrite visit_child_Dir. cbn [entry_name].
  destruct (dirs_regexp_match child) as [g1|].
  - destruct (dir_decision g1 cwes_include cwes_exclude) as [[] report] eqn:Hd;
      cbn [fst snd].
    + split; [intros _; exists g1; by rewrite Hd|]. intros _.
      unfold find_all_testcases_rec.
      destruct (visit_list (os_path_join search_dir child) children) as [evs res].
      cbn [fst snd].
      destruct report; [apply elem_of_app; left|]; apply elem_of_cons; by left.
    + split; [by intros ?%elem_of_nil|].
      intros (? & [= <-] & Hx). by rewrite Hd in Hx.
  - split; [by intros ?%elem_of_nil | by intros (? & [=] & ?)].
Qed.

(** A directory the pattern does not match adds nothing, whatever it
    holds. *)
Lemma visit_child_unmatched search_dir child children :
  dirs_regexp_match child = None →
  visit search_dir (Dir child children) = ([], []).
Proof. intros Hm. by rewrite visit_child_Dir, Hm. Qed.

End DiscoveryFacts.

(** ** The directories a run visits *)

Section VisitedFacts.
Context `{Platform}.
Variable files_regexp : string → bool.
Variables cwes_include cwes_exclude : gset string.
Variable for_gcc : bool.
Variables (root : string) (listing : list entry).

Abbreviation visit' := (visit_child files_regexp cwes_include cwes_exclude for_gcc).
Abbreviation visit_list' := (visit_children files_regexp cwes_include cwes_exclude for_gcc).
Abbreviation visited := (visited cwes_include cwes_exclude root listing).
Abbreviation from_file := (from_file files_regexp cwes_include cwes_exclude for_gcc root listing).


Lemma visit_child_Dir_results d child children g1 p :
  dirs_regexp_match child = Some g1 →
  (dir_decision g1 cwes_include cwes_exclude).1 = true →
  p ∈ (visit' d (Dir child children)).2 ↔
  p ∈ (visit_list' (os_path_join d child) children).2.
Proof.
  intros Hm Hd. rewrite visit_child_Dir, Hm, Hd. cbn [snd].
  unfold find_all_testcases_rec.
  by destruct (visit_list' (os_path_join d child) children).
Qed.

Lemma visit_child_Dir_events d child children g1 ev :
  dirs_regexp_match child = Some g1 →
  (dir_decision g1 cwes_include cwes_exclude).1 = true →
  ev ∈ (visit_list' (os_path_join d child) children).1 →
  ev ∈ (visit' d (Dir child children)).1.
Proof.
  intros Hm Hd Hev. rewrite visit_child_Dir, Hm, Hd. cbn [fst].
  unfold find_all_testcases_rec.
  destruct (visit_list' (os_path_join d child) children) as [evs res].
  cbn [fst snd] in *.
  destruct (dir_decision g1 cwes_include cwes_exclude).2;
    [apply elem_of_app; left|]; apply elem_of_cons; by right.
Qed.

Lemma visited_results d l p :
  visited d l → p ∈ (visit_list' d l).2 → p ∈ (visit_list' root listing).2.
Proof.
  induction 1 as [|d l child children g1 _ IH Hin Hm Hd]; [done|].
  intros Hp. apply IH. apply elem_of_visit_children_results.
  exists (Dir child children). split; [done|].
  by apply (visit_child_Dir_results _ _ _ g1).
Qed.

Lemma visited_events d l ev :
  visited d l → ev ∈ (visit_list' d l).1 → ev ∈ (visit_list' root listing).1.
Proof.
  induction 1 as [|d l child children g1 _ IH Hin Hm Hd]; [done|].
  intros Hp. apply IH. apply elem_of_visit_children_events.
  exists (Dir child children). split; [done|].
  by apply (visit_child_Dir_events _ _ _ g1).
Qed.


Lemma visit_child_provenance e :
  ∀ d l p, visited d l → e ∈ l → p ∈ (visit' d e).2 → from_file p.
Proof.
  induction e as [c|c|child children IH] using entry_tree_ind; intros d l p Hv Hin Hp.
  - rewrite visit_child_File in Hp.
    destruct (files_regexp c) eqn:Hf; [|by apply elem_of_nil in Hp].
    destruct (Stdlib.Strings.String.eqb c gcc_excluded && for_gcc) eqn:Hx;
      [by apply elem_of_nil in Hp|].
    apply list_elem_of_singleton in Hp as ->. by exists d, l, c.
  - by apply elem_of_nil in Hp.
  - rewrite visit_child_Dir in Hp.
    destruct (dirs_regexp_match child) as [g1|] eqn:Hm; [|by apply elem_of_nil in Hp].
    destruct (dir_decision g1 cwes_include cwes_exclude).1 eqn:Hd;
      [|by apply elem_of_nil in Hp].
    cbn [snd] in Hp. unfold find_all_testcases_rec in Hp.
    destruct (visit_list' (os_path_join d child) children) as [evs res] eqn:Hl.
    cbn [snd] in Hp.
    assert (p ∈ (visit_list' (os_path_join d child) children).2) as Hp'
      by (by rewrite Hl).
    apply elem_of_visit_children_results in Hp' as (e & He & Hpe).
    rewrite Forall_forall in IH.
    apply (IH e He (os_path_join d child) children p); [|done|done].
    by eapply visited_sub.
Qed.

Lemma results_provenance p :
  p ∈ (visit_list' root listing).2 → from_file p.
Proof.
  intros (e & He & Hp)%elem_of_visit_children_results.
  by apply (visit_child_provenance e root listing p); [apply visited_root| |].
Qed.

Lemma visited_file_result d l c :
  visited d l → File c ∈ l → files_regexp c = true →
  (Stdlib.Strings.String.eqb c gcc_excluded && for_gcc) = false →
  os_path_join d c ∈ (visit_list' root listing).2.
Proof.
  intros Hv Hin Hf Hx. apply (visited_results d l); [done|].
  apply elem_of_visit_children_results. exists (File c). split; [done|].
  rewrite visit_child_File, Hf, Hx. apply elem_of_cons; by left.
Qed.

Lemma visited_file_excluded d l :
  visited d l → File gcc_excluded ∈ l → files_regexp gcc_excluded = true →
  for_gcc = true →
  excluding_line gcc_excluded ∈ (visit_list' root listing).1.
Proof.
  intros Hv Hin Hf Hg. apply (visited_events d l); [done|].
  apply elem_of_visit_children_events. exists (File gcc_excluded). split; [done|].
  rewrite visit_child_File, Hf, Hg. apply elem_of_cons; by left.
Qed.

End VisitedFacts.

(** ** Names the directory pattern rejects *)

Lemma dirs_regexp_match_cases child g1 :
  dirs_regexp_match child = Some g1 →
  (∃ id, g1 = Some id ∧ is_category_name child id) ∨
  (g1 = None ∧
   (is_subdivision_name child ∨
    ∃ child', is_subdivision_name child' ∧ child = child' +:+ String newline "")).
Proof.
  destruct g1 as [id|]; intros Hm.
  - left. exists id. split; [done|]. by apply dirs_regexp_match_category.
  - right. split; [done|]. by apply dirs_regexp_match_subdivision.
Qed.

(** A name that is no category name, no subdivision name and no
    subdivision name followed by a newline is not matched. *)
Lemma dirs_regexp_match_None child :
  (∀ id, ¬ is_category_name child id) →
  ¬ is_subdivision_name child →
  (∀ child', is_subdivision_name child' → child ≠ child' +:+ String newline "") →
  dirs_regexp_match child = None.
Proof.
  intros Hc Hs Hn. destruct (dirs_regexp_match child) as [g1|] eqn:Hm; [|done].
  apply dirs_regexp_match_cases in Hm as [(id & _ & Hid) | (_ & [Hsub | (c' & Hsub & ->)])].
  - by destruct (Hc id).
  - done.
  - by destruct (Hn c' Hsub).
Qed.

Lemma decoys_unmatched :
  dirs_regexp_match "CACHE_temp" = None ∧
  dirs_regexp_match "antbuild" = None ∧
  dirs_regexp_match "s01foo" = None.
Proof. done. Qed.

(** An unmatched directory is skipped entirely: the run is the one of the
    listing without it. *)
Lemma unmatched_dir_skipped `{Platform} files_regexp cwes_include cwes_exclude for_gcc
    search_dir l1 child children l2 :
  dirs_regexp_match child = None →
  find_all_testcases_rec files_regexp cwes_include cwes_exclude for_gcc search_dir
    (l1 ++ Dir child children :: l2) =
  find_all_testcases_rec files_regexp cwes_include cwes_exclude for_gcc search_dir
    (l1 ++ l2).
Proof.
  intros Hm. unfold find_all_testcases_rec.
  rewrite !visit_children_app, visit_children_cons, visit_child_unmatched by done.
  done.
Qed.

(** ** Include and exclude options *)

Lemma split_comma_from_no_comma cur s :
  no_comma s = true → split_comma_from cur s = [cur +:+ s].
Proof.
  revert cur; induction s as [|c s IH]; intros cur Hs; cbn [split_comma_from].
  - by rewrite append_nil_r.
  - cbn [no_comma] in Hs. apply andb_prop in Hs as [Hc Hs].
    destruct (Stdlib.Strings.Ascii.eqb c ","%char); [done|].
    rewrite (IH _ Hs), append_assoc. done.
Qed.

Lemma cwes_set_single e :
  e ≠ "" → no_comma e = true → cwes_set (Some e) = {[e]}.
Proof.
  intros Hne Hc. unfold cwes_set, split_comma.
  destruct e as [|c e]; [done|]. cbn [truthy default].
  rewrite split_comma_from_no_comma by done.
  cbn [list_to_set]. change ("" +:+ String c e) with (String c e).
  by rewrite (right_id_L ∅ (∪)).
Qed.

Lemma cwes_set_None : cwes_set None = ∅.
Proof. done. Qed.

(** ** Category directories *)

Lemma recursed_into_category `{Platform} (files_regexp : string → bool)
    (cwes_include cwes_exclude : gset string) (for_gcc : bool)
    (search_dir child id : string) (children : list entry) :
  is_category_name child id →
  recursed_into files_regexp cwes_include cwes_exclude for_gcc search_dir
    (Dir child children)
  ↔ (cwes_include = ∅ ∨ id ∈ cwes_include) ∧ id ∉ cwes_exclude.
Proof.
  intros Hm%dirs_regexp_match_category.
  pose proof (dirs_regexp_match_truthy _ _ Hm) as Ht.
  rewrite recursed_into_Dir, <- (dir_decision_category cwes_include cwes_exclude id Ht).
  split.
  - intros (g1 & Hg & Hd). congruence.
  - intros Hd. by exists (Some id).
Qed.

(** ** The matchers decide the patterns *)

Lemma rmatch_lit_inv s before m after g :
  rmatch (Lit s) before m after g → m = s ∧ g = None.
Proof. by inversion 1. Qed.

Lemma rmatch_class_inv f before m after g :
  rmatch (Class f) before m after g → ∃ c, m = String c "" ∧ f c = true ∧ g = None.
Proof. inversion 1; subst. eauto. Qed.

Lemma rmatch_bol_inv before m after g :
  rmatch Bol before m after g → before = "" ∧ m = "" ∧ g = None.
Proof. by inversion 1. Qed.

Lemma rmatch_eol_inv before m after g :
  rmatch Eol before m after g → m = "" ∧ g = None ∧ at_dollar after = true.
Proof. by inversion 1. Qed.

Lemma rmatch_cat_inv r1 r2 before m after g :
  rmatch (Cat r1 r2) before m after g →
  ∃ m1 m2 g1 g2, m = m1 +:+ m2 ∧ g = later_group g1 g2 ∧
                 rmatch r1 before m1 (m2 +:+ after) g1 ∧
                 rmatch r2 (before +:+ m1) m2 after g2.
Proof. inversion 1; subst. by eexists _, _, _, _. Qed.

Lemma rmatch_alt_inv r1 r2 before m after g :
  rmatch (Alt r1 r2) before m after g →
  rmatch r1 before m after g ∨ rmatch r2 before m after g.
Proof. inversion 1; subst; [by left | by right]. Qed.

Lemma rmatch_group_inv r before m after g :
  rmatch (Group r) before m after g →
  g = Some m ∧ ∃ g', rmatch r before m after g'.
Proof. inversion 1; subst. eauto. Qed.

Lemma rmatch_star_class_inv f before m after g :
  rmatch (Star (Class f)) before m after g →
  g = None ∧ string_forall f m = true.
Proof.
  remember (Star (Class f)) as r eqn:Hr. intros Hm.
  induction Hm as [| | | | | | | |r' before m1 m2 after g1 g2 H1 _ _ IH2| |];
    try discriminate Hr.
  - done.
  - injection Hr as ->. apply rmatch_class_inv in H1 as (c & -> & Hc & ->).
    destruct (IH2 eq_refl) as [-> Hm2]. split; [done|].
    change (String c "" +:+ m2) with (String c m2). cbn. by rewrite Hc, Hm2.
Qed.

Lemma rmatch_star_class f before m after :
  string_forall f m = true → rmatch (Star (Class f)) before m after None.
Proof.
  revert before; induction m as [|c m IH]; intros before Hm.
  - apply rmatch_star_nil.
  - cbn in Hm. apply andb_prop in Hm as [Hc Hm].
    exact (rmatch_star_cons (Class f) before (String c "") m after None None
             (rmatch_class f c before (m +:+ after) Hc)
             (IH (before +:+ String c "") Hm)).
Qed.

Lemma rmatch_plus_class_inv f before m after g :
  rmatch (Plus (Class f)) before m after g →
  g = None ∧ m ≠ "" ∧ string_forall f m = true.
Proof.
  inversion 1 as [| | | | | | | | |r' b m1 m2 a g1 g2 H1 H2|]; subst.
  apply rmatch_class_inv in H1 as (c & -> & Hc & ->).
  apply rmatch_star_class_inv in H2 as [-> Hm2]. split; [done|].
  change (String c "" +:+ m2) with (String c m2). split; [done|].
  cbn. by rewrite Hc, Hm2.
Qed.

Lemma rmatch_plus_class f before m after :
  m ≠ "" → string_forall f m = true → rmatch (Plus (Class f)) before m after None.
Proof.
  destruct m as [|c m]; [done|]. intros _ Hm.
  cbn in Hm. apply andb_prop in Hm as [Hc Hm].
  exact (rmatch_plus (Class f) before (String c "") m after None None
           (rmatch_class f c before (m +:+ after) Hc)
           (rmatch_star_class f (before +:+ String c "") m after Hm)).
Qed.

Lemma match_cwe_prefix_Some child ds rest :
  match_cwe_prefix child = Some (ds, rest) ↔
  ds ≠ "" ∧ all_digits ds = true ∧ child = "CWE" +:+ ds +:+ "_" +:+ rest.
Proof.
  unfold match_cwe_prefix. split.
  - destruct (strip_prefix "CWE" child) as [s|] eqn:Hp; [|done].
    apply strip_prefix_Some in Hp as ->.
    destruct (span_digits s) as [ds' rest'] eqn:Hs.
    apply span_digits_spec in Hs as (-> & Hd & _).
    destruct ds' as [|d ds']; [done|]. destruct rest' as [|c rest']; [done|].
    destruct (Stdlib.Strings.Ascii.eqb_spec c "_"%char) as [->|Hne]; [|done].
    by intros [= <- <-].
  - intros (Hne & Hd & ->).
    assert (strip_prefix "CWE" ("CWE" +:+ ds +:+ "_" +:+ rest)
            = Some (ds +:+ "_" +:+ rest)) as -> by (by apply strip_prefix_Some).
    rewrite (span_digits_app ds ("_" +:+ rest)); [|done|done].
    by destruct ds.
Qed.

Lemma match_dot_c_spec s :
  match_dot_c s = true ↔
  ∃ x ext t, s = x +:+ "." +:+ ext +:+ t ∧ string_forall not_newline x = true ∧
             (ext = "c" ∨ ext = "cpp") ∧ at_dollar t = true.
Proof.
  split.
  - induction s as [|c s IH]; [done|]. cbn [match_dot_c].
    intros [Hdot | Hgo]%orb_prop.
    + apply andb_prop in Hdot as [Hc Hext].
      apply Stdlib.Strings.Ascii.eqb_eq in Hc as ->.
      apply orb_prop in Hext as [Hext | Hext].
      * destruct (strip_prefix "cpp" s) as [r|] eqn:Hp; [|done].
        apply strip_prefix_Some in Hp as ->. exists "", "cpp", r. eauto.
      * destruct (strip_prefix "c" s) as [r|] eqn:Hp; [|done].
        apply strip_prefix_Some in Hp as ->. exists "", "c", r. eauto.
    + apply andb_prop in Hgo as [Hc Hgo].
      destruct (IH Hgo) as (x & ext & t & -> & Hx & Hext & Ht).
      exists (String c x), ext, t. split; [done|]. split; [|done].
      cbn. by rewrite Hc, Hx.
  - intros (x & ext & t & -> & Hx & Hext & Ht).
    induction x as [|c x IH].
    + change ("" +:+ "." +:+ ext +:+ t) with (String "." (ext +:+ t)).
      cbn [match_dot_c]. apply orb_true_intro. left. cbn [andb Stdlib.Strings.Ascii.eqb Bool.eqb].
      destruct Hext as [-> | ->].
      * destruct (strip_prefix "cpp" ("c" +:+ t)) as [r|] eqn:Hp.
        -- apply strip_prefix_Some in Hp.
           change ("c" +:+ t) with (String "c" t) in Hp.
           change ("cpp" +:+ r) with (String "c" (String "p" (String "p" r))) in Hp.
           injection Hp as ->. done.
        -- change (strip_prefix "c" ("c" +:+ t)) with (Some t). cbv beta iota.
           by rewrite Ht.
      * change (strip_prefix "cpp" ("cpp" +:+ t)) with (Some t). cbv beta iota.
        by rewrite Ht.
    + cbn in Hx. apply andb_prop in Hx as [Hc Hx].
      rewrite append_cons. cbn [match_dot_c]. rewrite Hc, (IH Hx).
      apply orb_true_r.
Qed.

(** [dirs_regexp_match] is [re.match] with [dirs_exp]. *)
Lemma dirs_regexp_match_correct child g :
  re_match dirs_re child g ↔ dirs_regexp_match child = Some g.
Proof.
  split.
  - intros (m & after & -> & Hm). unfold dirs_re in Hm.
    apply rmatch_alt_inv in Hm as [Hm | Hm].
    + apply rmatch_cat_inv in Hm as (m0 & m1 & g0 & g1 & -> & -> & H0 & Hm).
      apply rmatch_bol_inv in H0 as (_ & -> & ->).
      apply rmatch_cat_inv in Hm as (m2 & m3 & g2 & g3 & -> & -> & H2 & Hm).
      apply rmatch_lit_inv in H2 as (-> & ->).
      apply rmatch_cat_inv in Hm as (ds & m4 & g4 & g5 & -> & -> & H4 & Hm).
      apply rmatch_group_inv in H4 as (-> & g' & H4).
      apply rmatch_plus_class_inv in H4 as (_ & Hne & Hd).
      apply rmatch_cat_inv in Hm as (m5 & x & g6 & g7 & -> & -> & H5 & Hm).
      apply rmatch_lit_inv in H5 as (-> & ->).
      apply rmatch_star_class_inv in Hm as (-> & _).
      cbn [later_group]. apply dirs_regexp_match_category.
      split; [done|]. split; [done|].
      exists (x +:+ after). change ("" +:+ ?s) with s. by rewrite !append_assoc.
    + apply rmatch_cat_inv in Hm as (m0 & m1 & g0 & g1 & -> & -> & H0 & Hm).
      apply rmatch_lit_inv in H0 as (-> & ->).
      apply rmatch_cat_inv in Hm as (ds & m2 & g2 & g3 & -> & -> & H2 & Hm).
      apply rmatch_plus_class_inv in H2 as (-> & Hne & Hd).
      apply rmatch_eol_inv in Hm as (-> & -> & Ha).
      cbn [later_group]. rewrite append_nil_r, append_assoc.
      apply dirs_regexp_match_s; [done|done|done].
  - intros Hm. apply dirs_regexp_match_cases in Hm
      as [(id & -> & Hne & Hd & suffix & ->)
         | (-> & [(ds & Hne & Hd & ->) | (c' & (ds & Hne & Hd & ->) & ->)])].
    + pose proof (rmatch_cat _ _ _ _ _ suffix _ _
                    (rmatch_lit "_" ("" +:+ "" +:+ "CWE" +:+ id) ("" +:+ suffix))
                    (rmatch_star_nil (Class not_newline)
                       (("" +:+ "" +:+ "CWE" +:+ id) +:+ "_") suffix)) as H1.
      pose proof (rmatch_cat _ _ _ _ _ suffix _ _
                    (rmatch_group _ _ _ _ _
                       (rmatch_plus_class is_digit ("" +:+ "" +:+ "CWE") id
                          (("_" +:+ "") +:+ suffix) Hne Hd))
                    H1) as H2.
      pose proof (rmatch_cat _ _ _ _ _ suffix _ _
                    (rmatch_lit "CWE" ("" +:+ "") ((id +:+ "_" +:+ "") +:+ suffix))
                    H2) as H3.
      pose proof (rmatch_cat _ _ _ _ _ suffix _ _
                    (rmatch_bol (("CWE" +:+ id +:+ "_" +:+ "") +:+ suffix))
                    H3) as H4.
      eexists _, suffix. split; [|apply rmatch_alt_l; exact H4].
      change ("" +:+ ?s) with s. by rewrite !append_assoc.
    + pose proof (rmatch_cat _ _ _ _ _ "" _ _
                    (rmatch_plus_class is_digit ("" +:+ "s") ds ("" +:+ "") Hne Hd)
                    (rmatch_eol (("" +:+ "s") +:+ ds) "" eq_refl)) as H1.
      pose proof (rmatch_cat _ _ _ _ _ "" _ _
                    (rmatch_lit "s" "" ((ds +:+ "") +:+ "")) H1) as H2.
      eexists _, "". split; [|apply rmatch_alt_r; exact H2].
      by rewrite !append_nil_r.
    + pose proof (rmatch_cat _ _ _ _ _ (String newline "") _ _
                    (rmatch_plus_class is_digit ("" +:+ "s") ds
                       ("" +:+ String newline "") Hne Hd)
                    (rmatch_eol (("" +:+ "s") +:+ ds) (String newline "") eq_refl)) as H1.
      pose proof (rmatch_cat _ _ _ _ _ (String newline "") _ _
                    (rmatch_lit "s" "" ((ds +:+ "") +:+ String newline "")) H1) as H2.
      eexists _, (String newline ""). split; [|apply rmatch_alt_r; exact H2].
      by rewrite !append_nil_r.
Qed.

(** [files_regexp_cpp] is [re.match] with the pattern for [cpp]. *)
Lemma files_regexp_cpp_correct child :
  (∃ g, re_match files_re_cpp child g) ↔ files_regexp_cpp child = true.
Proof.
  unfold files_regexp_cpp. split.
  - intros (g & m & after & -> & Hm). unfold files_re_cpp in Hm.
    apply rmatch_cat_inv in Hm as (m0 & m1 & g0 & g1 & -> & -> & H0 & Hm).
    apply rmatch_bol_inv in H0 as (_ & -> & ->).
    apply rmatch_cat_inv in Hm as (m2 & m3 & g2 & g3 & -> & -> & H2 & Hm).
    apply rmatch_lit_inv in H2 as (-> & ->).
    apply rmatch_cat_inv in Hm as (ds & m4 & g4 & g5 & -> & -> & H4 & Hm).
    apply rmatch_plus_class_inv in H4 as (-> & Hne & Hd).
    apply rmatch_cat_inv in Hm as (m5 & m6 & g6 & g7 & -> & -> & H5 & Hm).
    apply rmatch_lit_inv in H5 as (-> & ->).
    apply rmatch_cat_inv in Hm as (x & m7 & g8 & g9 & -> & -> & H7 & Hm).
    apply rmatch_star_class_inv in H7 as (-> & Hx).
    apply rmatch_cat_inv in Hm as (m8 & m9 & g10 & g11 & -> & -> & H8 & Hm).
    apply rmatch_lit_inv in H8 as (-> & ->).
    apply rmatch_cat_inv in Hm as (ext & m10 & g12 & g13 & -> & -> & H10 & Hm).
    apply rmatch_group_inv in H10 as (-> & g' & H10).
    apply rmatch_eol_inv in Hm as (-> & -> & Ha).
    assert (ext = "c" ∨ ext = "cpp") as Hext.
    { apply rmatch_alt_inv in H10 as [H10 | H10];
        apply rmatch_lit_inv in H10 as (-> & _); [by left | by right]. }
    assert (match_cwe_prefix
              (("" +:+ "CWE" +:+ ds +:+ "_" +:+ x +:+ "." +:+ ext +:+ "") +:+ after)
            = Some (ds, x +:+ "." +:+ ext +:+ after)) as ->.
    { apply match_cwe_prefix_Some. split; [done|].
      split; [done|].
      change ("" +:+ ?s) with s. by rewrite !append_assoc. }
    apply match_dot_c_spec. by exists x, ext, after.
  - destruct (match_cwe_prefix child) as [[ds rest]|] eqn:Hp; [|done].
    apply match_cwe_prefix_Some in Hp as (Hne & Hd & ->).
      intros (x & ext & t & -> & Hx & Hext & Ht)%match_dot_c_spec.
    eexists _, _, t. split; cycle 1.
    + unfold files_re_cpp.
      eapply rmatch_cat; [apply rmatch_bol|].
      eapply rmatch_cat; [apply rmatch_lit|].
      eapply rmatch_cat; [apply (rmatch_plus_class is_digit _ ds); [exact Hne|exact Hd]|].
      eapply rmatch_cat; [apply rmatch_lit|].
      eapply rmatch_cat; [apply (rmatch_star_class not_newline _ x); exact Hx|].
      eapply rmatch_cat; [apply rmatch_lit|].
      eapply rmatch_cat; [|apply rmatch_eol; exact Ht].
      eapply (rmatch_group _ _ ext).
      destruct Hext as [-> | ->];
        [apply rmatch_alt_l | apply rmatch_alt_r]; apply rmatch_lit.
    + change ("" +:+ ?s) with s. by rewrite !append_assoc.
Qed.

(** [files_regexp_java] is [re.match] with the pattern for [java]. *)
Lemma files_regexp_java_correct child :
  (∃ g, re_match files_re_java child g) ↔ files_regexp_java child = true.
Proof.
  unfold files_regexp_java. split.
  - intros (g & m & after & -> & Hm). unfold files_re_java in Hm.
    apply rmatch_cat_inv in Hm as (m0 & m1 & g0 & g1 & -> & -> & H0 & Hm).
    apply rmatch_lit_inv in H0 as (-> & ->).
    apply rmatch_eol_inv in Hm as (-> & -> & Ha).
    assert (strip_prefix "build.xml" (("build.xml" +:+ "") +:+ after) = Some after) as ->
      by (by apply strip_prefix_Some). done.
  - destruct (strip_prefix "build.xml" child) as [r|] eqn:Hp; [|done].
    apply strip_prefix_Some in Hp as ->. intros Hr.
    eexists _, _, r. split; cycle 1.
    + unfold files_re_java.
      eapply rmatch_cat; [apply rmatch_lit | apply rmatch_eol; exact Hr].
    + done.
Qed.

(** Group 1 of a match of [dirs_exp] does not depend on the way the
    match is found. *)
Lemma dirs_re_group_unique child g g' :
  re_match dirs_re child g → re_match dirs_re child g' → g = g'.
Proof.
  intros Hg%dirs_regexp_match_correct Hg'%dirs_regexp_match_correct. congruence.
Qed.

(** ** Runs on small inputs *)

Example dirs_regexp_examples :
  dirs_regexp_match "CWE120_Buffer_Overflow" = Some (Some "120") ∧
  dirs_regexp_match "CWE078_" = Some (Some "078") ∧
  dirs_regexp_match "s01" = Some None ∧
  dirs_regexp_match "CWE_Buffer" = None ∧
  dirs_regexp_match "CWE120" = None ∧
  dirs_regexp_match "xCWE120_a" = None ∧
  dirs_regexp_match "s" = None ∧
  dirs_regexp_match "xs01" = None ∧
  dirs_regexp_match "testcasesupport" = None.
Proof. repeat split. Qed.

Example files_regexp_examples :
  files_regexp_cpp "CWE120_bad.cpp" = true ∧
  files_regexp_cpp "CWE120_a.b.c" = true ∧
  files_regexp_cpp gcc_excluded = true ∧
  files_regexp_cpp "CWE120_bad.cpp.orig" = false ∧
  files_regexp_cpp "CWE120_bad.h" = false ∧
  files_regexp_cpp "io.c" = false ∧
  files_regexp_java "build.xml" = true ∧
  files_regexp_java "build.xml.bak" = false ∧
  files_regexp_java "CWE120_bad.java" = false.
Proof. repeat split. Qed.

Example python_helpers_examples :
  split_comma "120,190" = ["120"; "190"] ∧
  split_comma "120,,190," = ["120"; ""; "190"; ""] ∧
  str_Z (-5) = "-5" ∧ str_Z 0 = "0" ∧ str_nat 12 = "12" ∧
  round_div 5 2 = 2%Z ∧ round_div 7 2 = 4%Z ∧ round_div 1 2 = 0%Z ∧
  round_div 10 4 = 2%Z ∧ round_div 11 4 = 3%Z ∧ round_div 9 4 = 2%Z.
Proof. repeat split. Qed.

(** The scenario of a tree with two CWE120 sources under [s01] and
    [s02], one CWE190 source and a directory [CACHE_temp], with
    [--cwes 120]. *)
Example scan_cwe120 :
  find_all_testcases sample_args sample_tree =
    ([ EvPrint "  dirs_exp = ^CWE([0-9]+)_.*|s[0-9]+$";
       EvPrint "  files_exp = ^CWE[0-9]+_.*\.(c|cpp)$";
       EvPrint "  include = [120]";
       EvPrint "  exclude = []";
       EvListdir "/t";
       EvListdir "/t/CWE120_Buffer_Overflow";
       EvListdir "/t/CWE120_Buffer_Overflow/s01";
       EvListdir "/t/CWE120_Buffer_Overflow/s02";
       EvPrint "    found CWE 120 with 2 test sources" ],
     inr [ "/t/CWE120_Buffer_Overflow/s01/CWE120_bad.cpp";
           "/t/CWE120_Buffer_Overflow/s02/CWE120_good.cpp" ]).
Proof. vm_compute. reflexivity. Qed.

(** Five test cases and two threads: batches of two. *)
Example five_testcases_batches :
  (λ r, (r.1, dispatched (trace r.2)))
    (build_testcases (quiet_env 6) gcc_args five_testcases state_init)
  = (Returned tt, [["a.c"; "b.c"]; ["c.c"; "d.c"]; ["e.c"]]).
Proof. vm_compute. reflexivity. Qed.

(** * Properties of the thread pool *)

Lemma count_if_app {A} (f : A → bool) (l1 l2 : list A) :
  count_if f (l1 ++ l2) = count_if f l1 + count_if f l2.
Proof. induction l1 as [|x l1 IH]; cbn; [done | rewrite IH; lia]. Qed.

Lemma count_if_insert {A} (f : A → bool) (l : list A) (i : nat) (x y : A) :
  l !! i = Some x →
  count_if f (<[i := y]> l) + (if f x then 1 else 0)
  = count_if f l + (if f y then 1 else 0).
Proof.
  revert i; induction l as [|z l IH]; intros [|i] Hi; try done.
  - injection Hi as ->. change (<[0:=y]> (x :: l)) with (y :: l).
    cbn [count_if]. destruct (f x), (f y); lia.
  - change (<[S i:=y]> (z :: l)) with (z :: <[i:=y]> l).
    change (l !! i = Some x) in Hi.
    cbn [count_if]. specialize (IH i Hi). destruct (f x), (f y), (f z); lia.
Qed.

Lemma count_if_le {A} (f g : A → bool) (l : list A) :
  (∀ x, f x = true → g x = true) → count_if f l ≤ count_if g l.
Proof.
  intros Hfg. induction l as [|x l IH]; cbn; [done|].
  destruct (f x) eqn:Hf; [rewrite (Hfg x Hf)|destruct (g x)]; lia.
Qed.

Lemma count_if_ext_in {A} (f g : A → bool) (l : list A) :
  (∀ x, x ∈ l → f x = g x) → count_if f l = count_if g l.
Proof.
  induction l as [|x l IH]; intros Hfg; cbn; [done|].
  rewrite (Hfg x), IH; [done| |apply list_elem_of_here].
  intros y Hy. apply Hfg. by apply list_elem_of_further.
Qed.

Lemma count_if_zero {A} (f : A → bool) (l : list A) :
  count_if f l = 0 → ∀ x, x ∈ l → f x = false.
Proof.
  induction l as [|y l IH]; cbn; intros Hc x Hx; [by apply elem_of_nil in Hx|].
  apply elem_of_cons in Hx as [-> | Hx].
  - destruct (f y); [lia | done].
  - apply IH; [|done]. destruct (f y); lia.
Qed.

Section PoolFacts.
Context `{Platform}.
Context {job : Type}.
Implicit Types self : Jobs job.

(** What a step changes. *)
Lemma start_job_Some self j self' :
  start_job self j = Some self' →
  slots self = S (slots self') ∧
  outstanding_jobs self' = outstanding_jobs self ++ [{| th_job := j; th_pc := Doing |}] ∧
  errors self' = errors self.
Proof.
  unfold start_job. destruct (slots self) as [|n] eqn:Hs; [done|].
  intros [= <-]. done.
Qed.

(** The slots that are free and the threads that hold one add up to
    the capacity. *)
Lemma step_slots self self' :
  step self self' → slots self' + holding self' = slots self + holding self.
Proof.
  intros [self0 j self0' Hs | self0 i result self0' Hd].
  - apply start_job_Some in Hs as (Hs & Ho & _). unfold holding.
    rewrite Ho, count_if_app, Hs. cbn. lia.
  - unfold do_job in Hd.
    destruct (outstanding_jobs self0 !! i) as [t|] eqn:Hi; [|done].
    pose proof (λ y, count_if_insert (λ t, negb (is_dead t))
                       (outstanding_jobs self0) i t y Hi) as Hc.
    unfold holding, is_dead in *.
    destruct (th_pc t) as [|e|r|r] eqn:Hpc; [| | |done];
      injection Hd as <-; cbn [slots outstanding_jobs].
    + specialize (Hc (set_pc t (match result with
                                | None => Finishing None | Some e => Excepting e end))).
      destruct result; cbn in Hc; lia.
    + specialize (Hc (set_pc t (Finishing (Some e)))). cbn in Hc. lia.
    + specialize (Hc (set_pc t (Dead r))). cbn in Hc. lia.
Qed.

Lemma reachable_slots threads self :
  reachable threads self → slots self + holding self = threads.
Proof.
  unfold reachable. revert self. apply rtc_ind_r; [done|].
  intros self1 self2 _ Hs IH. by rewrite (step_slots _ _ Hs).
Qed.

Lemma executing_le_holding self : executing self ≤ holding self.
Proof.
  apply count_if_le. intros t. unfold is_doing, is_dead.
  by destruct (th_pc t).
Qed.

(** Every exception appended to [errors] belongs to one thread. *)
Lemma step_errors self self' :
  step self self' →
  length (errors self') + recorded self = length (errors self) + recorded self'.
Proof.
  intros [self0 j self0' Hs | self0 i result self0' Hd].
  - apply start_job_Some in Hs as (_ & Ho & He). unfold recorded.
    rewrite Ho, He, count_if_app. cbn. lia.
  - unfold do_job in Hd.
    destruct (outstanding_jobs self0 !! i) as [t|] eqn:Hi; [|done].
    pose proof (λ y, count_if_insert has_recorded (outstanding_jobs self0) i t y Hi) as Hc.
    unfold recorded, has_recorded in *.
    destruct (th_pc t) as [|e|r|r] eqn:Hpc; [| | |done];
      injection Hd as <-; cbn [errors outstanding_jobs].
    + specialize (Hc (set_pc t (match result with
                                | None => Finishing None | Some e => Excepting e end))).
      destruct result; cbn in Hc; lia.
    + specialize (Hc (set_pc t (Finishing (Some e)))). cbn in Hc.
      rewrite length_app. cbn. lia.
    + specialize (Hc (set_pc t (Dead r))). cbn in Hc. destruct r; lia.
Qed.

Lemma reachable_errors threads self :
  reachable threads self → length (errors self) = recorded self.
Proof.
  unfold reachable. revert self. apply rtc_ind_r; [done|].
  intros self1 self2 _ Hs IH. pose proof (step_errors _ _ Hs). lia.
Qed.

Lemma all_done_recorded self :
  all_done self → recorded self = failures self.
Proof.
  intros Hd. apply count_if_ext_in. intros t Ht. specialize (Hd t Ht).
  unfold is_dead, has_recorded, has_failed in *. by destruct (th_pc t).
Qed.

Lemma all_done_forallb self :
  all_done self ↔ forallb is_dead (outstanding_jobs self) = true.
Proof.
  unfold all_done. rewrite forallb_forall. split; intros Hd t Ht; apply Hd.
  - by apply list_elem_of_In.
  - by apply list_elem_of_In.
Qed.

(** [errors] only grows. *)
Lemma step_has_errors self self' :
  step self self' → has_errors self = true → has_errors self' = true.
Proof.
  unfold has_errors.
  intros [self0 j self0' Hs | self0 i result self0' Hd].
  - apply start_job_Some in Hs as (_ & _ & ->). done.
  - unfold do_job in Hd.
    destruct (outstanding_jobs self0 !! i) as [t|]; [|done].
    destruct (th_pc t); [| | |done]; injection Hd as <-; cbn [errors]; try done.
    by destruct (errors self0).
Qed.

Lemma rtc_step_has_errors self self' :
  rtc step self self' → has_errors self = true → has_errors self' = true.
Proof. induction 1; [done|]. eauto using step_has_errors. Qed.

Lemma recorded_has_errors threads self t :
  reachable threads self → t ∈ outstanding_jobs self → has_recorded t = true →
  has_errors self = true.
Proof.
  intros Hr Ht Hrec. apply reachable_errors in Hr.
  unfold has_errors. destruct (errors self) as [|e l]; [|done].
  cbn in Hr. symmetry in Hr. by rewrite (count_if_zero _ _ Hr t Ht) in Hrec.
Qed.

(** Every thread can run to its end. *)
Lemma total_left_insert (l : list (thread job)) i t t' :
  l !! i = Some t →
  total_left (<[i := t']> l) + steps_left t = total_left l + steps_left t'.
Proof.
  revert i; induction l as [|z l IH]; intros [|i] Hi; try done.
  - injection Hi as ->. change (<[0:=t']> (t :: l)) with (t' :: l).
    cbn [total_left]. lia.
  - change (<[S i:=t']> (z :: l)) with (z :: <[i:=t']> l).
    change (l !! i = Some t) in Hi. cbn [total_left]. specialize (IH i Hi). lia.
Qed.

Lemma total_left_zero (l : list (thread job)) :
  total_left l = 0 → ∀ t, t ∈ l → is_dead t = true.
Proof.
  induction l as [|z l IH]; cbn [total_left]; intros Hz t Ht;
    [by apply elem_of_nil in Ht|].
  apply elem_of_cons in Ht as [-> | Ht].
  - unfold steps_left, is_dead in *. destruct (th_pc z); [lia..|done].
  - apply IH; [lia | done].
Qed.

Lemma total_left_pos (l : list (thread job)) :
  0 < total_left l → ∃ i t, l !! i = Some t ∧ 0 < steps_left t.
Proof.
  induction l as [|z l IH]; cbn [total_left]; [lia|]. intros Hpos.
  destruct (steps_left z) as [|k] eqn:Hz.
  - destruct IH as (i & t & Hi & Ht); [lia|]. by exists (S i), t.
  - exists 0, z. split; [done | lia].
Qed.

Lemma threads_finish self :
  ∃ self', rtc thread_step self self' ∧ all_done self'.
Proof.
  remember (total_left (outstanding_jobs self)) as k eqn:Hk.
  revert self Hk; induction k as [|k IH]; intros self Hk.
  - exists self. split; [done|]. unfold all_done. by apply total_left_zero.
  - destruct (total_left_pos (outstanding_jobs self)) as (i & t & Hi & Ht); [lia|].
    assert (∃ self1, do_job self i None = Some self1 ∧
                     total_left (outstanding_jobs self1) = k) as (self1 & Hd & Hk1).
    { unfold do_job. rewrite Hi.
      pose proof (λ t', total_left_insert (outstanding_jobs self) i t t' Hi) as Hins.
      unfold steps_left in *.
      destruct (th_pc t) as [|e|r|r]; [| | |lia]; eexists; (split; [reflexivity|]);
        cbn [outstanding_jobs].
      - specialize (Hins (set_pc t (Finishing None))). cbn in Hins. lia.
      - specialize (Hins (set_pc t (Finishing (Some e)))). cbn in Hins. lia.
      - specialize (Hins (set_pc t (Dead r))). cbn in Hins. lia. }
    destruct (IH self1 (eq_sym Hk1)) as (self' & Hsteps & Hdone).
    exists self'. split; [|done].
    apply (rtc_l _ _ self1); [|done]. by exists i, None.
Qed.

(** What [wait_jobs] gives once it is back. *)
Lemma wait_jobs_done_cases self evs r :
  wait_jobs self = Some (evs, r) →
  match r with
  | None => evs = [] ∧ length (errors self) = 0
  | Some e =>
      0 < length (errors self) ∧
      e = Exception "Exception in thread(s)." ∧
      evs = [EvPrint ("*** exceptions occurred in " +:+ str_nat (length (errors self))
                      +:+ " threads:");
             EvPrint (str_of_exns (errors self));
             EvPrint ""]
  end.
Proof.
  unfold wait_jobs. destruct (forallb is_dead (outstanding_jobs self)); [|done].
  destruct (Nat.ltb_spec 0 (length (errors self))) as [Hpos|Hz]; intros [= <- <-].
  - done.
  - split; [done | lia].
Qed.

End PoolFacts.

(** * Properties of the build *)

Section BuildFacts.
Context `{Platform}.
Variable E : env.

Lemma main_build_eq a paths s :
  main_build E a paths s =
    let r := build_source_files a paths (build_rtn E (builds s)) in
    (match r.2 with
     | None => Returned tt
     | Some e => Raised e
     end,
     next_build (log s (EvBuild paths :: r.1))).
Proof.
  unfold main_build. by destruct (build_source_files a paths (build_rtn E (builds s))).
Qed.

(** The loop that builds the support files, unrolled: one attempt, and
    a second one without [-pipe] when the first fails with [-pipe].  Two
    iterations are enough, and more change nothing. *)
Lemma build_support_files_eq k a files s :
  let first := build_source_files a files (build_rtn E (builds s)) in
  let second := build_source_files (set_use_pipe a false) files
                  (build_rtn E (S (builds s))) in
  let s2 := next_build (log s (EvBuild files :: first.1)) in
  let s3 := next_build (log (log (log s2 [EvPrint "trying without `-pipe`..."])
                                 [EvPrint ""])
                            (EvBuild files :: second.1)) in
  build_support_files E (S (S k)) a files s =
    match first.2 with
    | None => (Returned a, s2)
    | Some e1 =>
        if use_pipe a then
          match second.2 with
          | None => (Returned (set_use_pipe a false), s3)
          | Some e2 => (Raised e2, s3)
          end
        else (Raised e1, s2)
    end.
Proof.
  cbn zeta. cbn [build_support_files]. unfold try_except at 1, bind at 1.
  rewrite main_build_eq. cbn zeta.
  destruct (build_source_files a files (build_rtn E (builds s))) as [evs1 [e1|]];
    cbn [fst snd]; [|done].
  destruct (use_pipe a); [|done].
  unfold bind at 1, print at 1, emit at 1. unfold bind at 1, print at 1, emit at 1.
  unfold try_except at 1, bind at 1. rewrite main_build_eq. cbn zeta.
  cbn [builds next_build log].
  destruct (build_source_files (set_use_pipe a false) files (build_rtn E (S (builds s))))
    as [evs2 [e2|]]; cbn [fst snd]; done.
Qed.

(** With a non-positive number of threads the build of the test cases
    only prints its headline and raises. *)
Lemma build_testcases_nonpositive a testcases s :
  (threads a < 1)%Z →
  build_testcases E a testcases s =
    match cpu_count E with
    | Some cpus =>
        (Raised (Exception "'threads' argument is non-positive."),
         log (log s [EvPrint (building_line a cpus)]) [EvPrint ""])
    | None => (Raised (UnboundLocalError "cpu_count"), s)
    end.
Proof.
  intros Ht. unfold build_testcases. destruct (cpu_count E) as [cpus|]; [|done].
  assert ((1 <=? threads a)%Z = false) as -> by lia. done.
Qed.

End BuildFacts.

(** ** The batches *)

Lemma dispatched_app tr1 tr2 :
  dispatched (tr1 ++ tr2) = dispatched tr1 ++ dispatched tr2.
Proof.
  induction tr1 as [|ev tr1 IH]; [done|].
  destruct ev; cbn [app dispatched]; by rewrite ?IH.
Qed.

Lemma dispatched_none tr :
  Forall (λ ev, is_dispatch ev = false) tr → dispatched tr = [].
Proof.
  induction 1 as [|ev tr Hev _ IH]; [done|]. by destruct ev.
Qed.

Lemma build_source_files_events `{Platform} a paths rtns :
  Forall (λ ev, is_dispatch ev = false) (build_source_files a paths rtns).1.
Proof.
  unfold build_source_files, build_command.
  destruct (cases_macro_of (cases a)) as [e|cases_macro]; [by constructor|].
  repeat match goal with
         | |- context [if ?c then _ else _] => destruct c
         end; cbn [fst snd];
    rewrite ?Forall_app; repeat split; repeat constructor.
Qed.

Lemma length_concat_uniform {A} (m : nat) (l : list (list A)) :
  Forall (λ b, length b = m) l → length (concat l) = m * length l.
Proof.
  induction 1 as [|b l Hb _ IH]; cbn; [lia|]. rewrite length_app, Hb, IH. lia.
Qed.

Lemma ceil_div_batches (m k r : Z) :
  (0 <= k)%Z → (0 <= r < m)%Z →
  ceil_div (m * k + r) m = (k + if (1 <=? r)%Z then 1 else 0)%Z.
Proof.
  intros Hk Hr. unfold ceil_div. destruct (Z.leb_spec 1 r).
  - symmetry. apply (Z.div_unique _ _ _ (r - 1)); lia.
  - symmetry. apply (Z.div_unique _ _ _ (m - 1)); lia.
Qed.

Section BatchFacts.
Context `{Platform}.
Variable E : env.
Implicit Types jobs : Jobs build_source_files_job.

Lemma run_threads_events steps jobs :
  Forall (λ ev, is_dispatch ev = false) (run_threads steps jobs).1.
Proof.
  revert jobs; induction steps as [|[i rtns] steps IH]; intros jobs;
    cbn [run_threads]; [by constructor|].
  destruct (outstanding_jobs jobs !! i) as [t|]; [|done].
  pose proof (build_source_files_events (job_args (th_job t)) (source_paths (th_job t)) rtns)
    as Hb.
  unfold job_do. destruct (build_source_files _ _ rtns) as [evs r]. cbn [fst] in Hb.
  destruct (do_job jobs i r) as [jobs'|]; [|done].
  specialize (IH jobs'). destruct (run_threads steps jobs') as [evs' jobs''].
  cbn [fst] in *. constructor; [done|]. apply Forall_app. split; [|done].
  destruct (is_doing t); [done | constructor].
Qed.

Lemma run_threads_has_errors steps jobs :
  has_errors jobs = true → has_errors (run_threads steps jobs).2 = true.
Proof.
  revert jobs; induction steps as [|[i rtns] steps IH]; intros jobs He;
    cbn [run_threads]; [done|].
  destruct (outstanding_jobs jobs !! i) as [t|]; [|by apply IH].
  destruct (job_do (th_job t) rtns) as [evs r].
  destruct (do_job jobs i r) as [jobs'|] eqn:Hd; [|by apply IH].
  specialize (IH jobs'). destruct (run_threads steps jobs') as [evs' jobs''].
  cbn [snd] in *. apply IH.
  apply (step_has_errors jobs jobs'); [|done]. by apply (step_thread _ i r).
Qed.

Lemma start_job_has_errors jobs j jobs' :
  start_job jobs j = Some jobs' → has_errors jobs = true → has_errors jobs' = true.
Proof.
  intros Hs. apply (step_has_errors jobs jobs'). by apply (step_start _ j).
Qed.

Lemma wait_jobs_has_errors jobs :
  has_errors jobs = true →
  wait_jobs jobs = None ∨ ∃ evs e, wait_jobs jobs = Some (evs, Some e).
Proof.
  unfold has_errors, wait_jobs. destruct (errors jobs) as [|e l]; [done|]. intros _.
  destruct (forallb is_dead (outstanding_jobs jobs)); [right|by left].
  cbn [length Nat.ltb Nat.leb]. eauto.
Qed.

Lemma wait_jobs_no_errors jobs evs :
  wait_jobs jobs = Some (evs, None) → evs = [] ∧ has_errors jobs = false.
Proof.
  unfold has_errors, wait_jobs.
  destruct (forallb is_dead (outstanding_jobs jobs)); [|done].
  destruct (errors jobs) as [|e l]; cbn [length Nat.ltb Nat.leb]; [|done].
  by intros [= <-].
Qed.

Lemma bind_returned {A B} (m : M A) (k : A → M B) s b s' :
  bind m k s = (Returned b, s') →
  ∃ a s1, m s = (Returned a, s1) ∧ k a s1 = (Returned b, s').
Proof.
  unfold bind. destruct (m s) as [[a|e| |] s1]; [|done..]. intros Hk. by exists a, s1.
Qed.

Lemma main_build_returned a paths s u s1 :
  main_build E a paths s = (Returned u, s1) →
  (build_source_files a paths (build_rtn E (builds s))).2 = None ∧
  s1 = next_build (log s (EvBuild paths
                            :: (build_source_files a paths (build_rtn E (builds s))).1)).
Proof.
  rewrite main_build_eq. cbn zeta.
  destruct (build_source_files a paths (build_rtn E (builds s))).2; [done|].
  by intros [= _ <-].
Qed.

Lemma pool_start_job_returned jobs j s jobs2 s1 :
  pool_start_job E jobs j s = (Returned jobs2, s1) →
  start_job (run_threads (sched E (ops s)) jobs).2 j = Some jobs2 ∧
  s1 = next_op (log s ((run_threads (sched E (ops s)) jobs).1
                         ++ [EvStartJob (source_paths j)])).
Proof.
  unfold pool_start_job. destruct (run_threads (sched E (ops s)) jobs) as [evs jobs1].
  cbn [fst snd]. destruct (start_job jobs1 j) as [jobs2'|]; [|done].
  by intros [= <- <-].
Qed.

Lemma pool_has_errors_eq jobs s :
  pool_has_errors E jobs s =
    let r := run_threads (sched E (ops s)) jobs in
    (Returned (has_errors r.2, r.2), next_op (log s (r.1 ++ [EvHasErrors (has_errors r.2)]))).
Proof.
  unfold pool_has_errors. by destruct (run_threads (sched E (ops s)) jobs).
Qed.

Lemma pool_wait_jobs_returned jobs s jobs1 s1 :
  pool_wait_jobs E jobs s = (Returned jobs1, s1) →
  has_errors (run_threads (sched E (ops s)) jobs).2 = false ∧
  s1 = next_op (log s (run_threads (sched E (ops s)) jobs).1).
Proof.
  unfold pool_wait_jobs. destruct (run_threads (sched E (ops s)) jobs) as [evs jobs'].
  cbn [fst snd]. destruct (wait_jobs jobs') as [[evs' [e|]]|] eqn:Hw; [done| |done].
  apply wait_jobs_no_errors in Hw as [-> He]. intros [= <- <-].
  by rewrite app_nil_r.
Qed.

(** What the loop has dispatched when it is left: full batches that,
    with the batch under way, make up the test cases read so far --
    unless the pool has an error. *)
Lemma submit_loop_returned a chunk_max testcases :
  ∀ chunk chunk_size jobs s chunk' size' jobs' s',
    chunk_size = Z.of_nat (length chunk) →
    length chunk < chunk_bound chunk_max →
    submit_loop E a chunk_max testcases chunk chunk_size jobs s
      = (Returned (chunk', size', jobs'), s') →
    has_errors jobs' = true ∨
    ∃ tr, trace s' = trace s ++ tr ∧
          Forall (λ b, length b = chunk_bound chunk_max) (dispatched tr) ∧
          concat (dispatched tr) ++ chunk' = chunk ++ testcases ∧
          size' = Z.of_nat (length chunk') ∧
          length chunk' < chunk_bound chunk_max.
Proof.
  unfold chunk_bound.
  induction testcases as [|testcase testcases IH];
    intros chunk chunk_size jobs s chunk' size' jobs' s' Hsize Hlen Hrun.
  - injection Hrun as <- <- <- <-. right. exists []. rewrite !app_nil_r.
    repeat split; [constructor | done | done].
  - cbn [submit_loop] in Hrun.
    assert (length (chunk ++ [testcase]) = S (length chunk)) as Hlen1
      by (rewrite length_app; cbn; lia).
    destruct (Z.leb_spec chunk_max (chunk_size + 1)) as [Hfull|Hpart].
    + assert (length (chunk ++ [testcase]) = Z.to_nat (Z.max 1 chunk_max)) as Hb by lia.
      destruct (threads a =? 1)%Z.
      * apply bind_returned in Hrun as (u & s1 & Hbuild & Hrun).
        apply main_build_returned in Hbuild as [_ ->].
        apply IH in Hrun; [|done|cbn; lia].
        destruct Hrun as [He | (tr & Htr & Hall & Hcat & Hsz & Hlt)]; [by left|].
        right. eexists. split; [|split; [|split; [|done]]].
        -- rewrite Htr. cbn [trace next_build log]. by rewrite <- app_assoc.
        -- rewrite dispatched_app. cbn [dispatched app].
           rewrite (dispatched_none _ (build_source_files_events _ _ _)).
           cbn [app]. by constructor.
        -- rewrite dispatched_app. cbn [dispatched app].
           rewrite (dispatched_none _ (build_source_files_events _ _ _)).
           cbn [app concat]. rewrite <- app_assoc, Hcat. cbn [app].
           by rewrite <- app_assoc.
      * apply bind_returned in Hrun as (jobs2 & s1 & Hstart & Hrun).
        apply pool_start_job_returned in Hstart as [_ ->].
        apply bind_returned in Hrun as (r & s2 & Hhas & Hrun).
        rewrite pool_has_errors_eq in Hhas. cbn zeta in Hhas.
        injection Hhas as <- <-. cbn [fst snd] in Hrun.
        destruct (has_errors (run_threads _ jobs2).2) eqn:He.
        { injection Hrun as <- <- <- <-. by left. }
        apply IH in Hrun; [|done|cbn; lia].
        destruct Hrun as [He' | (tr & Htr & Hall & Hcat & Hsz & Hlt)]; [by left|].
        right. eexists. split; [|split; [|split; [|done]]].
        -- rewrite Htr. cbn [trace next_op log]. by rewrite <- !app_assoc.
        -- rewrite !dispatched_app. cbn [dispatched app].
           rewrite !(dispatched_none _ (run_threads_events _ _)).
           cbn [app]. by constructor.
        -- rewrite !dispatched_app. cbn [dispatched app].
           rewrite !(dispatched_none _ (run_threads_events _ _)).
           cbn [app concat]. rewrite <- app_assoc, Hcat. cbn [app].
           by rewrite <- app_assoc.
    + apply IH in Hrun; [|lia|lia].
      destruct Hrun as [He | (tr & Htr & Hall & Hcat & Hsz & Hlt)]; [by left|].
      right. exists tr. rewrite Hcat, <- app_assoc. done.
Qed.

Lemma print_eq line s : print line s = (Returned tt, log s [EvPrint line]).
Proof. done. Qed.

(** A run of the build of the test cases that returns has dispatched
    the test cases in batches of [chunk_bound] of them, in order, the last
    one maybe smaller. *)
Lemma build_testcases_batches a testcases s u s' :
  build_testcases E a testcases s = (Returned u, s') →
  ∃ tr, trace s' = trace s ++ tr ∧
        Z.of_nat (length (dispatched tr))
          = ceil_div (Z.of_nat (length testcases))
              (Z.max 1 (chunk_max_of a testcases)) ∧
        concat (dispatched tr) = testcases.
Proof.
  unfold build_testcases. destruct (cpu_count E) as [cpus|]; [|done].
  intros Hrun.
  apply bind_returned in Hrun as (? & s1 & Hp1 & Hrun). rewrite print_eq in Hp1.
  injection Hp1 as _ <-.
  apply bind_returned in Hrun as (? & s2 & Hp2 & Hrun). rewrite print_eq in Hp2.
  injection Hp2 as _ <-.
  destruct (1 <=? threads a)%Z; [|done].
  set (chunk_max := chunk_max_of a testcases) in *.
  apply bind_returned in Hrun as ([[chunk' size'] jobs'] & s3 & Hloop & Hrun).
  apply bind_returned in Hrun as (jobs4 & s4 & Hrem & Hrun).
  apply bind_returned in Hrun as (jobs5 & s5 & Hwait & Hret).
  injection Hret as _ <-.
  apply pool_wait_jobs_returned in Hwait as [Hok ->].
  apply submit_loop_returned in Hloop; [|done|unfold chunk_bound; cbn; lia].
  (* the remainder *)
  assert (∃ rem,
            trace s4 = trace s3 ++ rem ∧
            dispatched rem = (if (1 <=? size')%Z then [chunk'] else []) ∧
            (has_errors jobs' = true → has_errors jobs4 = true))
    as (rem & Hrem_tr & Hrem_d & Hrem_e).
  { unfold run_remainder in Hrem. destruct (1 <=? size')%Z.
    - destruct (threads a =? 1)%Z.
      + apply bind_returned in Hrem as (? & s3' & Hbuild & Hret).
        apply main_build_returned in Hbuild as [_ ->]. injection Hret as <- <-.
        eexists. split; [reflexivity|]. split; [|done].
        cbn [dispatched]. by rewrite (dispatched_none _ (build_source_files_events _ _ _)).
      + apply pool_start_job_returned in Hrem as [Hs ->].
        eexists. split; [reflexivity|]. split.
        * rewrite dispatched_app, (dispatched_none _ (run_threads_events _ _)). done.
        * intros He. apply (start_job_has_errors _ _ _ Hs).
          by apply run_threads_has_errors.
    - injection Hrem as <- <-. exists []. by rewrite app_nil_r. }
  destruct Hloop as [He | (tr & Htr & Hall & Hcat & Hsz & Hlt)].
  { apply Hrem_e, (run_threads_has_errors (sched E (ops s4))) in He. congruence. }
  exists ([EvPrint (building_line a cpus)] ++ [EvPrint ""] ++ tr ++ rem
          ++ (run_threads (sched E (ops s4)) jobs4).1).
  split; [|split].
  - cbn [trace next_op log]. rewrite Hrem_tr, Htr. cbn [trace log].
    by rewrite <- !app_assoc.
  - cbn [app dispatched]. rewrite !dispatched_app, Hrem_d.
    rewrite (dispatched_none _ (run_threads_events _ _)), app_nil_r, length_app.
    cbn [app] in Hcat.
    pose proof (length_concat_uniform _ _ Hall) as Hk.
    assert (length testcases
            = chunk_bound chunk_max * length (dispatched tr) + length chunk') as HN
      by (rewrite <- Hcat, length_app; lia).
    rewrite HN. unfold chunk_bound in *.
    replace (Z.of_nat (Z.to_nat (Z.max 1 chunk_max) * length (dispatched tr)
                       + length chunk'))
      with (Z.max 1 chunk_max * Z.of_nat (length (dispatched tr))
            + Z.of_nat (length chunk'))%Z by lia.
    rewrite ceil_div_batches by lia. rewrite <- Hsz.
    destruct (1 <=? size')%Z; cbn [length]; lia.
  - cbn [app dispatched]. rewrite !dispatched_app, Hrem_d.
    rewrite (dispatched_none _ (run_threads_events _ _)), app_nil_r, concat_app.
    cbn [app] in Hcat. rewrite <- Hcat.
    destruct (Z.leb_spec 1 size').
    + cbn [concat]. by rewrite app_nil_r.
    + assert (chunk' = []) as -> by (destruct chunk'; [done | cbn in Hsz; lia]).
      done.
Qed.

End BatchFacts.

(** ** Runs in which every process succeeds and every thread is prompt *)

Section QuietFacts.
Context `{Platform}.
Implicit Types jobs : Jobs build_source_files_job.

Lemma build_source_files_ok a paths rtn2 :
  buildable a → (build_source_files a paths (0%Z, rtn2)).2 = None.
Proof.
  intros [Hlang [cases_macro Hc]]. unfold build_source_files, build_command.
  rewrite Hc, Hlang. cbn [Stdlib.Strings.String.eqb Stdlib.Strings.Ascii.eqb Bool.eqb].
  by destruct (truthy (cl a)).
Qed.

Lemma do_job_dead jobs i t result :
  outstanding_jobs jobs !! i = Some t → is_dead t = true → do_job jobs i result = None.
Proof.
  intros Hi Hd. unfold do_job. rewrite Hi. unfold is_dead in Hd.
  by destruct (th_pc t).
Qed.

Lemma run_threads_idle steps jobs :
  (∀ i rtns t, (i, rtns) ∈ steps → outstanding_jobs jobs !! i = Some t →
               is_dead t = true) →
  run_threads steps jobs = ([], jobs).
Proof.
  induction steps as [|[i rtns] steps IH]; intros Hidle; cbn [run_threads]; [done|].
  assert (run_threads steps jobs = ([], jobs)) as Hrest.
  { apply IH. intros i' rtns' t Hin. apply (Hidle i' rtns').
    by apply list_elem_of_further. }
  destruct (outstanding_jobs jobs !! i) as [t|] eqn:Hi; [|done].
  destruct (job_do (th_job t) rtns) as [evs r].
  rewrite (do_job_dead jobs i t r Hi); [done|].
  apply (Hidle i rtns); [apply list_elem_of_here | done].
Qed.

Lemma run_threads_app steps1 steps2 jobs :
  run_threads (steps1 ++ steps2) jobs =
    let r1 := run_threads steps1 jobs in
    let r2 := run_threads steps2 r1.2 in
    (r1.1 ++ r2.1, r2.2).
Proof.
  revert jobs; induction steps1 as [|[i rtns] steps1 IH]; intros jobs;
    cbn [app run_threads].
  - cbn. by destruct (run_threads steps2 jobs).
  - destruct (outstanding_jobs jobs !! i) as [t|]; [|apply IH].
    destruct (job_do (th_job t) rtns) as [evs r].
    destruct (do_job jobs i r) as [jobs'|]; [|apply IH].
    rewrite IH. cbn zeta.
    destruct (run_threads steps1 jobs') as [evs1 jobs1]. cbn [fst snd].
    destruct (run_threads steps2 jobs1) as [evs2 jobs2]. cbn [fst snd].
    by rewrite <- app_comm_cons, <- app_assoc.
Qed.

Lemma elem_of_eager_from (a k i : nat) rtns :
  (i, rtns) ∈ concat (run_to_end <$> seq a k) → a ≤ i < a + k.
Proof.
  revert a; induction k as [|k IH]; intros a; cbn [seq fmap list_fmap concat].
  - by intros ?%elem_of_nil.
  - intros [Hi | Hi]%elem_of_app.
    + unfold run_to_end in Hi.
      repeat (apply elem_of_cons in Hi as [[= -> _] | Hi]; [lia|]).
      by apply elem_of_nil in Hi.
    + apply IH in Hi. lia.
Qed.

Lemma eager_split (n len : nat) :
  len < n →
  eager n = eager len ++ run_to_end len
            ++ concat (run_to_end <$> seq (S len) (n - S len)).
Proof.
  intros Hlt. unfold eager.
  replace n with (len + S (n - S len)) at 1 by lia.
  rewrite seq_app, fmap_app, concat_app. cbn [seq fmap list_fmap concat plus].
  done.
Qed.

(** The thread of the job started last runs to its end. *)
Lemma run_to_end_last (sl : nat) (out : list (thread build_source_files_job))
    (errs : list exn) (j : build_source_files_job) :
  buildable (job_args j) →
  ∃ evs,
    run_threads (run_to_end (length out))
      {| slots := sl; outstanding_jobs := out ++ [{| th_job := j; th_pc := Doing |}];
         errors := errs |}
    = (evs, {| slots := S sl;
               outstanding_jobs := out ++ [{| th_job := j; th_pc := Dead None |}];
               errors := errs |}).
Proof.
  intros Hb. unfold run_to_end.
  pose proof (build_source_files_ok (job_args j) (source_paths j) 0%Z Hb) as Hok.
  destruct (build_source_files (job_args j) (source_paths j) (0%Z, 0%Z))
    as [evs r] eqn:Hbs. cbn [snd] in Hok. subst r.
  cbn [run_threads outstanding_jobs].
  rewrite list_lookup_middle by done. unfold job_do. cbn [th_job set_pc]. rewrite Hbs.
  unfold do_job at 1. cbn [outstanding_jobs slots errors].
  rewrite list_lookup_middle by done. cbn [th_pc set_pc th_job].
  rewrite insert_app_r_alt by lia. rewrite Nat.sub_diag. cbn [insert list_insert].
  cbn [run_threads outstanding_jobs].
  rewrite list_lookup_middle by done. cbn [th_job set_pc]. rewrite Hbs.
  unfold do_job at 1. cbn [outstanding_jobs slots errors].
  rewrite list_lookup_middle by done. cbn [th_pc set_pc th_job].
  rewrite insert_app_r_alt by lia. rewrite Nat.sub_diag. cbn [insert list_insert].
  cbn [run_threads outstanding_jobs].
  rewrite list_lookup_middle by done. cbn [th_job set_pc]. rewrite Hbs.
  unfold do_job at 1. cbn [outstanding_jobs slots errors].
  rewrite list_lookup_middle by done. cbn [th_pc set_pc th_job is_doing].
  eexists. reflexivity.
Qed.

(** After a job is started in a pool at rest, one round of the eager
    schedule brings the pool to rest again. *)
Lemma eager_round (n : nat) jobs j jobs2 :
  quiescent jobs → buildable (job_args j) →
  start_job jobs j = Some jobs2 →
  length (outstanding_jobs jobs) < n →
  quiescent (run_threads (eager n) jobs2).2 ∧
  slots (run_threads (eager n) jobs2).2 = slots jobs ∧
  length (outstanding_jobs (run_threads (eager n) jobs2).2)
    = S (length (outstanding_jobs jobs)).
Proof.
  intros [Hdone Herr] Hb Hs Hlen.
  destruct jobs as [sl out errs]. cbn [outstanding_jobs errors slots] in *. subst errs.
  unfold start_job in Hs. cbn [slots outstanding_jobs errors] in Hs.
  destruct sl as [|sl]; [done|]. injection Hs as <-.
  rewrite (eager_split n (length out)) by done. rewrite run_threads_app. cbn zeta.
  rewrite (run_threads_idle (eager (length out))); cycle 1.
  { intros i rtns t Hi%elem_of_eager_from. cbn [outstanding_jobs].
    rewrite lookup_app_l by lia. intros Ht. apply Hdone.
    by apply list_elem_of_lookup_2 in Ht. }
  cbn [fst snd]. rewrite run_threads_app. cbn zeta.
  destruct (run_to_end_last sl out [] j Hb) as [evs ->]. cbn [fst snd].
  rewrite run_threads_idle; cycle 1.
  { intros i rtns t Hi%elem_of_eager_from. cbn [outstanding_jobs].
    rewrite lookup_ge_None_2; [done|]. rewrite length_app. cbn. lia. }
  cbn [fst snd slots outstanding_jobs errors]. split; [split|split]; [|done|done|].
  - intros t [Ht | Ht]%elem_of_app; [by apply Hdone|].
    apply list_elem_of_singleton in Ht as ->. done.
  - rewrite length_app. cbn. lia.
Qed.

Lemma run_threads_quiescent steps jobs :
  quiescent jobs → run_threads steps jobs = ([], jobs).
Proof.
  intros [Hdone _]. apply run_threads_idle. intros i rtns t _ Ht.
  apply Hdone. by apply list_elem_of_lookup_2 in Ht.
Qed.

Lemma main_build_quiet n a paths s :
  buildable a →
  ∃ s', main_build (quiet_env n) a paths s = (Returned tt, s').
Proof.
  intros Hb. rewrite main_build_eq. cbn zeta. cbn [build_rtn quiet_env].
  rewrite (build_source_files_ok a paths 0%Z Hb). eauto.
Qed.

Lemma pool_start_job_quiet n jobs j s :
  quiescent jobs → 1 ≤ slots jobs →
  ∃ jobs2 s', pool_start_job (quiet_env n) jobs j s = (Returned jobs2, s') ∧
              start_job jobs j = Some jobs2.
Proof.
  intros Hq Hs. unfold pool_start_job. rewrite (run_threads_quiescent _ _ Hq).
  unfold start_job. destruct (slots jobs) as [|sl]; [lia|]. eauto.
Qed.

Lemma wait_jobs_quiescent jobs :
  quiescent jobs → wait_jobs jobs = Some ([], None).
Proof.
  intros [Hdone Herr]. unfold wait_jobs.
  apply all_done_forallb in Hdone. by rewrite Hdone, Herr.
Qed.

Lemma has_errors_quiescent jobs : quiescent jobs → has_errors jobs = false.
Proof. intros [_ Herr]. unfold has_errors. by rewrite Herr. Qed.

(** Under the eager schedule, with processes that succeed, the loop
    runs through, and leaves the pool at rest. *)
Lemma submit_loop_quiet n a chunk_max testcases :
  buildable a →
  ∀ chunk chunk_size jobs s,
    quiescent jobs → 1 ≤ slots jobs →
    length (outstanding_jobs jobs) + length testcases < n →
    ∃ chunk' size' jobs' s',
      submit_loop (quiet_env n) a chunk_max testcases chunk chunk_size jobs s
        = (Returned (chunk', size', jobs'), s') ∧
      quiescent jobs' ∧ 1 ≤ slots jobs' ∧
      length (outstanding_jobs jobs') < n.
Proof.
  intros Hb. induction testcases as [|testcase testcases IH];
    intros chunk chunk_size jobs s Hq Hs Hlen; cbn [submit_loop].
  - exists chunk, chunk_size, jobs, s. cbn [length] in Hlen.
    repeat split; [apply Hq..|done|lia].
  - cbn [length] in Hlen.
    destruct (chunk_max <=? chunk_size + 1)%Z; [|apply IH; [done|done|lia]].
    destruct (threads a =? 1)%Z.
    + destruct (main_build_quiet n a (chunk ++ [testcase]) s Hb) as [s1 Hs1].
      unfold bind at 1. rewrite Hs1. apply IH; [done|done|lia].
    + destruct (pool_start_job_quiet n jobs
                  {| job_args := a; source_paths := chunk ++ [testcase] |} s Hq Hs)
        as (jobs2 & s1 & Hs1 & Hstart).
      unfold bind at 1. rewrite Hs1.
      unfold bind at 1. rewrite pool_has_errors_eq. cbn zeta. cbn [sched quiet_env fst snd].
      destruct (eager_round n jobs
                  {| job_args := a; source_paths := chunk ++ [testcase] |}
                  jobs2 Hq Hb Hstart) as (Hq3 & Hs3 & Hl3); [lia|].
      rewrite (has_errors_quiescent _ Hq3).
      apply IH; [done|lia|lia].
Qed.

(** For every list of test cases there is a run of the build of the
    test cases that returns. *)
Lemma build_testcases_quiet a testcases s :
  buildable a → (1 <= threads a)%Z →
  ∃ s', build_testcases (quiet_env (S (length testcases))) a testcases s
        = (Returned tt, s').
Proof.
  intros Hb Ht. unfold build_testcases. cbn [cpu_count quiet_env].
  unfold bind at 1. rewrite print_eq. unfold bind at 1. rewrite print_eq.
  assert ((1 <=? threads a)%Z = true) as -> by lia.
  set (n := S (length testcases)).
  destruct (submit_loop_quiet n a (chunk_max_of a testcases) testcases Hb [] 0%Z
              (Jobs_init (Z.to_nat (threads a)))
              (log (log s [EvPrint (building_line a 4)]) [EvPrint ""]))
    as (chunk' & size' & jobs' & s3 & Hloop & Hq & Hs & Hl).
  { split; [|done]. by intros t ?%elem_of_nil. }
  { cbn. lia. }
  { cbn. lia. }
  unfold bind at 1. rewrite Hloop.
  assert (∃ jobs4 s4,
            run_remainder (quiet_env n) a chunk' size' jobs' s3 = (Returned jobs4, s4) ∧
            quiescent (run_threads (eager n) jobs4).2)
    as (jobs4 & s4 & Hrem & Hq4).
  { unfold run_remainder. destruct (1 <=? size')%Z.
    - destruct (threads a =? 1)%Z.
      + destruct (main_build_quiet n a chunk' s3 Hb) as [s4 Hs4].
        exists jobs', s4. unfold bind at 1. rewrite Hs4. split; [done|].
        by rewrite (run_threads_quiescent _ _ Hq).
      + destruct (pool_start_job_quiet n jobs' {| job_args := a; source_paths := chunk' |}
                    s3 Hq Hs) as (jobs4 & s4 & Hs4 & Hstart).
        exists jobs4, s4. split; [done|].
        by destruct (eager_round n jobs' {| job_args := a; source_paths := chunk' |}
                       jobs4 Hq Hb Hstart Hl) as (Hq4 & _).
    - exists jobs', s3. split; [done|]. by rewrite (run_threads_quiescent _ _ Hq). }
  unfold bind at 1. rewrite Hrem.
  unfold bind at 1, pool_wait_jobs. cbn [sched quiet_env].
  destruct (run_threads (eager n) jobs4) as [evs jobs5]. cbn [snd] in Hq4.
  rewrite (wait_jobs_quiescent _ Hq4). eauto.
Qed.

End QuietFacts.

(** ** The phases of a run *)

Section RunFacts.
Context `{Platform}.
Variable E : env.

Lemma bind_eq {A B} (m : M A) (k : A → M B) s :
  bind m k s =
    match m s with
    | (Returned a, s') => k a s'
    | (Raised e, s') => (Raised e, s')
    | (Blocked, s') => (Blocked, s')
    | (OutOfFuel, s') => (OutOfFuel, s')
    end.
Proof. done. Qed.

(** The scan returns or raises, and neither builds nor calls the pool. *)
Lemma scan_testcases_cases a listing s :
  ∃ s1, ops s1 = ops s ∧ builds s1 = builds s ∧
        ((∃ testcases, scan_testcases a listing s = (Returned testcases, s1)) ∨
         (∃ e, scan_testcases a listing s = (Raised e, s1))).
Proof.
  unfold scan_testcases. rewrite bind_eq, print_eq.
  destruct (find_all_testcases a listing) as [evs [e|testcases]].
  - eexists. split; [|split; [|right; eexists; reflexivity]]; done.
  - rewrite bind_eq, print_eq.
    destruct testcases as [|first rest].
    + eexists. split; [|split; [|left; eexists; reflexivity]]; done.
    + eexists. split; [|split; [|left; eexists; reflexivity]]; done.
Qed.

(** The build of the support files returns or raises, keeps [threads]
    and does not call the pool. *)
Lemma build_support_cases a s :
  ∃ s2, ops s2 = ops s ∧
        ((∃ a', build_support E a s = (Returned a', s2) ∧ threads a' = threads a) ∨
         (∃ e, build_support E a s = (Raised e, s2))).
Proof.
  unfold build_support. destruct (Stdlib.Strings.String.eqb (language a) "cpp").
  - rewrite bind_eq, print_eq, bind_eq, print_eq, build_support_files_eq. cbn zeta.
    destruct (build_source_files a _ _).2 as [e1|].
    + destruct (use_pipe a).
      * destruct (build_source_files (set_use_pipe a false) _ _).2 as [e2|].
        -- eexists. split; [|right; eexists; reflexivity]. done.
        -- eexists. split; [|left; eexists; split; [reflexivity|done]]. done.
      * eexists. split; [|right; eexists; reflexivity]. done.
    + eexists. split; [|left; eexists; split; [reflexivity|done]]. done.
  - exists s. split; [done|]. left. by exists a.
Qed.

Lemma build_and_finish_nonpositive a testcases s :
  (threads a < 1)%Z →
  build_and_finish E a testcases s =
    match cpu_count E with
    | Some cpus =>
        (Raised (Exception "'threads' argument is non-positive."),
         log (log s [EvPrint (building_line a cpus)]) [EvPrint ""])
    | None => (Raised (UnboundLocalError "cpu_count"), s)
    end.
Proof.
  intros Ht. unfold build_and_finish.
  rewrite bind_eq, (build_testcases_nonpositive E a testcases s Ht).
  by destruct (cpu_count E).
Qed.

(** The phases of [main], one after the other. *)
Lemma main_eq a0 listing :
  main E a0 listing =
    let a := set_use_pipe a0 (negb (truthy (cl a0))) in
    match scan_testcases a listing state_init with
    | (Returned testcases, s1) =>
        match build_support E a (log s1 [EvChdir (object_dir a)]) with
        | (Returned a', s2) => build_and_finish E a' testcases s2
        | (Raised e, s2) => (Raised e, s2)
        | (Blocked, s2) => (Blocked, s2)
        | (OutOfFuel, s2) => (OutOfFuel, s2)
        end
    | (Raised e, s1) => (Raised e, s1)
    | (Blocked, s1) => (Blocked, s1)
    | (OutOfFuel, s1) => (OutOfFuel, s1)
    end.
Proof. done. Qed.

End RunFacts.

(** ** Leaving the loop at [break] *)

Lemma pool_calls_app tr1 tr2 :
  pool_calls (tr1 ++ tr2) = pool_calls tr1 ++ pool_calls tr2.
Proof. apply List.filter_app. Qed.

Lemma pool_calls_none tr :
  Forall (λ ev, is_pool_call ev = false) tr → pool_calls tr = [].
Proof.
  induction 1 as [|ev tr Hev _ IH]; [done|].
  unfold pool_calls in *. cbn [List.filter]. by rewrite Hev.
Qed.

Lemma build_source_files_no_pool_call `{Platform} a paths rtns :
  Forall (λ ev, is_pool_call ev = false) (build_source_files a paths rtns).1.
Proof.
  unfold build_source_files, build_command.
  destruct (cases_macro_of (cases a)) as [e|cases_macro]; [by constructor|].
  repeat match goal with
         | |- context [if ?c then _ else _] => destruct c
         end; cbn [fst snd];
    rewrite ?Forall_app; repeat split; repeat constructor.
Qed.

Section EarlyStop.
Context `{Platform}.
Variable E : env.
Implicit Types jobs : Jobs build_source_files_job.

Lemma run_threads_no_pool_call steps jobs :
  Forall (λ ev, is_pool_call ev = false) (run_threads steps jobs).1.
Proof.
  revert jobs; induction steps as [|[i rtns] steps IH]; intros jobs;
    cbn [run_threads]; [by constructor|].
  destruct (outstanding_jobs jobs !! i) as [t|]; [|done].
  pose proof (build_source_files_no_pool_call (job_args (th_job t))
                (source_paths (th_job t)) rtns) as Hb.
  unfold job_do. destruct (build_source_files _ _ rtns) as [evs r]. cbn [fst] in Hb.
  destruct (do_job jobs i r) as [jobs'|]; [|done].
  specialize (IH jobs'). destruct (run_threads steps jobs') as [evs' jobs''].
  cbn [fst] in *. constructor; [done|]. apply Forall_app. split; [|done].
  destruct (is_doing t); [done | constructor].
Qed.

(** With more than one thread and a pool without error at the start, the
    loop is left with an error in the pool only at [break]: the last two
    calls to the pool were [start_job] of the batch that [chunk] still
    holds and the check that answered true, and [chunk_size] is at
    least 1. *)
Lemma submit_loop_break a chunk_max testcases :
  ∀ chunk chunk_size jobs s chunk' size' jobs' s',
    (threads a =? 1)%Z = false →
    (0 <= chunk_size)%Z →
    has_errors jobs = false →
    submit_loop E a chunk_max testcases chunk chunk_size jobs s
      = (Returned (chunk', size', jobs'), s') →
    has_errors jobs' = true →
    (1 <= size')%Z ∧
    ∃ tr evs, trace s' = trace s ++ tr ++ EvStartJob chunk' :: evs ++ [EvHasErrors true] ∧
              pool_calls evs = [].
Proof.
  induction testcases as [|testcase testcases IH];
    intros chunk chunk_size jobs s chunk' size' jobs' s' Hthr Hsize Hok Hrun Herr.
  - injection Hrun as <- <- <- <-. congruence.
  - cbn [submit_loop] in Hrun. destruct (chunk_max <=? chunk_size + 1)%Z.
    + rewrite Hthr in Hrun.
      apply bind_returned in Hrun as (jobs2 & s1 & Hstart & Hrun).
      apply pool_start_job_returned in Hstart as [_ ->].
      apply bind_returned in Hrun as (r & s2 & Hhas & Hrun).
      rewrite pool_has_errors_eq in Hhas. cbn zeta in Hhas.
      injection Hhas as <- <-. cbn [fst snd] in Hrun.
      destruct (has_errors (run_threads _ jobs2).2) eqn:He.
      * injection Hrun as <- <- <- <-. split; [lia|].
        exists (run_threads (sched E (ops s)) jobs).1,
               (run_threads (sched E (S (ops s))) jobs2).1.
        split.
        -- cbn [trace next_op log source_paths]. by rewrite <- !app_assoc.
        -- apply pool_calls_none, run_threads_no_pool_call.
      * apply IH in Hrun; [|done|done|done|done].
        destruct Hrun as [Hsz (tr & evs & Htr & Hevs)]. split; [done|].
        exists ((run_threads (sched E (ops s)) jobs).1
                  ++ [EvStartJob (chunk ++ [testcase])]
                  ++ (run_threads (sched E (S (ops s))) jobs2).1
                  ++ [EvHasErrors false] ++ tr), evs.
        split; [|done]. rewrite Htr.
        cbn [trace next_op log source_paths]. by rewrite <- !app_assoc.
    + apply IH in Hrun; [done|done|lia|done|done].
Qed.

(** So the step after the loop is then [start_job] of that same batch. *)
Lemma break_then_start_job a testcases n s chunk' size' jobs' s' :
  (threads a =? 1)%Z = false →
  submit_loop E a (chunk_max_of a testcases) testcases [] 0 (Jobs_init n) s
    = (Returned (chunk', size', jobs'), s') →
  has_errors jobs' = true →
  run_remainder E a chunk' size' jobs'
    = pool_start_job E jobs' {| job_args := a; source_paths := chunk' |}
  ∧ ∃ tr evs, trace s' = trace s ++ tr ++ EvStartJob chunk' :: evs ++ [EvHasErrors true] ∧
              pool_calls evs = [].
Proof.
  intros Hthr Hrun Herr.
  assert (has_errors (Jobs_init (job := build_source_files_job) n) = false) as Hok by done.
  destruct (submit_loop_break _ _ _ _ _ _ _ _ _ _ _ Hthr (Z.le_refl 0) Hok Hrun Herr)
    as [Hsz Htr].
  split; [|done]. unfold run_remainder. rewrite Hthr.
  by destruct (Z.leb_spec 1 size'); [|lia].
Qed.

End EarlyStop.

(** ** More on the discovery *)

Lemma string_app_inj_l (p s t : string) : p +:+ s = p +:+ t → s = t.
Proof.
  induction p as [|c p IH]; [done|]. rewrite !append_cons. intros [=]. by apply IH.
Qed.

Lemma is_category_name_unique child id id' :
  is_category_name child id → is_category_name child id' → id = id'.
Proof.
  intros H1%dirs_regexp_match_category H2%dirs_regexp_match_category. congruence.
Qed.

Lemma dir_decision_subdivision (cwes_include cwes_exclude : gset string) :
  dir_decision None cwes_include cwes_exclude = (true, false).
Proof. done. Qed.

(** [",".join(s.split(","))] and back. *)
Lemma concat_comma_cons (x y : string) (l : list string) :
  Stdlib.Strings.String.concat "," (x :: y :: l)
  = x +:+ "," +:+ Stdlib.Strings.String.concat "," (y :: l).
Proof. done. Qed.

Lemma split_comma_from_nonempty cur s : split_comma_from cur s ≠ [].
Proof.
  revert cur; induction s as [|c s IH]; intros cur; cbn [split_comma_from]; [done|].
  destruct (Stdlib.Strings.Ascii.eqb c ","); [done | apply IH].
Qed.

Lemma split_comma_from_concat cur s :
  Stdlib.Strings.String.concat "," (split_comma_from cur s) = cur +:+ s.
Proof.
  revert cur; induction s as [|c s IH]; intros cur; cbn [split_comma_from].
  - by rewrite append_nil_r.
  - destruct (Stdlib.Strings.Ascii.eqb_spec c ",") as [->|Hc].
    + pose proof (split_comma_from_nonempty "" s) as Hne. specialize (IH "").
      destruct (split_comma_from "" s) as [|y l]; [done|].
      rewrite concat_comma_cons, IH. done.
    + rewrite IH, append_assoc. done.
Qed.

Lemma no_comma_app s1 s2 :
  no_comma (s1 +:+ s2) = no_comma s1 && no_comma s2.
Proof.
  induction s1 as [|c s1 IH]; [done|]. rewrite append_cons. cbn [no_comma].
  by rewrite IH, andb_assoc.
Qed.

Lemma split_comma_from_pieces cur s :
  no_comma cur = true → Forall (λ e, no_comma e = true) (split_comma_from cur s).
Proof.
  revert cur; induction s as [|c s IH]; intros cur Hcur; cbn [split_comma_from].
  - by constructor.
  - destruct (Stdlib.Strings.Ascii.eqb c ",") eqn:Hc.
    + constructor; [done|]. by apply IH.
    + apply IH. rewrite no_comma_app, Hcur. cbn [no_comma andb]. by rewrite Hc.
Qed.

Lemma split_comma_from_app cur s r :
  no_comma s = true →
  split_comma_from cur (s +:+ r) = split_comma_from (cur +:+ s) r.
Proof.
  revert cur; induction s as [|c s IH]; intros cur Hs.
  - by rewrite append_nil_r.
  - cbn [no_comma] in Hs. apply andb_true_iff in Hs as [Hc Hs].
    rewrite append_cons. cbn [split_comma_from].
    apply negb_true_iff in Hc. rewrite Hc, IH by done.
    by rewrite append_assoc.
Qed.

Lemma split_comma_concat (l : list string) :
  l ≠ [] → Forall (λ e, no_comma e = true) l →
  split_comma (Stdlib.Strings.String.concat "," l) = l.
Proof.
  unfold split_comma. intros Hne Hall.
  induction Hall as [|x l Hx Hall IH]; [done|].
  destruct l as [|y l].
  - cbn [Stdlib.Strings.String.concat]. by rewrite split_comma_from_no_comma.
  - rewrite concat_comma_cons, split_comma_from_app by done.
    rewrite append_cons. cbn [split_comma_from Stdlib.Strings.Ascii.eqb Bool.eqb].
    change ("" +:+ x) with x.
    change ("" +:+ Stdlib.Strings.String.concat "," (y :: l))
      with (Stdlib.Strings.String.concat "," (y :: l)).
    by rewrite IH.
Qed.

Section ListedFacts.
Context `{Platform}.
Variable files_regexp : string → bool.
Variables cwes_include cwes_exclude : gset string.
Variable for_gcc : bool.
Variables (root : string) (listing : list entry).

Abbreviation scan := (visit_child files_regexp cwes_include cwes_exclude for_gcc).
Abbreviation scan_list := (visit_children files_regexp cwes_include cwes_exclude for_gcc).
Abbreviation reached := (visited cwes_include cwes_exclude root listing).

(** A directory listed below a visited one is visited. *)
Lemma visit_child_listed e :
  ∀ d l dir, reached d l → e ∈ l → EvListdir dir ∈ (scan d e).1 →
             ∃ l', reached dir l'.
Proof.
  induction e as [c|c|child children IH] using entry_tree_ind; intros d l dir Hv Hin Hev.
  - rewrite visit_child_File in Hev.
    destruct (files_regexp c); [|by apply elem_of_nil in Hev].
    destruct (Stdlib.Strings.String.eqb c gcc_excluded && for_gcc);
      [|by apply elem_of_nil in Hev].
    apply list_elem_of_singleton in Hev. done.
  - by apply elem_of_nil in Hev.
  - rewrite visit_child_Dir in Hev.
    destruct (dirs_regexp_match child) as [g1|] eqn:Hm; [|by apply elem_of_nil in Hev].
    destruct (dir_decision g1 cwes_include cwes_exclude).1 eqn:Hd;
      [|by apply elem_of_nil in Hev].
    assert (reached (os_path_join d child) children) as Hsub by (by eapply visited_sub).
    cbn [fst] in Hev. unfold find_all_testcases_rec in Hev.
    destruct (scan_list (os_path_join d child) children) as [evs res] eqn:Hl.
    cbn [fst snd] in Hev.
    assert (EvListdir dir ∈ EvListdir (os_path_join d child) :: evs) as Hev'.
    { destruct (dir_decision g1 cwes_include cwes_exclude).2; [|done].
      apply elem_of_app in Hev as [Hev|Hev]; [done|].
      apply list_elem_of_singleton in Hev. done. }
    apply elem_of_cons in Hev' as [[= ->]|Hev']; [by exists children|].
    assert (EvListdir dir ∈ (scan_list (os_path_join d child) children).1) as Hev''
      by (by rewrite Hl).
    apply elem_of_visit_children_events in Hev'' as (e & He & Hee).
    rewrite Forall_forall in IH.
    by apply (IH e He (os_path_join d child) children dir).
Qed.

Lemma visited_listed d l :
  reached d l →
  EvListdir d ∈ (find_all_testcases_rec files_regexp cwes_include cwes_exclude for_gcc
                   root listing).1.
Proof.
  unfold find_all_testcases_rec.
  destruct (scan_list root listing) as [evs res] eqn:Hl. cbn [fst].
  intros Hv. destruct Hv as [|d l child children g1 Hv Hin Hm Hd].
  - apply elem_of_cons; by left.
  - apply elem_of_cons; right. change evs with (evs, res).1. rewrite <- Hl.
    apply (visited_events _ _ _ _ _ _ d l); [done|].
    apply elem_of_visit_children_events. exists (Dir child children). split; [done|].
    apply recursed_into_Dir. by exists g1.
Qed.

End ListedFacts.

(** ** More on the pool *)

Lemma count_if_length {A} (f : A → bool) (l : list A) : count_if f l ≤ length l.
Proof. induction l as [|x l IH]; cbn; [lia|]. destruct (f x); lia. Qed.

Lemma count_if_none {A} (f : A → bool) (l : list A) :
  (∀ x, x ∈ l → f x = false) → count_if f l = 0.
Proof.
  induction l as [|x l IH]; intros Hall; cbn; [done|].
  rewrite (Hall x) by (apply elem_of_cons; by left).
  rewrite IH; [done|]. intros y Hy. apply Hall, elem_of_cons. by right.
Qed.

Section MorePoolFacts.
Context {job : Type}.
Implicit Types self : Jobs job.

Lemma start_job_None self j : start_job self j = None ↔ slots self = 0.
Proof. unfold start_job. by destruct (slots self). Qed.

Lemma all_done_holding self : all_done self → holding self = 0.
Proof.
  intros Hdone. apply count_if_none. intros t Ht. by rewrite (Hdone t Ht).
Qed.

Lemma start_jobs_spec self js :
  start_jobs self js =
    if decide (length js ≤ slots self) then
      Some {| slots := slots self - length js;
              outstanding_jobs :=
                outstanding_jobs self ++ ((λ j, {| th_job := j; th_pc := Doing |}) <$> js);
              errors := errors self |}
    else None.
Proof.
  revert self; induction js as [|j js IH]; intros self; cbn [start_jobs length].
  - rewrite decide_True by lia. destruct self as [sl out errs]. cbn.
    by rewrite Nat.sub_0_r, app_nil_r.
  - unfold start_job. destruct (slots self) as [|n] eqn:Hs.
    + by rewrite decide_False by lia.
    + rewrite IH. cbn [slots outstanding_jobs errors].
      destruct (decide (length js ≤ n)).
      * rewrite decide_True by lia. cbn [fmap list_fmap]. by rewrite <- app_assoc.
      * by rewrite decide_False by lia.
Qed.

Lemma step_append_only self self' :
  step self self' →
  (th_job <$> outstanding_jobs self) `prefix_of` (th_job <$> outstanding_jobs self')
  ∧ errors self `prefix_of` errors self'.
Proof.
  intros [self0 j self1 Hs | self0 i result self1 Hd].
  - apply start_job_Some in Hs as (_ & -> & ->). split; [|done].
    rewrite fmap_app. by apply prefix_app_r.
  - unfold do_job in Hd.
    destruct (outstanding_jobs self0 !! i) as [t|] eqn:Hi; [|done].
    assert (∀ p, th_job <$> <[i := set_pc t p]> (outstanding_jobs self0)
                 = th_job <$> outstanding_jobs self0) as Hsame.
    { intros p. rewrite list_fmap_insert. apply list_insert_id.
      by rewrite list_lookup_fmap, Hi. }
    destruct (th_pc t) as [|e|r|r]; [| | |done]; injection Hd as <-;
      cbn [outstanding_jobs errors]; rewrite Hsame; split; try done.
    by apply prefix_app_r.
Qed.

End MorePoolFacts.

(** ** More on build_source_files *)

Lemma filter_is_call_app (l1 l2 : list event) :
  List.filter is_call (l1 ++ l2) = List.filter is_call l1 ++ List.filter is_call l2.
Proof. apply List.filter_app. Qed.

Lemma build_command_no_call `{Platform} a cases_macro paths :
  List.filter is_call (build_command a cases_macro paths).1 = [].
Proof.
  unfold build_command.
  repeat match goal with
         | |- context [if ?c then _ else _] => destruct c
         end; done.
Qed.

Lemma build_command_cpp `{Platform} a cases_macro paths :
  language a = "cpp" →
  build_command a cases_macro paths =
    if truthy (cl a) then
      ([], inr ([cl_path a] ++ ["/I" +:+ test_cases_support_dir a]
                ++ (if truthy cases_macro then ["/D" +:+ default "" cases_macro] else [])
                ++ ["/W3"; "/MT"; "/GS"; "/RTC1"; "/bigobj"; "/EHsc"; "/nologo"]
                ++ ["/c"]
                ++ paths,
                []))
    else
      ([], inr ([gcc_path a] ++ ["-I"; test_cases_support_dir a]
                ++ (if truthy cases_macro then ["-D" +:+ default "" cases_macro] else [])
                ++ ["-DCALG_RC5=(ALG_CLASS_DATA_ENCRYPT|ALG_TYPE_BLOCK|ALG_SID_RC5)";
                    "-DNO_ERROR=0L";
                    "-D__STDC_FORMAT_MACROS";
                    "-c";
                    "-wrapper"; "true"]
                ++ (if use_pipe a then ["-pipe"] else [])
                ++ paths,
                ["-v"; "-pass-exit-codes"])).
Proof. intros Hl. unfold build_command. by rewrite Hl. Qed.

Lemma cases_macro_of_unknown cases :
  cases ≠ "good" → cases ≠ "bad" → cases ≠ "both" →
  cases_macro_of cases = inl (Exception "Unknown cases.").
Proof.
  intros H1 H2 H3. unfold cases_macro_of.
  apply Stdlib.Strings.String.eqb_neq in H1, H2, H3. by rewrite H1, H2, H3.
Qed.

Lemma build_source_files_failed `{Platform} a paths rtns evs cases_macro cmd verbose :
  cases_macro_of (cases a) = inr cases_macro →
  build_command a cases_macro paths = (evs, inr (cmd, verbose)) →
  rtns.1 ≠ 0%Z →
  (build_source_files a paths rtns).2 =
    Some (match last paths with
          | Some source_path => Exception ("Build '" +:+ source_path +:+ "' failed.")
          | None => UnboundLocalError "source_path"
          end).
Proof.
  intros Hc Hb Hr. unfold build_source_files. rewrite Hc, Hb.
  by destruct (Z.eqb_spec rtns.1 0).
Qed.

Lemma build_command_cpp_ok `{Platform} a cases_macro paths :
  language a = "cpp" →
  ∃ cmd verbose, build_command a cases_macro paths = ([], inr (cmd, verbose)).
Proof.
  intros Hlang. rewrite (build_command_cpp _ _ _ Hlang).
  destruct (truthy (cl a)); eauto.
Qed.

(** ** More on the build of the test cases *)

Lemma build_source_files_output `{Platform} a paths rtns :
  Forall (λ ev, is_output ev = true) (build_source_files a paths rtns).1.
Proof.
  unfold build_source_files, build_command.
  destruct (cases_macro_of (cases a)) as [e|cases_macro]; [by constructor|].
  repeat match goal with
         | |- context [if ?c then _ else _] => destruct c
         end; cbn [fst snd];
    rewrite ?Forall_app; repeat split; repeat constructor.
Qed.

Lemma round_div_nearest (n d : Z) :
  (0 < d)%Z →
  (2 * Z.abs (n - d * round_div n d) <= d)%Z
  ∧ ((2 * Z.abs (n - d * round_div n d) = d)%Z → Z.even (round_div n d) = true).
Proof.
  intros Hd. unfold round_div.
  pose proof (Z.div_mod n d ltac:(lia)) as Hdm.
  pose proof (Z.mod_pos_bound n d Hd) as Hr.
  destruct (Z.ltb_spec (2 * (n mod d)) d) as [H1|H1]; [split; lia|].
  destruct (Z.ltb_spec d (2 * (n mod d))) as [H2|H2]; [split; lia|].
  destruct (Z.even (n / d)) eqn:He; [split; [lia|done]|].
  split; [lia|]. intros _.
  rewrite Z.add_1_r, Z.even_succ, <- Z.negb_even, He. done.
Qed.

Section AnyRun.
Context `{Platform}.
Variable E : env.
Implicit Types jobs : Jobs build_source_files_job.

Lemma bind_cases {A B} (m : M A) (k : A → M B) s o s' :
  bind m k s = (o, s') →
  (∃ a s1, m s = (Returned a, s1) ∧ k a s1 = (o, s'))
  ∨ (∃ e, m s = (Raised e, s') ∧ o = Raised e)
  ∨ (m s = (Blocked, s') ∧ o = Blocked)
  ∨ (m s = (OutOfFuel, s') ∧ o = OutOfFuel).
Proof.
  unfold bind. destruct (m s) as [[a|e| |] s1].
  - intros Hk. left. by exists a, s1.
  - intros [= <- <-]. right; left. by exists e.
  - intros [= <- <-]. right; right; by left.
  - intros [= <- <-]. right; right; by right.
Qed.

Lemma run_threads_output_or_thread steps jobs :
  Forall (λ ev, is_output ev || is_thread ev = true) (run_threads steps jobs).1.
Proof.
  revert jobs; induction steps as [|[i rtns] steps IH]; intros jobs;
    cbn [run_threads]; [by constructor|].
  destruct (outstanding_jobs jobs !! i) as [t|]; [|done].
  pose proof (build_source_files_output (job_args (th_job t))
                (source_paths (th_job t)) rtns) as Hb.
  unfold job_do. destruct (build_source_files _ _ rtns) as [evs r]. cbn [fst] in Hb.
  destruct (do_job jobs i r) as [jobs'|]; [|done].
  specialize (IH jobs'). destruct (run_threads steps jobs') as [evs' jobs''].
  cbn [fst] in *. constructor; [done|]. apply Forall_app. split; [|done].
  destruct (is_doing t); [|constructor].
  eapply Forall_impl; [exact Hb|]. intros ev ->. done.
Qed.

Lemma run_threads_pool_event steps jobs :
  Forall (λ ev, is_pool_event ev = true) (run_threads steps jobs).1.
Proof.
  eapply Forall_impl; [apply run_threads_output_or_thread|].
  intros ev Hev. by destruct ev.
Qed.

Lemma run_threads_reachable steps jobs : rtc step jobs (run_threads steps jobs).2.
Proof.
  revert jobs; induction steps as [|[i rtns] steps IH]; intros jobs;
    cbn [run_threads]; [done|].
  destruct (outstanding_jobs jobs !! i) as [t|]; [|apply IH].
  destruct (job_do (th_job t) rtns) as [evs r].
  destruct (do_job jobs i r) as [jobs'|] eqn:Hd; [|apply IH].
  specialize (IH jobs'). destruct (run_threads steps jobs') as [evs' jobs''].
  cbn [snd] in *. eapply rtc_l; [|exact IH]. by apply (step_thread _ i r).
Qed.

Lemma run_threads_new_pool steps (n : nat) :
  run_threads steps (Jobs_init n) = ([], Jobs_init n).
Proof. apply run_threads_idle. intros i rtns t _ Hi. done. Qed.

Lemma bind_pool_start_job {B} jobs j (k : Jobs build_source_files_job → M B) s o s' :
  bind (pool_start_job E jobs j) k s = (o, s') →
  (∃ jobs2, start_job (run_threads (sched E (ops s)) jobs).2 j = Some jobs2 ∧
            k jobs2 (next_op (log s ((run_threads (sched E (ops s)) jobs).1
                                       ++ [EvStartJob (source_paths j)]))) = (o, s'))
  ∨ (o = Blocked ∧ s' = next_op (log s (run_threads (sched E (ops s)) jobs).1)).
Proof.
  unfold bind, pool_start_job.
  destruct (run_threads (sched E (ops s)) jobs) as [evs jobs1]. cbn [fst snd].
  destruct (start_job jobs1 j) as [jobs2|]; [eauto|]. intros [= <- <-]. by right.
Qed.

Lemma pool_wait_jobs_cases jobs s o s' :
  pool_wait_jobs E jobs s = (o, s') →
  (o = Returned (run_threads (sched E (ops s)) jobs).2
   ∨ o = Raised (Exception "Exception in thread(s).")
   ∨ o = Blocked)
  ∧ ∃ evs, s' = next_op (log s evs) ∧
           Forall (λ ev, is_output ev || is_thread ev = true) evs.
Proof.
  unfold pool_wait_jobs.
  pose proof (run_threads_output_or_thread (sched E (ops s)) jobs) as Hevs.
  destruct (run_threads (sched E (ops s)) jobs) as [evs jobs1]. cbn [fst snd] in *.
  unfold wait_jobs. destruct (forallb is_dead (outstanding_jobs jobs1)).
  - destruct (0 <? length (errors jobs1))%nat; intros [= <- <-].
    + split; [right; by left|]. eexists. split; [done|].
      apply Forall_app. split; [done|]. by repeat constructor.
    + split; [by left|]. eexists. split; [done|]. by rewrite app_nil_r.
  - intros [= <- <-]. split; [right; by right|]. eauto.
Qed.

(** With one thread: the loop builds in the main thread and never calls
    the pool; it ends at the first build that fails. *)
Lemma submit_loop_single a chunk_max testcases :
  (threads a =? 1)%Z = true →
  ∀ chunk chunk_size jobs s o s',
    submit_loop E a chunk_max testcases chunk chunk_size jobs s = (o, s') →
    ops s' = ops s ∧
    ∃ tr, trace s' = trace s ++ tr ∧
          Forall (λ ev, is_output ev || is_build ev = true) tr ∧
          match o with
          | Returned r => r.2 = jobs
          | Raised e =>
              ∃ pre b rtns, tr = pre ++ EvBuild b :: (build_source_files a b rtns).1 ∧
                            (build_source_files a b rtns).2 = Some e
          | _ => False
          end.
Proof.
  intros Hthr. induction testcases as [|testcase testcases IH];
    intros chunk chunk_size jobs s o s' Hrun.
  - injection Hrun as <- <-. split; [done|]. exists []. by rewrite app_nil_r.
  - cbn [submit_loop] in Hrun. destruct (chunk_max <=? chunk_size + 1)%Z.
    + rewrite Hthr, bind_eq, main_build_eq in Hrun. cbn zeta in Hrun.
      pose proof (build_source_files_output a (chunk ++ [testcase])
                    (build_rtn E (builds s))) as Hout.
      destruct (build_source_files a (chunk ++ [testcase]) (build_rtn E (builds s))).2
        as [e|] eqn:Hb.
      * injection Hrun as <- <-. split; [done|].
        eexists. split; [reflexivity|]. split.
        -- constructor; [done|]. eapply Forall_impl; [exact Hout|]. by intros ev ->.
        -- exists [], (chunk ++ [testcase]), (build_rtn E (builds s)). by split.
      * apply IH in Hrun as (Hops & tr & Htr & Hall & Ho). split; [done|].
        exists ((EvBuild (chunk ++ [testcase])
                 :: (build_source_files a (chunk ++ [testcase])
                       (build_rtn E (builds s))).1) ++ tr).
        split; [|split].
        -- rewrite Htr. cbn [trace next_build log]. by rewrite <- app_assoc.
        -- apply Forall_app. split; [|done]. constructor; [done|].
           eapply Forall_impl; [exact Hout|]. by intros ev ->.
        -- destruct o as [r|e| |]; [done| |done|done].
           destruct Ho as (pre & b & rtns & -> & He).
           eexists (_ ++ pre), b, rtns. by rewrite <- app_assoc.
    + by apply IH in Hrun.
Qed.

(** With more than one thread: the loop builds nothing in the main
    thread and raises nothing. *)
Lemma submit_loop_threaded a chunk_max testcases :
  (threads a =? 1)%Z = false →
  ∀ chunk chunk_size jobs s o s',
    submit_loop E a chunk_max testcases chunk chunk_size jobs s = (o, s') →
    ((∃ r, o = Returned r ∧ rtc step jobs r.2) ∨ o = Blocked) ∧
    ∃ tr, trace s' = trace s ++ tr ∧ Forall (λ ev, is_pool_event ev = true) tr.
Proof.
  intros Hthr. induction testcases as [|testcase testcases IH];
    intros chunk chunk_size jobs s o s' Hrun.
  - injection Hrun as <- <-. split; [left; by eexists|]. exists []. by rewrite app_nil_r.
  - cbn [submit_loop] in Hrun. destruct (chunk_max <=? chunk_size + 1)%Z.
    + rewrite Hthr in Hrun.
      apply bind_pool_start_job in Hrun as [(jobs2 & Hstart & Hrun) | [-> ->]].
      * cbn [source_paths] in Hrun.
        set (s1 := next_op (log s _)) in *.
        rewrite bind_eq, pool_has_errors_eq in Hrun. cbn zeta in Hrun.
        cbn [fst snd] in Hrun.
        assert (rtc step jobs (run_threads (sched E (ops s1)) jobs2).2) as Hreach.
        { etrans; [apply (run_threads_reachable (sched E (ops s)))|].
          eapply rtc_l; [by eapply step_start|]. apply run_threads_reachable. }
        destruct (has_errors (run_threads (sched E (ops s1)) jobs2).2).
        -- injection Hrun as <- <-. split; [left; by eexists|]. eexists. split.
           ++ unfold s1. cbn [trace next_op log]. rewrite <- app_assoc. reflexivity.
           ++ rewrite !Forall_app. repeat split;
                try apply run_threads_pool_event; by repeat constructor.
        -- apply IH in Hrun as [Ho (tr & Htr & Hall)]. split.
           { destruct Ho as [(r & -> & Hr) | ->]; [left | by right].
             exists r. split; [done|]. by etrans. }
           eexists. split.
           ++ rewrite Htr. unfold s1. cbn [trace next_op log].
              rewrite <- !app_assoc. reflexivity.
           ++ rewrite !Forall_app. repeat split;
                try apply run_threads_pool_event; try done; by repeat constructor.
      * split; [by right|]. eexists. split; [reflexivity|].
        apply run_threads_pool_event.
    + by apply IH in Hrun.
Qed.

(** In every run: the batches the loop hands over are full ones. *)
Lemma submit_loop_sizes a chunk_max testcases :
  ∀ chunk chunk_size jobs s o s',
    chunk_size = Z.of_nat (length chunk) →
    length chunk < chunk_bound chunk_max →
    submit_loop E a chunk_max testcases chunk chunk_size jobs s = (o, s') →
    ∃ tr, trace s' = trace s ++ tr ∧
          Forall (λ b, length b = chunk_bound chunk_max) (dispatched tr) ∧
          match o with
          | Returned r =>
              r.1.2 = Z.of_nat (length r.1.1) ∧ length r.1.1 ≤ chunk_bound chunk_max
          | _ => True
          end.
Proof.
  unfold chunk_bound.
  induction testcases as [|testcase testcases IH];
    intros chunk chunk_size jobs s o s' Hsize Hlen Hrun.
  - injection Hrun as <- <-. exists []. rewrite app_nil_r.
    split; [done|]. split; [constructor|]. cbn [fst snd]. split; [done|lia].
  - cbn [submit_loop] in Hrun.
    assert (length (chunk ++ [testcase]) = S (length chunk)) as Hlen1
      by (rewrite length_app; cbn; lia).
    destruct (Z.leb_spec chunk_max (chunk_size + 1)) as [Hfull|Hpart].
    + assert (length (chunk ++ [testcase]) = Z.to_nat (Z.max 1 chunk_max)) as Hb by lia.
      destruct (threads a =? 1)%Z.
      * rewrite bind_eq, main_build_eq in Hrun. cbn zeta in Hrun.
        destruct (build_source_files a (chunk ++ [testcase]) (build_rtn E (builds s))).2
          as [e|].
        -- injection Hrun as <- <-. eexists. split; [reflexivity|]. split; [|done].
           cbn [dispatched].
           rewrite (dispatched_none _ (build_source_files_events _ _ _)).
           by constructor.
        -- apply IH in Hrun as (tr & Htr & Hall & Ho); [|done|cbn; lia].
           eexists (_ :: _ ++ tr). split; [|split; [|done]].
           ++ rewrite Htr. cbn [trace next_build log]. by rewrite <- app_assoc.
           ++ cbn [dispatched]. rewrite dispatched_app.
              rewrite (dispatched_none _ (build_source_files_events _ _ _)).
              by constructor.
      * apply bind_pool_start_job in Hrun as [(jobs2 & _ & Hrun) | [-> ->]].
        -- cbn [source_paths] in Hrun.
           set (s1 := next_op (log s _)) in *.
           rewrite bind_eq, pool_has_errors_eq in Hrun. cbn zeta in Hrun.
           cbn [fst snd] in Hrun.
           assert (dispatched ((run_threads (sched E (ops s)) jobs).1
                               ++ [EvStartJob (chunk ++ [testcase])])
                   = [chunk ++ [testcase]]) as Hd1.
           { by rewrite dispatched_app, (dispatched_none _ (run_threads_events _ _)). }
           destruct (has_errors (run_threads (sched E (ops s1)) jobs2).2) eqn:He.
           ++ injection Hrun as <- <-.
              eexists (((run_threads (sched E (ops s)) jobs).1
                        ++ [EvStartJob (chunk ++ [testcase])])
                       ++ (run_threads (sched E (ops s1)) jobs2).1 ++ [EvHasErrors true]).
              split; [|split].
              ** unfold s1. cbn [trace next_op log source_paths].
                 by rewrite <- !app_assoc.
              ** rewrite dispatched_app, Hd1, dispatched_app.
                 rewrite (dispatched_none _ (run_threads_events _ _)).
                 cbn. by constructor.
              ** cbn [fst snd]. split; [lia|]. rewrite Hb. done.
           ++ apply IH in Hrun as (tr & Htr & Hall & Ho); [|done|cbn; lia].
              eexists (((run_threads (sched E (ops s)) jobs).1
                        ++ [EvStartJob (chunk ++ [testcase])])
                       ++ ((run_threads (sched E (ops s1)) jobs2).1
                           ++ [EvHasErrors false]) ++ tr).
              split; [|split; [|done]].
              ** rewrite Htr. unfold s1. cbn [trace next_op log source_paths].
                 by rewrite <- !app_assoc.
              ** rewrite dispatched_app, Hd1, !dispatched_app.
                 rewrite (dispatched_none _ (run_threads_events _ _)).
                 cbn. by constructor.
        -- eexists. split; [reflexivity|]. split; [|done].
           rewrite (dispatched_none _ (run_threads_events _ _)). constructor.
    + apply IH in Hrun; [done|lia|lia].
Qed.

Lemma pool_wait_jobs_new_pool (n : nat) s :
  pool_wait_jobs E (Jobs_init n) s = (Returned (Jobs_init n), next_op (log s [])).
Proof. unfold pool_wait_jobs. by rewrite run_threads_new_pool. Qed.

Lemma output_or_thread_no_dispatch (evs : list event) :
  Forall (λ ev, is_output ev || is_thread ev = true) evs → dispatched evs = [].
Proof.
  intros Hall. apply dispatched_none. eapply Forall_impl; [exact Hall|].
  intros ev Hev. by destruct ev.
Qed.

(** From the step after the loop to [jobs.wait_jobs()], with one thread
    and a pool that has not been used. *)
Lemma after_loop_single a chunk chunk_size (n : nat) s o s' :
  (threads a =? 1)%Z = true →
  (do jobs ← run_remainder E a chunk chunk_size (Jobs_init n);
   pool_wait_jobs E jobs ;; ret tt) s = (o, s') →
  ∃ tr, trace s' = trace s ++ tr ∧
        Forall (λ ev, is_output ev || is_build ev = true) tr ∧
        match o with
        | Returned _ => True
        | Raised e =>
            ∃ pre b rtns, tr = pre ++ EvBuild b :: (build_source_files a b rtns).1 ∧
                          (build_source_files a b rtns).2 = Some e
        | _ => False
        end.
Proof.
  intros Hthr. unfold run_remainder. rewrite Hthr.
  destruct (1 <=? chunk_size)%Z.
  - rewrite !bind_eq, main_build_eq. cbn zeta.
    pose proof (build_source_files_output a chunk (build_rtn E (builds s))) as Hout.
    assert (Forall (λ ev, is_output ev || is_build ev = true)
              (EvBuild chunk :: (build_source_files a chunk (build_rtn E (builds s))).1))
      as Hall.
    { constructor; [done|]. eapply Forall_impl; [exact Hout|]. by intros ev ->. }
    destruct (build_source_files a chunk (build_rtn E (builds s))).2 as [e|] eqn:Hb.
    + intros [= <- <-]. eexists. split; [reflexivity|]. split; [done|].
      by exists [], chunk, (build_rtn E (builds s)).
    + unfold ret at 1. rewrite bind_eq, pool_wait_jobs_new_pool. intros [= <- <-].
      eexists. split; [|split; [exact Hall|done]].
      cbn [trace next_op next_build log]. by rewrite app_nil_r.
  - unfold ret at 1. rewrite !bind_eq, pool_wait_jobs_new_pool. intros [= <- <-].
    exists []. by split.
Qed.

(** The same with more than one thread. *)
Lemma after_loop_threaded a chunk chunk_size jobs s o s' :
  (threads a =? 1)%Z = false →
  (do jobs ← run_remainder E a chunk chunk_size jobs;
   pool_wait_jobs E jobs ;; ret tt) s = (o, s') →
  (o = Returned tt ∨ o = Raised (Exception "Exception in thread(s).") ∨ o = Blocked) ∧
  ∃ tr, trace s' = trace s ++ tr ∧ Forall (λ ev, is_pool_event ev = true) tr.
Proof.
  intros Hthr. unfold run_remainder. rewrite Hthr.
  assert (∀ jobs4 s4,
            (pool_wait_jobs E jobs4 ;; ret tt) s4 = (o, s') →
            (o = Returned tt ∨ o = Raised (Exception "Exception in thread(s).")
             ∨ o = Blocked) ∧
            ∃ tr, trace s' = trace s4 ++ tr ∧ Forall (λ ev, is_pool_event ev = true) tr)
    as Hwait.
  { intros jobs4 s4 Hrun. rewrite bind_eq in Hrun.
    destruct (pool_wait_jobs E jobs4 s4) as [o' s5] eqn:Hw.
    apply pool_wait_jobs_cases in Hw as [Ho (evs & -> & Hall)].
    assert (Forall (λ ev, is_pool_event ev = true) evs) as Hnb.
    { eapply Forall_impl; [exact Hall|]. intros ev Hev. by destruct ev. }
    destruct Ho as [-> | [-> | ->]]; injection Hrun as <- <-;
      (split; [eauto|]); by exists evs. }
  destruct (1 <=? chunk_size)%Z.
  - intros Hrun. apply bind_pool_start_job in Hrun as [(jobs2 & _ & Hrun) | [-> ->]].
    + apply Hwait in Hrun as [Ho (tr & Htr & Hall)]. split; [done|].
      eexists. split.
      * rewrite Htr. cbn [trace next_op log]. rewrite <- app_assoc. reflexivity.
      * rewrite !Forall_app. repeat split;
          [apply run_threads_pool_event | by repeat constructor | done].
    + split; [by right; right|]. eexists. split; [reflexivity|].
      apply run_threads_pool_event.
  - unfold ret at 1. rewrite bind_eq. apply Hwait.
Qed.

(** In every run: what the step after the loop hands over. *)
Lemma after_loop_sizes a chunk chunk_size jobs s o s' :
  (do jobs ← run_remainder E a chunk chunk_size jobs;
   pool_wait_jobs E jobs ;; ret tt) s = (o, s') →
  ∃ tr, trace s' = trace s ++ tr ∧
        (dispatched tr = [] ∨ (dispatched tr = [chunk] ∧ (1 <= chunk_size)%Z)).
Proof.
  assert (∀ jobs4 s4,
            (pool_wait_jobs E jobs4 ;; ret tt) s4 = (o, s') →
            ∃ tr, trace s' = trace s4 ++ tr ∧ dispatched tr = []) as Hwait.
  { intros jobs4 s4 Hrun. rewrite bind_eq in Hrun.
    destruct (pool_wait_jobs E jobs4 s4) as [o' s5] eqn:Hw.
    apply pool_wait_jobs_cases in Hw as [_ (evs & -> & Hall)].
    apply output_or_thread_no_dispatch in Hall.
    exists evs. split; [|done].
    by destruct o' as [?|?| |]; injection Hrun as <- <-. }
  unfold run_remainder. destruct (Z.leb_spec 1 chunk_size) as [Hsz|Hsz].
  - destruct (threads a =? 1)%Z.
    + rewrite !bind_eq, main_build_eq. cbn zeta.
      pose proof (build_source_files_events a chunk (build_rtn E (builds s))) as Hev.
      apply dispatched_none in Hev.
      destruct (build_source_files a chunk (build_rtn E (builds s))).2 as [e|].
      * intros [= <- <-]. eexists. split; [reflexivity|]. right.
        cbn [dispatched]. by rewrite Hev.
      * unfold ret at 1. intros Hrun. apply Hwait in Hrun as (tr & Htr & Hd).
        eexists (_ :: _ ++ tr). split.
        -- rewrite Htr. cbn [trace next_build log]. by rewrite <- app_assoc.
        -- right. cbn [dispatched]. by rewrite dispatched_app, Hev, Hd.
    + intros Hrun. apply bind_pool_start_job in Hrun as [(jobs2 & _ & Hrun) | [-> ->]].
      * apply Hwait in Hrun as (tr & Htr & Hd).
        eexists ((_ ++ [_]) ++ tr). split.
        -- rewrite Htr. cbn [trace next_op log]. by rewrite <- app_assoc.
        -- right. rewrite !dispatched_app, Hd.
           by rewrite (dispatched_none _ (run_threads_events _ _)).
      * eexists. split; [reflexivity|]. left.
        by rewrite (dispatched_none _ (run_threads_events _ _)).
  - unfold ret at 1. rewrite bind_eq. intros Hrun.
    apply Hwait in Hrun as (tr & Htr & Hd). exists tr. split; [done|]. by left.
Qed.

Lemma build_and_finish_no_cpu_count a testcases s :
  cpu_count E = None →
  build_and_finish E a testcases s = (Raised (UnboundLocalError "cpu_count"), s).
Proof. intros Hc. unfold build_and_finish, build_testcases. by rewrite Hc. Qed.

(** The build of the test cases with one thread. *)
Lemma build_testcases_single a testcases s o s' cpus :
  threads a = 1%Z →
  cpu_count E = Some cpus →
  build_testcases E a testcases s = (o, s') →
  (o = Returned tt ∨ ∃ e, o = Raised e) ∧
  ∃ tr, trace s' = trace s ++ tr ∧
        Forall (λ ev, is_output ev || is_build ev = true) tr ∧
        ∀ e, o = Raised e →
             ∃ pre b rtns, tr = pre ++ EvBuild b :: (build_source_files a b rtns).1 ∧
                           (build_source_files a b rtns).2 = Some e.
Proof.
  intros Hthreads Hcpu Hrun.
  assert ((threads a =? 1)%Z = true) as Hthr by (by rewrite Hthreads).
  unfold build_testcases in Hrun.
  rewrite Hcpu, bind_eq, print_eq, bind_eq, print_eq, Hthreads in Hrun.
  cbn [Z.leb Z.compare Pos.compare Pos.compare_cont] in Hrun. cbn zeta in Hrun.
  apply bind_cases in Hrun
    as [([[chunk' size'] jobs'] & s1 & Hloop & Hrun)
       | [(e & Hloop & ->) | [[Hloop ->] | [Hloop ->]]]];
    apply (submit_loop_single a _ testcases Hthr) in Hloop
      as (_ & tr & Htr & Hall & Ho); try done.
  - cbn [snd] in Ho. subst jobs'.
    apply (after_loop_single a _ _ _ _ _ _ Hthr) in Hrun as (tr2 & Htr2 & Hall2 & Ho2).
    split.
    { destruct o as [[]|e| |]; [by left | right; by exists e | done | done]. }
    exists ([EvPrint (building_line a cpus)] ++ [EvPrint ""] ++ tr ++ tr2).
    split; [|split].
    + rewrite Htr2, Htr. cbn [trace log]. by rewrite <- !app_assoc.
    + repeat constructor; try done. apply Forall_app. by split.
    + intros e ->. destruct Ho2 as (pre & b & rtns & -> & He).
      exists ([EvPrint (building_line a cpus)] ++ [EvPrint ""] ++ tr ++ pre), b, rtns.
      split; [|done]. by rewrite <- !app_assoc.
  - split; [right; by exists e|].
    exists ([EvPrint (building_line a cpus)] ++ [EvPrint ""] ++ tr).
    split; [|split].
    + rewrite Htr. cbn [trace log]. by rewrite <- !app_assoc.
    + by repeat constructor.
    + intros e' [= <-]. destruct Ho as (pre & b & rtns & -> & He).
      exists ([EvPrint (building_line a cpus)] ++ [EvPrint ""] ++ pre), b, rtns.
      split; [|done]. by rewrite <- !app_assoc.
Qed.

(** The build of the test cases with more than one thread. *)
Lemma build_testcases_threaded a testcases s o s' cpus :
  (2 <= threads a)%Z →
  cpu_count E = Some cpus →
  build_testcases E a testcases s = (o, s') →
  (o = Returned tt ∨ o = Raised (Exception "Exception in thread(s).") ∨ o = Blocked) ∧
  ∃ tr, trace s' = trace s ++ tr ∧ Forall (λ ev, is_pool_event ev = true) tr.
Proof.
  intros Hthreads Hcpu Hrun.
  assert ((threads a =? 1)%Z = false) as Hthr by lia.
  unfold build_testcases in Hrun.
  rewrite Hcpu, bind_eq, print_eq, bind_eq, print_eq in Hrun.
  destruct (Z.leb_spec 1 (threads a)); [|lia]. cbn zeta in Hrun.
  apply bind_cases in Hrun
    as [([[chunk' size'] jobs'] & s1 & Hloop & Hrun)
       | [(e & Hloop & ->) | [[Hloop ->] | [Hloop ->]]]];
    apply (submit_loop_threaded a _ testcases Hthr) in Hloop
      as ([(r & Hr & _) | Hr] & tr & Htr & Hall); try done.
  - apply (after_loop_threaded a _ _ _ _ _ _ Hthr) in Hrun
      as (Ho & tr2 & Htr2 & Hall2).
    split; [done|].
    exists ([EvPrint (building_line a cpus)] ++ [EvPrint ""] ++ tr ++ tr2). split.
    + rewrite Htr2, Htr. cbn [trace log]. by rewrite <- !app_assoc.
    + repeat constructor; try done. apply Forall_app. by split.
  - split; [by right; right|].
    exists ([EvPrint (building_line a cpus)] ++ [EvPrint ""] ++ tr). split.
    + rewrite Htr. cbn [trace log]. by rewrite <- !app_assoc.
    + by repeat constructor.
Qed.

(** In every run the build of the test cases lists no directory and
    does not change the working directory. *)
Lemma build_testcases_build_events a testcases s o s' :
  build_testcases E a testcases s = (o, s') →
  ∃ tr, trace s' = trace s ++ tr ∧ Forall (λ ev, is_build_event ev = true) tr.
Proof.
  intros Hrun. destruct (cpu_count E) as [cpus|] eqn:Hcpu.
  2: { unfold build_testcases in Hrun. rewrite Hcpu in Hrun. injection Hrun as <- <-.
       exists []. by rewrite app_nil_r. }
  destruct (Z.lt_total (threads a) 1) as [Hlt | [Heq | Hgt]].
  - rewrite build_testcases_nonpositive, Hcpu in Hrun by done. injection Hrun as <- <-.
    exists [EvPrint (building_line a cpus); EvPrint ""]. split; [|by repeat constructor].
    cbn [trace log]. by rewrite <- app_assoc.
  - apply (build_testcases_single _ _ _ _ _ cpus) in Hrun as [_ (tr & Htr & Hall & _)];
      [|done|done].
    exists tr. split; [done|]. eapply Forall_impl; [exact Hall|].
    intros ev Hev. by destruct ev.
  - apply (build_testcases_threaded _ _ _ _ _ cpus) in Hrun as [_ (tr & Htr & Hall)];
      [|lia|done].
    exists tr. split; [done|]. eapply Forall_impl; [exact Hall|].
    intros ev Hev. by destruct ev.
Qed.

(** The pool after the loop is reached from the pool before it by
    steps of the pool. *)
Lemma submit_loop_pool_steps a chunk_max testcases chunk chunk_size jobs s r s' :
  submit_loop E a chunk_max testcases chunk chunk_size jobs s = (Returned r, s') →
  rtc step jobs r.2.
Proof.
  intros Hrun. destruct (threads a =? 1)%Z eqn:Hthr.
  - apply (submit_loop_single a _ testcases Hthr) in Hrun as (_ & _ & _ & _ & ->). done.
  - apply (submit_loop_threaded a _ testcases Hthr) in Hrun
      as ([(r' & [= <-] & Hr) | [=]] & _). done.
Qed.

Lemma build_support_build_events a s :
  ∃ tr, trace (build_support E a s).2 = trace s ++ tr ∧
        Forall (λ ev, is_build_event ev = true) tr.
Proof.
  unfold build_support.
  destruct (Stdlib.Strings.String.eqb (language a) "cpp").
  2: { exists []. by rewrite app_nil_r. }
  rewrite bind_eq, print_eq, bind_eq, print_eq, build_support_files_eq. cbn zeta.
  assert (∀ a' k, Forall (λ ev, is_build_event ev = true)
                    (build_source_files a' (support_files_of a) (build_rtn E k)).1)
    as Hout.
  { intros a' k. eapply Forall_impl; [apply build_source_files_output|].
    intros ev Hev. by destruct ev. }
  set (first := build_source_files a (support_files_of a) _).
  set (second := build_source_files (set_use_pipe a false) (support_files_of a) _).
  pose proof (Hout a _ : Forall _ first.1) as Hfirst.
  pose proof (Hout (set_use_pipe a false) _ : Forall _ second.1) as Hsecond.
  set (tr1 := [EvPrint "building support files..."; EvPrint ""]
              ++ EvBuild (support_files_of a) :: first.1).
  set (tr2 := tr1 ++ [EvPrint "trying without `-pipe`..."; EvPrint ""]
              ++ EvBuild (support_files_of a) :: second.1).
  assert (Forall (λ ev, is_build_event ev = true) tr1) as Hall1.
  { unfold tr1. apply Forall_app. split; [by repeat constructor | by constructor]. }
  assert (Forall (λ ev, is_build_event ev = true) tr2) as Hall2.
  { unfold tr2. rewrite !Forall_app. repeat split;
      [done | by repeat constructor | by constructor]. }
  destruct first.2 as [e1|].
  - destruct (use_pipe a).
    + exists tr2. split; [|done].
      destruct second.2; cbn [snd trace next_build log builds]; unfold tr2, tr1;
        cbn [app]; by rewrite <- !app_assoc.
    + exists tr1. split; [|done].
      cbn [snd trace next_build log builds]. unfold tr1. cbn [app].
      by rewrite <- !app_assoc.
  - exists tr1. split; [|done].
    cbn [snd trace next_build log builds]. unfold tr1. cbn [app].
    by rewrite <- !app_assoc.
Qed.

Lemma build_and_finish_events a testcases s :
  let r := build_and_finish E a testcases s in
  ∃ tr, Forall (λ ev, is_build_event ev = true) tr ∧
        trace r.2 = trace s ++ tr
                    ++ match r.1 with
                       | Returned _ => [EvChdir (original_dir E)]
                       | _ => []
                       end.
Proof.
  cbn zeta. unfold build_and_finish. rewrite bind_eq.
  destruct (build_testcases E a testcases s) as [o s1] eqn:Hrun.
  apply build_testcases_build_events in Hrun as (tr & Htr & Hall).
  destruct o as [[]|e| |]; cbn [fst snd]; try (exists tr; by rewrite app_nil_r).
  exists (tr ++ [EvPrint "all testcases built."; EvPrint ""]). split.
  - apply Forall_app. split; [done|]. by repeat constructor.
  - rewrite bind_eq, print_eq, bind_eq, print_eq. unfold emit.
    cbn [fst snd trace log]. rewrite Htr. by rewrite <- !app_assoc.
Qed.

End AnyRun.

Section ScanEvents.
Context `{Platform}.
Variable files_regexp : string → bool.
Variables cwes_include cwes_exclude : gset string.
Variable for_gcc : bool.

Lemma visit_child_scan_events e :
  ∀ d, Forall (λ ev, is_print ev || is_listdir ev = true)
         (visit_child files_regexp cwes_include cwes_exclude for_gcc d e).1.
Proof.
  induction e as [c|c|child children IH] using entry_tree_ind; intros d.
  - rewrite visit_child_File. destruct (files_regexp c); [|constructor].
    destruct (Stdlib.Strings.String.eqb c gcc_excluded && for_gcc); by repeat constructor.
  - constructor.
  - rewrite visit_child_Dir.
    destruct (dirs_regexp_match child) as [g1|]; [|constructor].
    destruct (dir_decision g1 cwes_include cwes_exclude).1; [|constructor].
    cbn [fst]. unfold find_all_testcases_rec.
    assert (Forall (λ ev, is_print ev || is_listdir ev = true)
              (visit_children files_regexp cwes_include cwes_exclude for_gcc
                 (os_path_join d child) children).1) as Hall.
    { apply Forall_forall. intros ev (e & He & Hev)%elem_of_visit_children_events.
      rewrite Forall_forall in IH. specialize (IH e He (os_path_join d child)).
      rewrite Forall_forall in IH. by apply IH. }
    destruct (visit_children _ _ _ _ _ children) as [evs res]. cbn [fst snd] in *.
    destruct (dir_decision g1 cwes_include cwes_exclude).2.
    + apply Forall_app. split; [by constructor | by repeat constructor].
    + by constructor.
Qed.

Lemma find_all_testcases_rec_scan_events d l :
  Forall (λ ev, is_print ev || is_listdir ev = true)
    (find_all_testcases_rec files_regexp cwes_include cwes_exclude for_gcc d l).1.
Proof.
  unfold find_all_testcases_rec.
  assert (Forall (λ ev, is_print ev || is_listdir ev = true)
            (visit_children files_regexp cwes_include cwes_exclude for_gcc d l).1)
    as Hall.
  { apply Forall_forall. intros ev (e & He & Hev)%elem_of_visit_children_events.
    pose proof (visit_child_scan_events e d) as Hc.
    rewrite Forall_forall in Hc. by apply Hc. }
  destruct (visit_children _ _ _ _ _ l) as [evs res]. by constructor.
Qed.

End ScanEvents.

Lemma find_all_testcases_scan_events `{Platform} a listing :
  Forall (λ ev, is_print ev || is_listdir ev = true) (find_all_testcases a listing).1.
Proof.
  unfold find_all_testcases.
  destruct (Stdlib.Strings.String.eqb (language a) "cpp").
  - pose proof (find_all_testcases_rec_scan_events files_regexp_cpp
                  (cwes_set (cwes a)) (cwes_set (exclude a)) (for_gcc_of a)
                  (test_cases_dir a) listing) as Hall.
    destruct (find_all_testcases_rec _ _ _ _ _ _) as [evs res]. cbn [fst] in *.
    rewrite !Forall_app. repeat split; try done; by repeat constructor.
  - destruct (Stdlib.Strings.String.eqb (language a) "java"); [|by repeat constructor].
    pose proof (find_all_testcases_rec_scan_events files_regexp_java
                  (cwes_set (cwes a)) (cwes_set (exclude a)) (for_gcc_of a)
                  (test_cases_dir a) listing) as Hall.
    destruct (find_all_testcases_rec _ _ _ _ _ _) as [evs res]. cbn [fst] in *.
    rewrite !Forall_app. repeat split; try done; by repeat constructor.
Qed.

Lemma scan_testcases_scan_events `{Platform} a listing s :
  ∃ tr, trace (scan_testcases a listing s).2 = trace s ++ tr ∧
        Forall (λ ev, is_print ev || is_listdir ev = true) tr.
Proof.
  unfold scan_testcases. rewrite bind_eq, print_eq.
  pose proof (find_all_testcases_scan_events a listing) as Hall.
  destruct (find_all_testcases a listing) as [evs [e|testcases]]; cbn [fst] in Hall.
  - exists (EvPrint "scanning SAMATE test cases..." :: evs). split.
    + cbn [snd trace log]. by rewrite <- app_assoc.
    + by constructor.
  - destruct testcases as [|first rest].
    + eexists (_ :: evs ++ _). split.
      * cbn. rewrite <- !app_assoc. reflexivity.
      * constructor; [done|]. apply Forall_app. split; [done|]. by repeat constructor.
    + eexists (_ :: evs ++ _). split.
      * cbn. rewrite <- !app_assoc. reflexivity.
      * constructor; [done|]. apply Forall_app. split; [done|]. by repeat constructor.
Qed.


(** ** The options and the directories *)

Lemma truthy_Some_nonempty (s : string) : truthy (Some s) = true ↔ s ≠ "".
Proof. destruct s; cbn; split; done. Qed.

Lemma locate_inr h name msg path :
  locate h name msg = inr path → path = which h name ∧ truthy path = true.
Proof.
  unfold locate. destruct (truthy (which h name)) eqn:Ht; [|done].
  by intros [= <-].
Qed.

Lemma locate_inl h name msg e :
  locate h name msg = inl e → e = Exception msg ∧ truthy (which h name) = false.
Proof.
  unfold locate. destruct (truthy (which h name)) eqn:Ht; [done|].
  by intros [= <-].
Qed.

Lemma language_root_of_cpp `{Platform} h samate_dir :
  language_root_of h "cpp" samate_dir =
    inr (if isdir h (os_path_join samate_dir "C")
         then os_path_join samate_dir "C" else samate_dir).
Proof.
  unfold language_root_of.
  cbn [Stdlib.Strings.String.eqb Stdlib.Strings.Ascii.eqb Bool.eqb].
  by destruct (isdir h (os_path_join samate_dir "C")).
Qed.

(** What [setup] has checked when it returns. *)
Lemma setup_inr `{Platform} h cpu_count o ns :
  setup h cpu_count o = inr ns →
  isdir h (abspath h (opt_samate o)) = true ∧
  language_root_of h (opt_language o) (abspath h (opt_samate o))
    = inr (ns_language_root ns) ∧
  isdir h (ns_language_root ns) = true ∧
  isdir h (os_path_join (ns_language_root ns) "testcases") = true ∧
  isdir h (os_path_join (ns_language_root ns) "testcasesupport") = true ∧
  (ensure_object_dir h (os_path_join (abspath h (opt_output o)) "object")).2 = true ∧
  locate_tools h (opt_language o) (default (default_gcc (system h)) (opt_gcc o)) (opt_cl o)
    = inr (ns_gcc_path ns, ns_cl_path ns, ns_ant_path ns) ∧
  ns = {| ns_language := opt_language o;
          ns_samate_dir := abspath h (opt_samate o);
          ns_output_dir := abspath h (opt_output o);
          ns_cwes := opt_cwes o;
          ns_exclude := opt_exclude o;
          ns_cases := default "both" (opt_cases o);
          ns_threads := default (default_threads cpu_count) (opt_threads o);
          ns_gcc := default (default_gcc (system h)) (opt_gcc o);
          ns_cl := opt_cl o;
          ns_language_root := ns_language_root ns;
          ns_test_cases_dir := os_path_join (ns_language_root ns) "testcases";
          ns_test_cases_support_dir :=
            os_path_join (ns_language_root ns) "testcasesupport";
          ns_object_dir := os_path_join (abspath h (opt_output o)) "object";
          ns_gcc_path := ns_gcc_path ns;
          ns_cl_path := ns_cl_path ns;
          ns_ant_path := ns_ant_path ns |}.
Proof.
  unfold setup.
  destruct (isdir h (abspath h (opt_samate o))); [|done]. cbn [negb].
  destruct (language_root_of h (opt_language o) (abspath h (opt_samate o)))
    as [e|language_root]; [done|].
  destruct (isdir h language_root) eqn:Hroot; [|done]. cbn [negb].
  destruct (isdir h (os_path_join language_root "testcases")) eqn:Htc; [|done].
  cbn [negb].
  destruct (isdir h (os_path_join language_root "testcasesupport")) eqn:Hsup; [|done].
  cbn [negb].
  destruct (ensure_object_dir h _).2 eqn:Hobj; [|done]. cbn [negb].
  destruct (locate_tools h (opt_language o) _ (opt_cl o)) as [e|[[g c] t]]; [done|].
  intros [= <-]. cbn. by rewrite Hroot, Htc, Hsup.
Qed.

Lemma ensure_object_dir_fails h object_dir :
  (ensure_object_dir h object_dir).2 = false ↔
  isdir_after_rmtree h object_dir = false ∧ makedirs_succeeds h object_dir = false.
Proof.
  unfold ensure_object_dir. destruct (isdir_after_rmtree h object_dir); cbn.
  - split; [done | by intros [? _]].
  - split; [done | by intros [_ ?]].
Qed.

Lemma locate_tools_cpp h gcc cl r :
  locate_tools h "cpp" gcc cl = r →
  r = match (if truthy (Some gcc) then locate h gcc "Could not locate gcc."
             else inr None) with
      | inl e => inl e
      | inr gcc_path =>
          match (if truthy cl then locate h (default "" cl) "Could not locate cl."
                 else inr None) with
          | inl e => inl e
          | inr cl_path => inr (gcc_path, cl_path, None)
          end
      end.
Proof.
  intros <-. unfold locate_tools.
  cbn [Stdlib.Strings.String.eqb Stdlib.Strings.Ascii.eqb Bool.eqb].
  destruct (if truthy (Some gcc) then _ else _) as [e|g]; [done|].
  by destruct (if truthy cl then _ else _) as [e|c].
Qed.

Lemma locate_tools_java h gcc cl :
  locate_tools h "java" gcc cl =
    match locate h "ant" "Could not locate ant." with
    | inl e => inl e
    | inr ant_path => inr (None, None, ant_path)
    end.
Proof. done. Qed.

(** * The discovery: main results *)

(** C1. A directory whose name is a category name with identifier [id]
    is recursed into exactly when the include set is empty or holds [id],
    and the exclude set does not hold [id]; an identifier in both sets is
    not recursed into, and the directory then adds nothing. *)
Theorem category_dir_recursed_iff `{Platform} (files_regexp : string → bool)
    (cwes_include cwes_exclude : gset string) (for_gcc : bool)
    (search_dir child id : string) (children : list entry) :
  is_category_name child id →
  (recursed_into files_regexp cwes_include cwes_exclude for_gcc search_dir
     (Dir child children)
   ↔ (cwes_include = ∅ ∨ id ∈ cwes_include) ∧ id ∉ cwes_exclude)
  ∧ (id ∈ cwes_include → id ∈ cwes_exclude →
     visit_child files_regexp cwes_include cwes_exclude for_gcc search_dir
       (Dir child children) = ([], []))
  ∧ ((cwes_include = ∅ ∨ id ∈ cwes_include) ∧ id ∉ cwes_exclude →
     let r := find_all_testcases_rec files_regexp cwes_include cwes_exclude for_gcc
                (os_path_join search_dir child) children in
     visit_child files_regexp cwes_include cwes_exclude for_gcc search_dir
       (Dir child children) = (r.1 ++ [found_line (Some id) r.2], r.2)).
Proof.
  intros Hcat. pose proof Hcat as Hm.
  apply dirs_regexp_match_category in Hm.
  pose proof (dirs_regexp_match_truthy _ _ Hm) as Ht.
  pose proof (dir_decision_category cwes_include cwes_exclude id Ht) as Hdec.
  split; [|split].
  - by apply recursed_into_category.
  - intros Hi Hx. rewrite visit_child_Dir, Hm.
    destruct (dir_decision (Some id) cwes_include cwes_exclude).1 eqn:Hd; [|done].
    apply (dir_decision_category _ _ _ Ht) in Hd as [_ Hd]. done.
  - intros Hcond r. apply Hdec in Hcond.
    rewrite visit_child_Dir, Hm, Hcond.
    by rewrite (dir_decision_report_category _ _ _ Ht Hcond).
Qed.

Lemma category_dir_recursed_iff_witness :
  recursed_into files_regexp_cpp {["120"]} {["190"]} true "/t"
    (Dir "CWE120_Buffer_Overflow" [File "CWE120_bad.cpp"])
  ↔ (({["120"]} : gset string) = ∅ ∨ "120" ∈ ({["120"]} : gset string))
    ∧ "120" ∉ ({["190"]} : gset string).
Proof.
  apply (category_dir_recursed_iff files_regexp_cpp {["120"]} {["190"]} true "/t"
           "CWE120_Buffer_Overflow" "120" [File "CWE120_bad.cpp"]).
  split; [done|]. split; [done|]. by exists "Buffer_Overflow".
Defined.

(** C7, at a name outside both patterns. The directory name
    [s1] followed by a newline is no category name and no subdivision
    name, yet [re.match] accepts it for [dirs_exp], and discovery recurses
    into it for every include and exclude set: [$] in [s[0-9]+$] also
    matches before a final newline. *)
Theorem newline_dir_recursed :
  (∀ id, ¬ is_category_name newline_dir id) ∧
  ¬ is_subdivision_name newline_dir ∧
  re_match dirs_re newline_dir None ∧
  ∀ `{Platform} files_regexp cwes_include cwes_exclude for_gcc search_dir children,
    recursed_into files_regexp cwes_include cwes_exclude for_gcc search_dir
      (Dir newline_dir children).
Proof.
  split; [|split; [|split]].
  - intros id (_ & _ & suffix & Heq). inversion Heq.
  - intros (ds & _ & Hd & Heq).
    change ("s" +:+ ds) with (String "s" ds) in Heq.
    injection Heq as Heq. subst ds. vm_compute in Hd. done.
  - by apply dirs_regexp_match_correct.
  - intros. apply recursed_into_Dir. by exists None.
Qed.

(** C10. Include and exclude entries are compared as text with the
    digits of the directory name: an entry with a leading zero neither
    selects nor excludes [CWE78_...], and the entry [78] neither selects
    nor excludes [CWE078_...]. *)
Theorem cwe_membership_is_textual `{Platform} (files_regexp : string → bool)
    (for_gcc : bool) (search_dir e suffix : string) (children : list entry) :
  leading_zero e →
  no_comma e = true →
  ¬ recursed_into files_regexp (cwes_set (Some e)) (cwes_set None) for_gcc search_dir
      (Dir ("CWE78_" +:+ suffix) children)
  ∧ recursed_into files_regexp (cwes_set None) (cwes_set (Some e)) for_gcc search_dir
      (Dir ("CWE78_" +:+ suffix) children)
  ∧ ¬ recursed_into files_regexp (cwes_set (Some "78")) (cwes_set None) for_gcc search_dir
      (Dir ("CWE078_" +:+ suffix) children)
  ∧ recursed_into files_regexp (cwes_set None) (cwes_set (Some "78")) for_gcc search_dir
      (Dir ("CWE078_" +:+ suffix) children).
Proof.
  intros [r ->] Hc.
  assert (is_category_name ("CWE78_" +:+ suffix) "78") as H78
    by (split; [done|]; split; [done|]; by exists suffix).
  assert (is_category_name ("CWE078_" +:+ suffix) "078") as H078
    by (split; [done|]; split; [done|]; by exists suffix).
  rewrite (cwes_set_single ("0" +:+ r)), (cwes_set_single "78"), cwes_set_None by done.
  split; [|split; [|split]].
  - intros Hr.
    apply (recursed_into_category _ _ _ _ _ _ _ _ H78) in Hr as [[He | Hi] _].
    + by apply non_empty_singleton_L in He.
    + apply elem_of_singleton in Hi. done.
  - apply (recursed_into_category _ _ _ _ _ _ _ _ H78).
    split; [by left|]. intros Hi. apply elem_of_singleton in Hi. done.
  - intros Hr.
    apply (recursed_into_category _ _ _ _ _ _ _ _ H078) in Hr as [[He | Hi] _].
    + by apply non_empty_singleton_L in He.
    + apply elem_of_singleton in Hi. done.
  - apply (recursed_into_category _ _ _ _ _ _ _ _ H078).
    split; [by left|]. intros Hi. apply elem_of_singleton in Hi. done.
Qed.

Lemma cwe_membership_is_textual_witness :
  ¬ recursed_into files_regexp_cpp (cwes_set (Some "078")) (cwes_set None) true "/t"
      (Dir ("CWE78_" +:+ "OS_Command_Injection") [])
  ∧ recursed_into files_regexp_cpp (cwes_set None) (cwes_set (Some "078")) true "/t"
      (Dir ("CWE78_" +:+ "OS_Command_Injection") [])
  ∧ ¬ recursed_into files_regexp_cpp (cwes_set (Some "78")) (cwes_set None) true "/t"
      (Dir ("CWE078_" +:+ "OS_Command_Injection") [])
  ∧ recursed_into files_regexp_cpp (cwes_set None) (cwes_set (Some "78")) true "/t"
      (Dir ("CWE078_" +:+ "OS_Command_Injection") []).
Proof.
  apply (cwe_membership_is_textual files_regexp_cpp true "/t" "078"
           "OS_Command_Injection" []).
  - by exists "78".
  - reflexivity.
Defined.

(** C6. For the language [cpp], when the file
    [CWE397_Throw_Generic_Exception__declare_dotdotdot_w32_01.cpp] lies in
    a directory the run visits: without [--cl] (gcc) the run prints the
    line that tells why it is left out and no result comes from a file of
    that name; with [--cl] its path is among the results. *)
Theorem hard_excluded_file `{Platform} (a : args) (listing : list entry)
    (d : string) (l : list entry) :
  language a = "cpp" →
  visited (cwes_set (cwes a)) (cwes_set (exclude a)) (test_cases_dir a) listing d l →
  File gcc_excluded ∈ l →
  ∃ evs results,
    find_all_testcases a listing = (evs, inr results) ∧
    if truthy (cl a) then
      os_path_join d gcc_excluded ∈ results
    else
      excluding_line gcc_excluded ∈ evs ∧
      ∀ p, p ∈ results →
        ∃ d' l' c,
          visited (cwes_set (cwes a)) (cwes_set (exclude a)) (test_cases_dir a) listing d' l' ∧
          File c ∈ l' ∧ c ≠ gcc_excluded ∧ p = os_path_join d' c.
Proof.
  intros Hlang Hv Hin. unfold find_all_testcases. rewrite Hlang.
  cbn [Stdlib.Strings.String.eqb Stdlib.Strings.Ascii.eqb Bool.eqb].
  unfold find_all_testcases_rec.
  destruct (visit_children files_regexp_cpp (cwes_set (cwes a)) (cwes_set (exclude a))
              (for_gcc_of a) (test_cases_dir a) listing) as [evs results] eqn:Hl.
  eexists _, results. split; [reflexivity|].
  unfold for_gcc_of in Hl. destruct (truthy (cl a)); cbn [negb] in Hl.
  - change results with (evs, results).2. rewrite <- Hl.
    by apply (visited_file_result _ _ _ _ _ _ d l).
  - split.
    + apply elem_of_app; right. apply elem_of_app; right. apply elem_of_cons; right.
      change evs with (evs, results).1. rewrite <- Hl.
      by apply (visited_file_excluded _ _ _ _ _ _ d l).
    + intros p Hp. change results with (evs, results).2 in Hp. rewrite <- Hl in Hp.
      apply results_provenance in Hp as (d' & l' & c & Hv' & Hin' & -> & _ & Hx).
      exists d', l', c. split; [done|]. split; [done|]. split; [|done].
      intros ->. by rewrite Stdlib.Strings.String.eqb_refl in Hx.
Qed.

Lemma hard_excluded_file_witness :
  ∃ evs results,
    find_all_testcases gcc_args excluded_tree = (evs, inr results) ∧
    if truthy (cl gcc_args) then
      os_path_join (os_path_join "/t" "CWE397_Throw_Generic_Exception") gcc_excluded
        ∈ results
    else
      excluding_line gcc_excluded ∈ evs ∧
      ∀ p, p ∈ results →
        ∃ d' l' c,
          visited (cwes_set (cwes gcc_args)) (cwes_set (exclude gcc_args))
            (test_cases_dir gcc_args) excluded_tree d' l' ∧
          File c ∈ l' ∧ c ≠ gcc_excluded ∧ p = os_path_join d' c.
Proof.
  apply (hard_excluded_file gcc_args excluded_tree
           (os_path_join "/t" "CWE397_Throw_Generic_Exception")
           [ File gcc_excluded;
             File "CWE397_Throw_Generic_Exception__throw_exception_01.cpp" ]).
  - reflexivity.
  - apply (visited_sub _ _ _ _ "/t" excluded_tree "CWE397_Throw_Generic_Exception"
             _ (Some "397")).
    + apply visited_root.
    + apply list_elem_of_here.
    + reflexivity.
    + reflexivity.
  - apply list_elem_of_here.
Defined.

(** * The thread pool: main results *)

(** C9. In a pool of [threads] slots, at least one, whatever jobs are
    started and however their threads move on, the number of jobs inside
    [job.do()] never exceeds [threads]. *)
Theorem executing_bounded {job : Type} (threads : nat) (self : Jobs job) :
  1 ≤ threads → reachable threads self → executing self ≤ threads.
Proof.
  intros _ Hr. pose proof (reachable_slots threads self Hr).
  pose proof (executing_le_holding self). lia.
Qed.

Lemma busy_pool_reachable : reachable 2 busy_pool.
Proof.
  unfold reachable.
  eapply rtc_l; [by apply (step_start _ 1 _)|].
  eapply rtc_l; [by apply (step_start _ 2 _)|].
  apply rtc_refl.
Defined.

Lemma executing_bounded_witness : executing busy_pool ≤ 2.
Proof.
  apply (executing_bounded 2 busy_pool); [lia | apply busy_pool_reachable].
Defined.

(** C4. In a state the pool can reach: [wait_jobs] comes back only
    when every job has ended; it then returns without an exception exactly
    when no job has failed, and otherwise prints the number of failed jobs
    and raises.  So when every job has ended and none has failed,
    [wait_jobs] returns without an exception; when every job has ended and
    one has failed, [errors] holds one exception and [wait_jobs] prints
    the count 1 and raises; from the moment a job that failed has ended,
    [has_errors] is true for good.  The threads of the jobs can always run
    to their ends. *)
Theorem wait_jobs_reports `{Platform} {job : Type} (threads : nat) (self : Jobs job) :
  reachable threads self →
  (∀ r, wait_jobs self = Some r → all_done self)
  ∧ (∀ evs, wait_jobs self = Some (evs, None) → failures self = 0)
  ∧ (∀ evs e, wait_jobs self = Some (evs, Some e) →
     0 < failures self ∧
     e = Exception "Exception in thread(s)." ∧
     evs = [EvPrint ("*** exceptions occurred in " +:+ str_nat (failures self)
                     +:+ " threads:");
            EvPrint (str_of_exns (errors self));
            EvPrint ""])
  ∧ (all_done self → failures self = 0 → wait_jobs self = Some ([], None))
  ∧ (all_done self → failures self = 1 →
     length (errors self) = 1 ∧
     wait_jobs self =
       Some ([EvPrint ("*** exceptions occurred in " +:+ str_nat 1 +:+ " threads:");
              EvPrint (str_of_exns (errors self));
              EvPrint ""],
             Some (Exception "Exception in thread(s).")))
  ∧ (∀ t, t ∈ outstanding_jobs self → has_failed t = true →
     ∀ self', rtc step self self' → has_errors self' = true)
  ∧ (∃ self', rtc thread_step self self' ∧ all_done self').
Proof.
  intros Hr. pose proof (reachable_errors threads self Hr) as Herr.
  assert (∀ r, wait_jobs self = Some r →
               all_done self ∧ length (errors self) = failures self) as Hback.
  { intros r Hw. unfold wait_jobs in Hw.
    destruct (forallb is_dead (outstanding_jobs self)) eqn:Hdead; [|done].
    apply all_done_forallb in Hdead. split; [done|].
    by rewrite Herr, (all_done_recorded self Hdead). }
  split; [|split; [|split; [|split; [|split; [|split]]]]].
  - intros r Hw. by apply (Hback r).
  - intros evs Hw. destruct (Hback _ Hw) as [Hdone <-].
    apply wait_jobs_done_cases in Hw. by destruct Hw as [_ ?].
  - intros evs e Hw. destruct (Hback _ Hw) as [Hdone Hlen].
    apply wait_jobs_done_cases in Hw. destruct Hw as (Hpos & -> & ->).
    rewrite <- Hlen. done.
  - intros Hdone Hf. rewrite (all_done_recorded self Hdone), Hf in Herr.
    unfold wait_jobs. apply all_done_forallb in Hdone. by rewrite Hdone, Herr.
  - intros Hdone Hf. rewrite (all_done_recorded self Hdone), Hf in Herr.
    split; [done|]. unfold wait_jobs. apply all_done_forallb in Hdone.
    by rewrite Hdone, Herr.
  - intros t Ht Hfail self' Hsteps. apply (rtc_step_has_errors self self' Hsteps).
    apply (recorded_has_errors threads self t Hr Ht).
    unfold has_failed, has_recorded in *. by destruct (th_pc t) as [| | |[]].
  - apply threads_finish.
Qed.

Lemma failed_pool_reachable : reachable 1 failed_pool.
Proof.
  unfold reachable.
  eapply rtc_l; [by apply (step_start _ 1 _)|].
  eapply rtc_l; [by apply (step_thread _ 0 (Some (Exception "failed")) _)|].
  eapply rtc_l; [by apply (step_thread _ 0 None _)|].
  eapply rtc_l; [by apply (step_thread _ 0 None _)|].
  apply rtc_refl.
Defined.

Lemma wait_jobs_reports_witness :
  (∀ r, wait_jobs failed_pool = Some r → all_done failed_pool)
  ∧ (∀ evs, wait_jobs failed_pool = Some (evs, None) → failures failed_pool = 0)
  ∧ (∀ evs e, wait_jobs failed_pool = Some (evs, Some e) →
     0 < failures failed_pool ∧
     e = Exception "Exception in thread(s)." ∧
     evs = [EvPrint ("*** exceptions occurred in " +:+ str_nat (failures failed_pool)
                     +:+ " threads:");
            EvPrint (str_of_exns (errors failed_pool));
            EvPrint ""])
  ∧ (all_done failed_pool → failures failed_pool = 0 →
     wait_jobs failed_pool = Some ([], None))
  ∧ (all_done failed_pool → failures failed_pool = 1 →
     length (errors failed_pool) = 1 ∧
     wait_jobs failed_pool =
       Some ([EvPrint ("*** exceptions occurred in " +:+ str_nat 1 +:+ " threads:");
              EvPrint (str_of_exns (errors failed_pool));
              EvPrint ""],
             Some (Exception "Exception in thread(s).")))
  ∧ (∀ t, t ∈ outstanding_jobs failed_pool → has_failed t = true →
     ∀ self', rtc step failed_pool self' → has_errors self' = true)
  ∧ (∃ self', rtc thread_step failed_pool self' ∧ all_done self').
Proof.
  apply (wait_jobs_reports 1 failed_pool). apply failed_pool_reachable.
Defined.

(** * The build: main results *)

(** C2. For the language [cpp] and at least one thread, a run of the
    build of the test cases that returns -- which it does only when no
    batch fails -- has dispatched [ceil(N / max(1, min(50, round(N / C))))]
    batches, and the batches, in the order of their dispatch, make up the
    list of test cases.  When the configuration can be built there is
    such a run. *)
Theorem batches_cover_testcases `{Platform} (E : env) (a : args)
    (testcases : list string) (s : state) :
  (1 <= threads a)%Z →
  language a ≠ "java" →
  let N := Z.of_nat (length testcases) in
  let C := threads a in
  (∀ u s', build_testcases E a testcases s = (Returned u, s') →
     ∃ tr, trace s' = trace s ++ tr ∧
           Z.of_nat (length (dispatched tr))
             = ceil_div N (Z.max 1 (Z.min 50 (round_div N C))) ∧
           concat (dispatched tr) = testcases)
  ∧ (buildable a →
     ∃ E' s', build_testcases E' a testcases s = (Returned tt, s')).
Proof.
  intros Ht Hlang N C. split.
  - intros u s' Hrun.
    destruct (build_testcases_batches E a testcases s u s' Hrun)
      as (tr & Htr & Hlen & Hcat).
    exists tr. split; [done|]. split; [|done]. rewrite Hlen. unfold chunk_max_of.
    destruct (Stdlib.Strings.String.eqb_spec (language a) "java"); done.
  - intros Hb. exists (quiet_env (S (length testcases))).
    by apply build_testcases_quiet.
Qed.

Lemma batches_cover_testcases_witness :
  let N := Z.of_nat (length five_testcases) in
  let C := threads gcc_args in
  (∀ u s', build_testcases (quiet_env 6) gcc_args five_testcases state_init
             = (Returned u, s') →
     ∃ tr, trace s' = trace state_init ++ tr ∧
           Z.of_nat (length (dispatched tr))
             = ceil_div N (Z.max 1 (Z.min 50 (round_div N C))) ∧
           concat (dispatched tr) = five_testcases)
  ∧ (buildable gcc_args →
     ∃ E' s', build_testcases E' gcc_args five_testcases state_init = (Returned tt, s')).
Proof.
  apply (batches_cover_testcases (quiet_env 6) gcc_args five_testcases state_init).
  - vm_compute. discriminate.
  - discriminate.
Defined.

(** C3, on a run in which the pool reports an error. With two threads and
    two test cases, when the first job fails before the check: the check
    [has_errors] answers true and leaves the loop before [chunk] is
    emptied, and the remainder step hands the same batch to [start_job]
    once more. *)
Theorem start_job_after_has_errors :
  let r := main first_job_fails sample_args sample_tree in
  r.1 = Raised (Exception "Exception in thread(s).") ∧
  pool_calls (trace r.2) =
    [ EvStartJob ["/t/CWE120_Buffer_Overflow/s01/CWE120_bad.cpp"];
      EvHasErrors true;
      EvStartJob ["/t/CWE120_Buffer_Overflow/s01/CWE120_bad.cpp"] ].
Proof. vm_compute. done. Qed.

(** C5. For the language [cpp], from [# start building]
    on: when the first build of the support files succeeds the run goes
    on to the build of the test cases; when it fails and [-pipe] is in use
    (gcc), [-pipe] is dropped and the build is tried once more, after
    which the run goes on to the test cases if that build succeeds and
    ends with its exception if it fails; when it fails and [-pipe] is not
    in use ([--cl]), the run ends with the exception of the first build. *)
Theorem support_build_retry `{Platform} (E : env) (a : args)
    (testcases : list string) (s : state) :
  language a = "cpp" →
  let files := support_files_of a in
  let s1 := log (log (log s [EvChdir (object_dir a)])
                     [EvPrint "building support files..."])
                [EvPrint ""] in
  let first := build_source_files a files (build_rtn E (builds s)) in
  let second := build_source_files (set_use_pipe a false) files
                  (build_rtn E (S (builds s))) in
  let s2 := next_build (log s1 (EvBuild files :: first.1)) in
  let s3 := next_build (log (log (log s2 [EvPrint "trying without `-pipe`..."])
                                 [EvPrint ""])
                            (EvBuild files :: second.1)) in
  build_all E a testcases s =
    match first.2 with
    | None => build_and_finish E a testcases s2
    | Some e1 =>
        if use_pipe a then
          match second.2 with
          | None => build_and_finish E (set_use_pipe a false) testcases s3
          | Some e2 => (Raised e2, s3)
          end
        else (Raised e1, s2)
    end.
Proof.
  intros Hlang. cbn zeta. unfold build_all, build_support. rewrite Hlang.
  cbn [Stdlib.Strings.String.eqb Stdlib.Strings.Ascii.eqb Bool.eqb].
  rewrite bind_eq. unfold emit at 1. rewrite bind_eq, bind_eq, print_eq, bind_eq, print_eq.
  rewrite build_support_files_eq. cbn zeta. cbn [builds log].
  destruct (build_source_files a (support_files_of a) (build_rtn E (builds s))).2
    as [e1|]; [|done].
  destruct (use_pipe a); [|done].
  by destruct (build_source_files (set_use_pipe a false) (support_files_of a)
                 (build_rtn E (S (builds s)))).2.
Qed.

Lemma support_build_retry_witness :
  let files := support_files_of gcc_args in
  let s1 := log (log (log state_init [EvChdir (object_dir gcc_args)])
                     [EvPrint "building support files..."])
                [EvPrint ""] in
  let first := build_source_files gcc_args files (build_rtn all_fail (builds state_init)) in
  let second := build_source_files (set_use_pipe gcc_args false) files
                  (build_rtn all_fail (S (builds state_init))) in
  let s2 := next_build (log s1 (EvBuild files :: first.1)) in
  let s3 := next_build (log (log (log s2 [EvPrint "trying without `-pipe`..."])
                                 [EvPrint ""])
                            (EvBuild files :: second.1)) in
  build_all all_fail gcc_args five_testcases state_init =
    match first.2 with
    | None => build_and_finish all_fail gcc_args five_testcases s2
    | Some e1 =>
        if use_pipe gcc_args then
          match second.2 with
          | None => build_and_finish all_fail (set_use_pipe gcc_args false) five_testcases s3
          | Some e2 => (Raised e2, s3)
          end
        else (Raised e1, s2)
    end.
Proof.
  apply (support_build_retry all_fail gcc_args five_testcases state_init).
  reflexivity.
Defined.

(** C5 with [--cl]. The first build of the support files fails and the
    run ends there, with the exception of that build: one build, no second
    attempt. *)
Lemma support_build_cl_no_retry :
  (main all_fail cl_args excluded_tree).1
    = Raised (Exception "Build '/s/std_thread.c' failed.")
  ∧ builds (main all_fail cl_args excluded_tree).2 = 1.
Proof. vm_compute. done. Qed.

(** C8. With a number of threads below 1 the run always ends with an
    exception and never calls the pool; when the scan and the build of the
    support files return and the number of CPUs is known, the run prints
    the headline of the build of the test cases and ends with the
    exception for [threads]. *)
Theorem nonpositive_threads `{Platform} (E : env) (a0 : args) (listing : list entry) :
  (threads a0 < 1)%Z →
  let a := set_use_pipe a0 (negb (truthy (cl a0))) in
  (∃ e, (main E a0 listing).1 = Raised e)
  ∧ ops (main E a0 listing).2 = 0
  ∧ (∀ testcases s1 a' s2 cpus,
       scan_testcases a listing state_init = (Returned testcases, s1) →
       build_support E a (log s1 [EvChdir (object_dir a)]) = (Returned a', s2) →
       cpu_count E = Some cpus →
       main E a0 listing =
         (Raised (Exception "'threads' argument is non-positive."),
          log (log s2 [EvPrint (building_line a' cpus)]) [EvPrint ""])).
Proof.
  intros Ht a. rewrite main_eq. cbn zeta. fold a.
  destruct (scan_testcases_cases a listing state_init)
    as (s1 & Hops1 & _ & [[testcases Hscan] | [e Hscan]]); rewrite Hscan.
  - destruct (build_support_cases E a (log s1 [EvChdir (object_dir a)]))
      as (s2 & Hops2 & [(a' & Hsup & Hthreads) | [e Hsup]]); rewrite Hsup.
    + assert (threads a' < 1)%Z as Ht' by (rewrite Hthreads; done).
      rewrite (build_and_finish_nonpositive E a' testcases s2 Ht').
      split; [|split].
      * destruct (cpu_count E); eauto.
      * destruct (cpu_count E); cbn [snd ops log]; rewrite Hops2; done.
      * intros ? ? ? ? cpus [= <- <-] Hsup'. rewrite Hsup in Hsup'.
        injection Hsup' as <- <-. intros ->. done.
    + split; [eauto|]. split; [cbn [snd]; rewrite Hops2; done|].
      intros ? ? ? ? cpus [= <- <-] Hsup'. rewrite Hsup in Hsup'. done.
  - split; [eauto|]. split; [done|]. intros ? ? ? ? cpus [=].
Qed.

Lemma nonpositive_threads_witness :
  (∃ e, (main (quiet_env 3) zero_threads_args sample_tree).1 = Raised e)
  ∧ ops (main (quiet_env 3) zero_threads_args sample_tree).2 = 0
  ∧ (∀ testcases s1 a' s2 cpus,
       scan_testcases (set_use_pipe zero_threads_args
                         (negb (truthy (cl zero_threads_args))))
         sample_tree state_init = (Returned testcases, s1) →
       build_support (quiet_env 3)
         (set_use_pipe zero_threads_args (negb (truthy (cl zero_threads_args))))
         (log s1 [EvChdir (object_dir (set_use_pipe zero_threads_args
                                         (negb (truthy (cl zero_threads_args)))))])
         = (Returned a', s2) →
       cpu_count (quiet_env 3) = Some cpus →
       main (quiet_env 3) zero_threads_args sample_tree =
         (Raised (Exception "'threads' argument is non-positive."),
          log (log s2 [EvPrint (building_line a' cpus)]) [EvPrint ""])).
Proof.
  apply (nonpositive_threads (quiet_env 3) zero_threads_args sample_tree).
  vm_compute. reflexivity.
Defined.

(** C8 with [threads = 0]. The run ends with the exception for
    [threads] only after it has listed the directories of the test cases
    and started the compiler on the support files. *)
Lemma nonpositive_threads_after_scan_and_build :
  let r := main (quiet_env 3) zero_threads_args sample_tree in
  r.1 = Raised (Exception "'threads' argument is non-positive.") ∧
  existsb is_listdir (trace r.2) = true ∧
  existsb is_call (trace r.2) = true.
Proof. vm_compute. done. Qed.

(** * The discovery: further results *)

(** X1. For the language [java], [re.match] accepts a file name for
    [files_exp] exactly when the name is [build.xml], or [build.xml]
    followed by a newline: [re.match] looks for the pattern at the start
    of the name only, although [files_exp] has no [^]. *)
Theorem java_build_file_names (child : string) :
  (∃ g, re_match files_re_java child g)
  ↔ child = "build.xml" ∨ child = "build.xml" +:+ String newline "".
Proof.
  rewrite files_regexp_java_correct. unfold files_regexp_java.
  destruct (strip_prefix "build.xml" child) as [r|] eqn:Hp.
  - apply strip_prefix_Some in Hp as ->. rewrite at_dollar_spec. split.
    + intros [-> | ->]; [by left | by right].
    + intros [Heq | Heq].
      * left. apply (string_app_inj_l "build.xml"). by rewrite append_nil_r.
      * right. by apply (string_app_inj_l "build.xml").
  - split; [done|]. intros [-> | ->]; done.
Qed.

(** X2. For the language [cpp], [re.match] accepts a file name for
    [files_exp] exactly when the name reads [CWE], one or more digits, an
    underscore, any run of characters other than newlines, a dot and [c]
    or [cpp], and ends there or with one newline after it. *)
Theorem cpp_source_file_names (child : string) :
  (∃ g, re_match files_re_cpp child g)
  ↔ ∃ id x ext t,
      child = "CWE" +:+ id +:+ "_" +:+ x +:+ "." +:+ ext +:+ t ∧
      id ≠ "" ∧ all_digits id = true ∧
      string_forall not_newline x = true ∧
      (ext = "c" ∨ ext = "cpp") ∧
      (t = "" ∨ t = String newline "").
Proof.
  rewrite files_regexp_cpp_correct. unfold files_regexp_cpp. split.
  - destruct (match_cwe_prefix child) as [[id rest]|] eqn:Hp; [|done].
    apply match_cwe_prefix_Some in Hp as (Hne & Hd & ->).
    intros (x & ext & t & -> & Hx & Hext & Ht)%match_dot_c_spec.
    apply at_dollar_spec in Ht. by exists id, x, ext, t.
  - intros (id & x & ext & t & -> & Hne & Hd & Hx & Hext & Ht).
    assert (match_cwe_prefix ("CWE" +:+ id +:+ "_" +:+ x +:+ "." +:+ ext +:+ t)
            = Some (id, x +:+ "." +:+ ext +:+ t)) as ->
      by (by apply match_cwe_prefix_Some).
    apply match_dot_c_spec. exists x, ext, t. by rewrite at_dollar_spec.
Qed.

(** X3. [re.match] accepts a directory name for [dirs_exp] exactly
    when the name is a category name, and group 1 is then its identifier,
    or the name is a subdivision name, maybe followed by one newline, and
    group 1 is then not set.  A name has at most one identifier. *)
Theorem dir_names_matched (child : string) (g : option string) :
  (re_match dirs_re child g ↔
     (∃ id, g = Some id ∧ is_category_name child id) ∨
     (g = None ∧
      (is_subdivision_name child ∨
       ∃ child', is_subdivision_name child' ∧ child = child' +:+ String newline "")))
  ∧ (∀ id id', is_category_name child id → is_category_name child id' → id = id').
Proof.
  split; [|apply is_category_name_unique].
  rewrite dirs_regexp_match_correct. split; [apply dirs_regexp_match_cases|].
  intros [(id & -> & Hcat) | [-> Hsub]].
  - by apply dirs_regexp_match_category.
  - by apply dirs_regexp_match_subdivision.
Qed.

(** X4. A subdivision directory is entered whatever the include and
    exclude sets hold, and nothing is printed for it: what it adds is what
    [find_all_testcases_rec] gives for it. *)
Theorem subdivision_dir_entered `{Platform} (files_regexp : string → bool)
    (cwes_include cwes_exclude : gset string) (for_gcc : bool)
    (search_dir child : string) (children : list entry) :
  is_subdivision_name child →
  visit_child files_regexp cwes_include cwes_exclude for_gcc search_dir
    (Dir child children)
  = find_all_testcases_rec files_regexp cwes_include cwes_exclude for_gcc
      (os_path_join search_dir child) children.
Proof.
  intros Hsub.
  assert (dirs_regexp_match child = Some None) as Hm
    by (apply dirs_regexp_match_subdivision; by left).
  rewrite visit_child_Dir, Hm, dir_decision_subdivision. cbn [fst snd].
  by destruct (find_all_testcases_rec _ _ _ _ _ _).
Qed.

Lemma subdivision_dir_entered_witness :
  visit_child files_regexp_cpp {["120"]} {["190"]} true "/t"
    (Dir "s01" [File "CWE190_x.cpp"])
  = find_all_testcases_rec files_regexp_cpp {["120"]} {["190"]} true
      (os_path_join "/t" "s01") [File "CWE190_x.cpp"].
Proof.
  apply (subdivision_dir_entered files_regexp_cpp {["120"]} {["190"]} true "/t" "s01"
           [File "CWE190_x.cpp"]).
  exists "01". split; [done|]. split; reflexivity.
Defined.

(** X5. The results of [find_all_testcases_rec] are exactly the paths
    of the files that lie in a directory the run visits, that
    [files_regexp] accepts and that the gcc exception does not remove. *)
Theorem results_are_visited_files `{Platform} (files_regexp : string → bool)
    (cwes_include cwes_exclude : gset string) (for_gcc : bool)
    (root : string) (listing : list entry) (p : string) :
  p ∈ (find_all_testcases_rec files_regexp cwes_include cwes_exclude for_gcc
         root listing).2
  ↔ from_file files_regexp cwes_include cwes_exclude for_gcc root listing p.
Proof.
  unfold find_all_testcases_rec.
  destruct (visit_children files_regexp cwes_include cwes_exclude for_gcc root listing)
    as [evs res] eqn:Hl.
  cbn [snd]. change res with (evs, res).2. rewrite <- Hl. split.
  - apply results_provenance.
  - intros (d & l & c & Hv & Hin & -> & Hf & Hx). by apply (visited_file_result _ _ _ _ _ _ d l).
Qed.

(** X6. [os.listdir] is called on exactly the directories the run
    visits: the root, and below it the directories reached through names
    that [dirs_regexp] accepts and the include and exclude sets let in.
    Nothing below a directory that is left out is listed. *)
Theorem listed_iff_visited `{Platform} (files_regexp : string → bool)
    (cwes_include cwes_exclude : gset string) (for_gcc : bool)
    (root : string) (listing : list entry) (d : string) :
  EvListdir d ∈ (find_all_testcases_rec files_regexp cwes_include cwes_exclude for_gcc
                   root listing).1
  ↔ ∃ l, visited cwes_include cwes_exclude root listing d l.
Proof.
  split.
  - unfold find_all_testcases_rec.
    destruct (visit_children files_regexp cwes_include cwes_exclude for_gcc root listing)
      as [evs res] eqn:Hl.
    cbn [fst]. intros [[= ->]|Hev]%elem_of_cons.
    + exists listing. apply visited_root.
    + change evs with (evs, res).1 in Hev. rewrite <- Hl in Hev.
      apply elem_of_visit_children_events in Hev as (e & He & Hev).
      apply (visit_child_listed files_regexp cwes_include cwes_exclude for_gcc
               root listing e root listing d); [apply visited_root|done|done].
  - intros [l Hv]. by apply (visited_listed _ _ _ _ _ _ d l).
Qed.

(** X7. The results keep the order of the listing: what a listing
    [l1 ++ l2] gives is what [l1] gives followed by what [l2] gives. *)
Theorem results_in_listing_order `{Platform} (files_regexp : string → bool)
    (cwes_include cwes_exclude : gset string) (for_gcc : bool)
    (search_dir : string) (l1 l2 : list entry) :
  (find_all_testcases_rec files_regexp cwes_include cwes_exclude for_gcc search_dir
     (l1 ++ l2)).2
  = (find_all_testcases_rec files_regexp cwes_include cwes_exclude for_gcc search_dir
       l1).2
    ++ (find_all_testcases_rec files_regexp cwes_include cwes_exclude for_gcc search_dir
          l2).2.
Proof.
  unfold find_all_testcases_rec. rewrite visit_children_app.
  by repeat destruct (visit_children _ _ _ _ _ _).
Qed.

(** X8. An include set that is not empty and none of whose entries is
    made of digits only selects nothing: no category directory is
    entered. *)
Theorem nonnumeric_include_selects_nothing `{Platform} (files_regexp : string → bool)
    (cwes_include cwes_exclude : gset string) (for_gcc : bool)
    (search_dir child id : string) (children : list entry) :
  cwes_include ≠ ∅ →
  (∀ e, e ∈ cwes_include → all_digits e = false) →
  is_category_name child id →
  visit_child files_regexp cwes_include cwes_exclude for_gcc search_dir
    (Dir child children) = ([], []).
Proof.
  intros Hne Hall Hcat. pose proof Hcat as (_ & Hd & _).
  apply dirs_regexp_match_category in Hcat as Hm.
  rewrite visit_child_Dir, Hm.
  destruct (dir_decision (Some id) cwes_include cwes_exclude).1 eqn:Hdec; [|done].
  apply dir_decision_category in Hdec; [|by apply (dirs_regexp_match_truthy child)].
  destruct Hdec as [[He | Hin] _]; [done|]. apply Hall in Hin. congruence.
Qed.

Lemma nonnumeric_include_selects_nothing_witness :
  visit_child files_regexp_cpp (cwes_set (Some "CWE120")) ∅ true "/t"
    (Dir "CWE120_Buffer_Overflow" [File "CWE120_bad.cpp"]) = ([], []).
Proof.
  apply (nonnumeric_include_selects_nothing files_regexp_cpp (cwes_set (Some "CWE120")) ∅
           true "/t" "CWE120_Buffer_Overflow" "120" [File "CWE120_bad.cpp"]).
  - rewrite cwes_set_single by done. apply non_empty_singleton_L.
  - rewrite cwes_set_single by done. intros e ->%elem_of_singleton. reflexivity.
  - split; [done|]. split; [reflexivity|]. by exists "Buffer_Overflow".
Defined.

(** X9. [s.split(",")] and [",".join] undo each other: joining the
    pieces of an option with commas gives the option back, no piece holds
    a comma, and a list of pieces without commas, not empty, is what its
    joining splits into. *)
Theorem split_comma_round_trip (s : string) (l : list string) :
  Stdlib.Strings.String.concat "," (split_comma s) = s
  ∧ Forall (λ e, no_comma e = true) (split_comma s)
  ∧ (l ≠ [] → Forall (λ e, no_comma e = true) l →
     split_comma (Stdlib.Strings.String.concat "," l) = l).
Proof.
  split; [apply split_comma_from_concat|].
  split; [by apply split_comma_from_pieces|]. apply split_comma_concat.
Qed.

(** X28. A directory whose name is neither a category name nor a
    subdivision name, with or without a newline after it, is ignored
    together with all that lies in it: the events and the results are
    those of the listing without it. *)
Theorem other_directories_ignored `{Platform} (files_regexp : string → bool)
    (cwes_include cwes_exclude : gset string) (for_gcc : bool)
    (search_dir : string) (l1 : list entry) (child : string)
    (children l2 : list entry) :
  (∀ id, ¬ is_category_name child id) →
  ¬ is_subdivision_name child →
  (∀ child', is_subdivision_name child' → child ≠ child' +:+ String newline "") →
  find_all_testcases_rec files_regexp cwes_include cwes_exclude for_gcc search_dir
    (l1 ++ Dir child children :: l2)
  = find_all_testcases_rec files_regexp cwes_include cwes_exclude for_gcc search_dir
      (l1 ++ l2).
Proof.
  intros Hcat Hsub Hnl. apply unmatched_dir_skipped.
  by apply dirs_regexp_match_None.
Qed.

Lemma other_directories_ignored_witness :
  find_all_testcases_rec files_regexp_java ∅ ∅ true "/t"
    ([File "build.xml"] ++ Dir "antbuild" [File "build.xml"] :: [Dir "s01" []])
  = find_all_testcases_rec files_regexp_java ∅ ∅ true "/t"
      ([File "build.xml"] ++ [Dir "s01" []]).
Proof.
  apply (other_directories_ignored files_regexp_java ∅ ∅ true "/t" [File "build.xml"]
           "antbuild" [File "build.xml"] [Dir "s01" []]).
  - intros id (_ & _ & suffix & Heq). discriminate Heq.
  - intros (ds & _ & _ & Heq). discriminate Heq.
  - intros child' (ds & _ & _ & ->) Heq. discriminate Heq.
Defined.

(** * The thread pool: further results *)

(** X10. In a state the pool can reach, [start_job] blocks exactly
    when [threads] jobs hold a slot, that is, have been started and have
    not yet released it; and when every job has ended, all the slots are
    free again. *)
Theorem start_job_blocks_iff_full {job : Type} (threads : nat) (self : Jobs job)
    (j : job) :
  reachable threads self →
  (start_job self j = None ↔ holding self = threads)
  ∧ (all_done self → slots self = threads).
Proof.
  intros Hr. pose proof (reachable_slots threads self Hr) as Hinv. split.
  - rewrite start_job_None. lia.
  - intros Hdone%all_done_holding. lia.
Qed.

Lemma start_job_blocks_iff_full_witness :
  (start_job busy_pool 3 = None ↔ holding busy_pool = 2)
  ∧ (all_done busy_pool → slots busy_pool = 2).
Proof.
  apply (start_job_blocks_iff_full 2 busy_pool 3). apply busy_pool_reachable.
Defined.

(** X11. A new pool of [threads] slots takes [threads] jobs without
    blocking, all of them then inside [job.do()], and blocks at the next
    one as long as no thread has released its slot. *)
Theorem pool_accepts_capacity {job : Type} (threads : nat) (js : list job) :
  (length js ≤ threads →
   ∃ self, start_jobs (Jobs_init threads) js = Some self ∧
           slots self = threads - length js ∧
           th_job <$> outstanding_jobs self = js ∧
           executing self = length js)
  ∧ (threads < length js → start_jobs (Jobs_init threads) js = None).
Proof.
  rewrite start_jobs_spec. cbn [Jobs_init slots outstanding_jobs errors app]. split.
  - intros Hle. rewrite decide_True by done. eexists. split; [done|].
    cbn [slots outstanding_jobs]. split; [done|]. split.
    + rewrite <- list_fmap_compose. apply list_fmap_id.
    + unfold executing. cbn [outstanding_jobs].
      clear Hle. induction js as [|j js IH]; [done|]. cbn. by rewrite IH.
  - intros Hlt. by rewrite decide_False by lia.
Qed.

(** X12. In a state the pool can reach, [errors] holds at most one
    exception for each job started, and once every job has ended it holds
    exactly one for each job that failed: the count that [wait_jobs] prints
    is the number of failed jobs. *)
Theorem errors_count_failed_jobs `{Platform} {job : Type} (threads : nat)
    (self : Jobs job) :
  reachable threads self →
  length (errors self) ≤ length (outstanding_jobs self)
  ∧ (all_done self → length (errors self) = failures self)
  ∧ (all_done self → 0 < failures self →
     ∃ evs, wait_jobs self =
       Some (EvPrint ("*** exceptions occurred in " +:+ str_nat (failures self)
                      +:+ " threads:") :: evs,
             Some (Exception "Exception in thread(s)."))).
Proof.
  intros Hr. pose proof (reachable_errors threads self Hr) as Herr.
  split; [|split].
  - rewrite Herr. apply count_if_length.
  - intros Hdone. by rewrite Herr, (all_done_recorded self Hdone).
  - intros Hdone Hf. rewrite (all_done_recorded self Hdone) in Herr.
    unfold wait_jobs. apply all_done_forallb in Hdone. rewrite Hdone, Herr.
    destruct (Nat.ltb_spec 0 (failures self)); [|lia]. eauto.
Qed.

Lemma errors_count_failed_jobs_witness :
  length (errors failed_pool) ≤ length (outstanding_jobs failed_pool)
  ∧ (all_done failed_pool → length (errors failed_pool) = failures failed_pool)
  ∧ (all_done failed_pool → 0 < failures failed_pool →
     ∃ evs, wait_jobs failed_pool =
       Some (EvPrint ("*** exceptions occurred in " +:+ str_nat (failures failed_pool)
                      +:+ " threads:") :: evs,
             Some (Exception "Exception in thread(s)."))).
Proof.
  apply (errors_count_failed_jobs 1 failed_pool). apply failed_pool_reachable.
Defined.

(** X13. The pool only ever adds to its two lists: along any steps,
    the jobs of [outstanding_jobs], in the order of their start, and the
    exceptions of [errors] stay as a prefix of what the lists hold later.
    ([wait_jobs] assigns to [_outstanding_jobs], so it removes nothing.) *)
Theorem pool_lists_append_only {job : Type} (self self' : Jobs job) :
  rtc step self self' →
  (th_job <$> outstanding_jobs self) `prefix_of` (th_job <$> outstanding_jobs self')
  ∧ errors self `prefix_of` errors self'.
Proof.
  induction 1 as [self|self self1 self' Hstep _ [IH1 IH2]]; [done|].
  apply step_append_only in Hstep as [H1 H2].
  split; by etrans.
Qed.

Lemma pool_lists_append_only_witness :
  (th_job <$> outstanding_jobs (Jobs_init (job := nat) 1))
    `prefix_of` (th_job <$> outstanding_jobs failed_pool)
  ∧ errors (Jobs_init (job := nat) 1) `prefix_of` errors failed_pool.
Proof.
  apply (pool_lists_append_only (Jobs_init 1) failed_pool). apply failed_pool_reachable.
Defined.

(** * build_source_files: further results *)

(** X14. [build_source_files] starts no process, one or two, and
    never more.  None: it raises before it has a command line.  One: the
    quiet run, which ended with status 0, and the function returns.  Two:
    the quiet run, which ended with another status, and then the same
    command line with the verbose flags after it, not silenced; the
    function raises whatever the second run ends with. *)
Theorem build_starts_at_most_two_processes `{Platform} (a : args)
    (source_paths : list string) (rtns : Z * Z) :
  let r := build_source_files a source_paths rtns in
  match List.filter is_call r.1 with
  | [] => ∃ e, r.2 = Some e
  | [EvCall cmd quiet rtn] =>
      quiet = true ∧ rtn = rtns.1 ∧ rtn = 0%Z ∧ r.2 = None
  | [EvCall cmd quiet rtn; EvCall cmd2 quiet2 rtn2] =>
      quiet = true ∧ rtn = rtns.1 ∧ rtn ≠ 0%Z ∧
      quiet2 = false ∧ rtn2 = rtns.2 ∧
      (∃ verbose, cmd2 = cmd ++ verbose) ∧ ∃ e, r.2 = Some e
  | _ => False
  end.
Proof.
  cbn zeta. unfold build_source_files.
  destruct (cases_macro_of (cases a)) as [e|cases_macro]; [cbn; eauto|].
  pose proof (build_command_no_call a cases_macro source_paths) as Hno.
  destruct (build_command a cases_macro source_paths) as [evs [e|[cmd verbose]]];
    cbn [fst snd] in *.
  - rewrite Hno. eauto.
  - destruct (Z.eqb_spec rtns.1 0) as [Hz|Hz]; cbn [fst snd].
    + rewrite filter_is_call_app, Hno. cbn. done.
    + rewrite !filter_is_call_app, Hno. cbn. repeat split; eauto.
Qed.

(** X15. When a build for [cpp] fails, the exception names the last
    source file of the batch, whichever file the compiler stopped at; on
    an empty batch the message cannot be made and an [UnboundLocalError]
    is raised in its place. *)
Theorem build_failure_names_last_path `{Platform} (a : args)
    (source_paths : list string) (source_path : string) (rtns : Z * Z) :
  buildable a →
  rtns.1 ≠ 0%Z →
  (build_source_files a (source_paths ++ [source_path]) rtns).2
    = Some (Exception ("Build '" +:+ source_path +:+ "' failed."))
  ∧ (build_source_files a [] rtns).2 = Some (UnboundLocalError "source_path").
Proof.
  intros [Hlang [cases_macro Hc]] Hr. split.
  - destruct (build_command_cpp_ok a cases_macro (source_paths ++ [source_path]) Hlang)
      as (cmd & verbose & Hb).
    rewrite (build_source_files_failed _ _ _ _ _ _ _ Hc Hb Hr). by rewrite last_snoc.
  - destruct (build_command_cpp_ok a cases_macro [] Hlang) as (cmd & verbose & Hb).
    by rewrite (build_source_files_failed _ _ _ _ _ _ _ Hc Hb Hr).
Qed.

Lemma build_failure_names_last_path_witness :
  (build_source_files gcc_args (["a.c"; "b.c"] ++ ["c.c"]) (1%Z, 1%Z)).2
    = Some (Exception ("Build '" +:+ "c.c" +:+ "' failed."))
  ∧ (build_source_files gcc_args [] (1%Z, 1%Z)).2
    = Some (UnboundLocalError "source_path").
Proof.
  apply (build_failure_names_last_path gcc_args ["a.c"; "b.c"] "c.c" (1%Z, 1%Z)).
  - split; [reflexivity|]. by exists None.
  - discriminate.
Defined.

(** X16. The configurations [build_source_files] refuses, in the
    order of its checks.  An unknown value of [cases] is refused first,
    before the language is looked at, and nothing is printed or started;
    for [java], more than one source file is refused after the line
    [build ...] is printed, and [ant] is not started; a language other
    than [cpp] and [java] is refused, and nothing is printed or started. *)
Theorem build_configuration_errors `{Platform} (a : args)
    (source_paths : list string) (rtns : Z * Z) :
  (cases a ≠ "good" → cases a ≠ "bad" → cases a ≠ "both" →
   build_source_files a source_paths rtns = ([], Some (Exception "Unknown cases.")))
  ∧ (∀ cases_macro, cases_macro_of (cases a) = inr cases_macro →
     language a = "java" → 1 < length source_paths →
     build_source_files a source_paths rtns =
       ([EvPrint ("build " +:+ str_of_list source_paths)],
        Some (Exception "Can't build more than one file at a time with 'ant'.")))
  ∧ (∀ cases_macro, cases_macro_of (cases a) = inr cases_macro →
     language a ≠ "cpp" → language a ≠ "java" →
     build_source_files a source_paths rtns =
       ([], Some (Exception
                    "Don't know how to build for this language (build_source_files)."))).
Proof.
  split; [|split].
  - intros H1 H2 H3. unfold build_source_files.
    by rewrite cases_macro_of_unknown.
  - intros cases_macro Hc Hlang Hlen. unfold build_source_files, build_command.
    rewrite Hc, Hlang. cbn [Stdlib.Strings.String.eqb Stdlib.Strings.Ascii.eqb Bool.eqb].
    by destruct (Nat.ltb_spec 1 (length source_paths)); [|lia].
  - intros cases_macro Hc H1 H2. unfold build_source_files, build_command.
    apply Stdlib.Strings.String.eqb_neq in H1, H2. by rewrite Hc, H1, H2.
Qed.

(** X17. For [cpp] the command line is the compiler, [cl] when
    [--cl] is given and gcc otherwise, then options that do not depend on
    the batch, then the source files of the batch in their order; the
    options tell the compiler not to link.  Without [-pipe] the command
    line is the same but for that one option, the last of the options of
    gcc. *)
Theorem cpp_command_shape `{Platform} (a : args) (cases_macro : option string) :
  language a = "cpp" →
  ∃ options options' verbose,
    (∀ source_paths,
       build_command a cases_macro source_paths =
         ([], inr ((if truthy (cl a) then cl_path a else gcc_path a)
                     :: options ++ source_paths, verbose)))
    ∧ (∀ source_paths,
         build_command (set_use_pipe a false) cases_macro source_paths =
           ([], inr ((if truthy (cl a) then cl_path a else gcc_path a)
                       :: options' ++ source_paths, verbose)))
    ∧ options = options' ++ (if use_pipe a && negb (truthy (cl a)) then ["-pipe"] else [])
    ∧ (if truthy (cl a) then "/c" ∈ options' else "-c" ∈ options').
Proof.
  intros Hlang. destruct (truthy (cl a)) eqn:Hcl.
  - set (options := ["/I" +:+ test_cases_support_dir a]
                    ++ (if truthy cases_macro then ["/D" +:+ default "" cases_macro] else [])
                    ++ ["/W3"; "/MT"; "/GS"; "/RTC1"; "/bigobj"; "/EHsc"; "/nologo"]
                    ++ ["/c"]).
    exists options, options, []. split; [|split; [|split]].
    + intros source_paths. rewrite (build_command_cpp _ _ _ Hlang), Hcl.
      unfold options. cbn [app]. by rewrite <- !app_assoc.
    + intros source_paths. rewrite build_command_cpp by done.
      cbn [cl set_use_pipe cl_path test_cases_support_dir]. rewrite Hcl.
      unfold options. cbn [app]. by rewrite <- !app_assoc.
    + by rewrite andb_false_r, app_nil_r.
    + unfold options. rewrite !elem_of_app. right. right. right. set_solver.
  - exists (["-I"; test_cases_support_dir a]
            ++ (if truthy cases_macro then ["-D" +:+ default "" cases_macro] else [])
            ++ ["-DCALG_RC5=(ALG_CLASS_DATA_ENCRYPT|ALG_TYPE_BLOCK|ALG_SID_RC5)";
                "-DNO_ERROR=0L"; "-D__STDC_FORMAT_MACROS"; "-c"; "-wrapper"; "true"]
            ++ (if use_pipe a then ["-pipe"] else [])),
           (["-I"; test_cases_support_dir a]
            ++ (if truthy cases_macro then ["-D" +:+ default "" cases_macro] else [])
            ++ ["-DCALG_RC5=(ALG_CLASS_DATA_ENCRYPT|ALG_TYPE_BLOCK|ALG_SID_RC5)";
                "-DNO_ERROR=0L"; "-D__STDC_FORMAT_MACROS"; "-c"; "-wrapper"; "true"]),
           ["-v"; "-pass-exit-codes"].
    split; [|split; [|split]].
    + intros source_paths. rewrite (build_command_cpp _ _ _ Hlang), Hcl.
      cbn [app]. by rewrite <- !app_assoc.
    + intros source_paths. rewrite build_command_cpp by done.
      cbn [cl set_use_pipe use_pipe gcc_path test_cases_support_dir]. rewrite Hcl.
      cbn [app]. by rewrite <- !app_assoc.
    + rewrite andb_true_r. by rewrite <- !app_assoc.
    + rewrite !elem_of_app. right. right. set_solver.
Qed.

Lemma cpp_command_shape_witness :
  ∃ options options' verbose,
    (∀ source_paths,
       build_command gcc_args (Some "OMITBAD") source_paths =
         ([], inr ((if truthy (cl gcc_args) then cl_path gcc_args else gcc_path gcc_args)
                     :: options ++ source_paths, verbose)))
    ∧ (∀ source_paths,
         build_command (set_use_pipe gcc_args false) (Some "OMITBAD") source_paths =
           ([], inr ((if truthy (cl gcc_args) then cl_path gcc_args else gcc_path gcc_args)
                       :: options' ++ source_paths, verbose)))
    ∧ options = options'
                ++ (if use_pipe gcc_args && negb (truthy (cl gcc_args))
                    then ["-pipe"] else [])
    ∧ (if truthy (cl gcc_args) then "/c" ∈ options' else "-c" ∈ options').
Proof.
  apply (cpp_command_shape gcc_args (Some "OMITBAD")). reflexivity.
Defined.

(** * The build of the test cases: further results *)

(** X18. With one thread the test cases are built by the main thread:
    no job is given to the pool and no thread runs, so the run cannot
    block; it returns, or ends with the exception of a build, and that
    build is the last thing in the trace: nothing is built after a batch
    has failed. *)
Theorem single_thread_builds_in_main `{Platform} (E : env) (a : args)
    (testcases : list string) (s : state) (o : outcome unit) (s' : state) (cpus : Z) :
  threads a = 1%Z →
  cpu_count E = Some cpus →
  build_testcases E a testcases s = (o, s') →
  (o = Returned tt ∨ ∃ e, o = Raised e) ∧
  ∃ tr, trace s' = trace s ++ tr ∧
        Forall (λ ev, is_pool_call ev = false ∧ is_thread ev = false) tr ∧
        ∀ e, o = Raised e →
             ∃ pre b rtns, tr = pre ++ EvBuild b :: (build_source_files a b rtns).1 ∧
                           (build_source_files a b rtns).2 = Some e.
Proof.
  intros Hthreads Hcpu Hrun.
  apply (build_testcases_single E a testcases s o s' cpus Hthreads Hcpu) in Hrun
    as [Ho (tr & Htr & Hall & Hexn)].
  split; [done|]. exists tr. split; [done|]. split; [|done].
  eapply Forall_impl; [exact Hall|]. intros ev Hev. by destruct ev.
Qed.

Lemma single_thread_builds_in_main_witness :
  let r := build_testcases all_fail single_thread_args five_testcases state_init in
  (r.1 = Returned tt ∨ ∃ e, r.1 = Raised e) ∧
  ∃ tr, trace r.2 = trace state_init ++ tr ∧
        Forall (λ ev, is_pool_call ev = false ∧ is_thread ev = false) tr ∧
        ∀ e, r.1 = Raised e →
             ∃ pre b rtns,
               tr = pre ++ EvBuild b :: (build_source_files single_thread_args b rtns).1 ∧
               (build_source_files single_thread_args b rtns).2 = Some e.
Proof.
  apply (single_thread_builds_in_main all_fail single_thread_args five_testcases
           state_init _ _ 4%Z).
  - reflexivity.
  - reflexivity.
  - apply surjective_pairing.
Defined.

(** X19. With more than one thread the main thread builds no test
    case itself, and a batch that fails does not end the run with its own
    exception: the run returns, blocks, or ends with the exception of
    [wait_jobs]. *)
Theorem threaded_build_outcomes `{Platform} (E : env) (a : args)
    (testcases : list string) (s : state) (o : outcome unit) (s' : state) (cpus : Z) :
  (2 <= threads a)%Z →
  cpu_count E = Some cpus →
  build_testcases E a testcases s = (o, s') →
  (o = Returned tt ∨ o = Raised (Exception "Exception in thread(s).") ∨ o = Blocked) ∧
  ∃ tr, trace s' = trace s ++ tr ∧ Forall (λ ev, is_build ev = false) tr.
Proof.
  intros Hthreads Hcpu Hrun.
  apply (build_testcases_threaded E a testcases s o s' cpus Hthreads Hcpu) in Hrun
    as [Ho (tr & Htr & Hall)].
  split; [done|]. exists tr. split; [done|].
  eapply Forall_impl; [exact Hall|]. intros ev Hev. by destruct ev.
Qed.

Lemma threaded_build_outcomes_witness :
  let r := build_testcases first_job_fails sample_args five_testcases state_init in
  (r.1 = Returned tt ∨ r.1 = Raised (Exception "Exception in thread(s).")
   ∨ r.1 = Blocked) ∧
  ∃ tr, trace r.2 = trace state_init ++ tr ∧ Forall (λ ev, is_build ev = false) tr.
Proof.
  apply (threaded_build_outcomes first_job_fails sample_args five_testcases
           state_init _ _ 4%Z).
  - vm_compute. discriminate.
  - reflexivity.
  - apply surjective_pairing.
Defined.

(** X20. However the run ends, every batch handed to
    [build_source_files] or to [start_job] during the build of the test
    cases holds at least one test case and at most [max(1, chunk_max)] of
    them; for the language [java] every batch holds exactly one, so [ant]
    is never given several build files. *)
Theorem batches_nonempty_bounded `{Platform} (E : env) (a : args)
    (testcases : list string) (s : state) :
  let r := build_testcases E a testcases s in
  ∃ tr, trace r.2 = trace s ++ tr ∧
        Forall (λ b, 1 ≤ length b ≤ chunk_bound (chunk_max_of a testcases))
          (dispatched tr) ∧
        (language a = "java" → Forall (λ b, length b = 1) (dispatched tr)).
Proof.
  cbn zeta.
  assert (∀ tr, Forall (λ b, 1 ≤ length b ≤ chunk_bound (chunk_max_of a testcases))
                  (dispatched tr) →
                language a = "java" → Forall (λ b, length b = 1) (dispatched tr))
    as Hjava.
  { intros tr Hall Hl. eapply Forall_impl; [exact Hall|]. intros b.
    unfold chunk_max_of, chunk_bound. rewrite Hl. cbn. lia. }
  assert (1 ≤ chunk_bound (chunk_max_of a testcases)) as Hpos
    by (unfold chunk_bound; lia).
  destruct (build_testcases E a testcases s) as [o s'] eqn:Hrun. cbn [snd].
  unfold build_testcases in Hrun. destruct (cpu_count E) as [cpus|].
  2: { injection Hrun as <- <-. exists []. rewrite app_nil_r.
       split; [done|]. split; [constructor|]. intros _. constructor. }
  rewrite bind_eq, print_eq, bind_eq, print_eq in Hrun.
  destruct (1 <=? threads a)%Z.
  2: { injection Hrun as <- <-. eexists [_; _]. split; [|split].
       - cbn [trace log]. by rewrite <- app_assoc.
       - constructor.
       - intros _. constructor. }
  cbn zeta in Hrun.
  apply bind_cases in Hrun
    as [([[chunk' size'] jobs'] & s1 & Hloop & Hrun)
       | [(e & Hloop & ->) | [[Hloop ->] | [Hloop ->]]]];
    apply submit_loop_sizes in Hloop as (tr & Htr & Hall & Ho);
    try done; try (cbn [length]; lia).
  - cbn [fst snd] in Ho. destruct Ho as [Hsz Hle].
    apply after_loop_sizes in Hrun as (tr2 & Htr2 & Hd2).
    assert (Forall (λ b, 1 ≤ length b ≤ chunk_bound (chunk_max_of a testcases))
              (dispatched ([EvPrint (building_line a cpus)] ++ [EvPrint ""] ++ tr ++ tr2)))
      as Hsizes.
    { cbn [app dispatched]. rewrite dispatched_app. apply Forall_app. split.
      - eapply Forall_impl; [exact Hall|]. intros b ->. lia.
      - destruct Hd2 as [-> | [-> Hone]]; [constructor|].
        constructor; [lia | constructor]. }
    eexists. split; [|split; [exact Hsizes | by apply Hjava]].
    rewrite Htr2, Htr. cbn [trace log]. by rewrite <- !app_assoc.
  - assert (Forall (λ b, 1 ≤ length b ≤ chunk_bound (chunk_max_of a testcases))
              (dispatched ([EvPrint (building_line a cpus)] ++ [EvPrint ""] ++ tr)))
      as Hsizes.
    { cbn [app dispatched]. eapply Forall_impl; [exact Hall|]. intros b ->. lia. }
    eexists. split; [|split; [exact Hsizes | by apply Hjava]].
    rewrite Htr. cbn [trace log]. by rewrite <- !app_assoc.
  - assert (Forall (λ b, 1 ≤ length b ≤ chunk_bound (chunk_max_of a testcases))
              (dispatched ([EvPrint (building_line a cpus)] ++ [EvPrint ""] ++ tr)))
      as Hsizes.
    { cbn [app dispatched]. eapply Forall_impl; [exact Hall|]. intros b ->. lia. }
    eexists. split; [|split; [exact Hsizes | by apply Hjava]].
    rewrite Htr. cbn [trace log]. by rewrite <- !app_assoc.
  - assert (Forall (λ b, 1 ≤ length b ≤ chunk_bound (chunk_max_of a testcases))
              (dispatched ([EvPrint (building_line a cpus)] ++ [EvPrint ""] ++ tr)))
      as Hsizes.
    { cbn [app dispatched]. eapply Forall_impl; [exact Hall|]. intros b ->. lia. }
    eexists. split; [|split; [exact Hsizes | by apply Hjava]].
    rewrite Htr. cbn [trace log]. by rewrite <- !app_assoc.
Qed.

(** X21. On a machine where [multiprocessing.cpu_count()] is not
    implemented the run cannot succeed, whatever [--threads] says: it ends
    with an exception and never calls the pool, and when the scan and the
    build of the support files return, the exception is the
    [UnboundLocalError] for [cpu_count], raised before the headline of the
    build of the test cases is printed. *)
Theorem unknown_cpu_count_fails `{Platform} (E : env) (a0 : args) (listing : list entry) :
  cpu_count E = None →
  let a := set_use_pipe a0 (negb (truthy (cl a0))) in
  (∃ e, (main E a0 listing).1 = Raised e)
  ∧ ops (main E a0 listing).2 = 0
  ∧ (∀ testcases s1 a' s2,
       scan_testcases a listing state_init = (Returned testcases, s1) →
       build_support E a (log s1 [EvChdir (object_dir a)]) = (Returned a', s2) →
       main E a0 listing = (Raised (UnboundLocalError "cpu_count"), s2)).
Proof.
  intros Hcpu a. rewrite main_eq. cbn zeta. fold a.
  destruct (scan_testcases_cases a listing state_init)
    as (s1 & Hops1 & _ & [[testcases Hscan] | [e Hscan]]); rewrite Hscan.
  - destruct (build_support_cases E a (log s1 [EvChdir (object_dir a)]))
      as (s2 & Hops2 & [(a' & Hsup & _) | [e Hsup]]); rewrite Hsup.
    + rewrite (build_and_finish_no_cpu_count E a' testcases s2 Hcpu).
      split; [eauto|]. split; [cbn [snd]; by rewrite Hops2|].
      intros ? ? ? ? [= <- <-] Hsup'. rewrite Hsup in Hsup'. by injection Hsup' as <- <-.
    + split; [eauto|]. split; [cbn [snd]; by rewrite Hops2|].
      intros ? ? ? ? [= <- <-] Hsup'. rewrite Hsup in Hsup'. done.
  - split; [eauto|]. split; [done|]. intros ? ? ? ? [=].
Qed.

Lemma unknown_cpu_count_fails_witness :
  let a := set_use_pipe sample_args (negb (truthy (cl sample_args))) in
  (∃ e, (main no_cpu_count sample_args sample_tree).1 = Raised e)
  ∧ ops (main no_cpu_count sample_args sample_tree).2 = 0
  ∧ (∀ testcases s1 a' s2,
       scan_testcases a sample_tree state_init = (Returned testcases, s1) →
       build_support no_cpu_count a (log s1 [EvChdir (object_dir a)])
         = (Returned a', s2) →
       main no_cpu_count sample_args sample_tree
         = (Raised (UnboundLocalError "cpu_count"), s2)).
Proof.
  apply (unknown_cpu_count_fails no_cpu_count sample_args sample_tree). reflexivity.
Defined.

(** X22. For a language other than [java] and at least one thread,
    [chunk_max] lies between 0 and 50; below 50 it is the number of test
    cases for each thread rounded to the nearest integer, to the even one
    when the two nearest are equally near; it is 50 only when there are at
    least 49.5 test cases for each thread. *)
Theorem chunk_max_is_rounded_share (a : args) (testcases : list string) :
  language a ≠ "java" →
  (1 <= threads a)%Z →
  let N := Z.of_nat (length testcases) in
  let C := threads a in
  let m := chunk_max_of a testcases in
  (0 <= m <= 50)%Z
  ∧ ((m < 50)%Z → (2 * Z.abs (N - C * m) <= C)%Z)
  ∧ ((m < 50)%Z → (2 * Z.abs (N - C * m) = C)%Z → Z.even m = true)
  ∧ (m = 50%Z → (99 * C <= 2 * N)%Z).
Proof.
  intros Hlang Hthr N C m. unfold m, chunk_max_of.
  apply Stdlib.Strings.String.eqb_neq in Hlang. rewrite Hlang. fold N C.
  destruct (round_div_nearest N C ltac:(lia)) as [Hnear Heven].
  assert (0 <= round_div N C)%Z as Hpos.
  { assert (0 <= N)%Z by lia. nia. }
  split; [lia|]. split; [|split].
  - intros Hlt. rewrite Z.min_r by lia. done.
  - intros Hlt. rewrite Z.min_r by lia. done.
  - intros Heq. assert (50 <= round_div N C)%Z by lia. nia.
Qed.

Lemma chunk_max_is_rounded_share_witness :
  let N := Z.of_nat (length five_testcases) in
  let C := threads gcc_args in
  let m := chunk_max_of gcc_args five_testcases in
  (0 <= m <= 50)%Z
  ∧ ((m < 50)%Z → (2 * Z.abs (N - C * m) <= C)%Z)
  ∧ ((m < 50)%Z → (2 * Z.abs (N - C * m) = C)%Z → Z.even m = true)
  ∧ (m = 50%Z → (99 * C <= 2 * N)%Z).
Proof.
  apply (chunk_max_is_rounded_share gcc_args five_testcases).
  - discriminate.
  - vm_compute. discriminate.
Defined.

(** X26. The pool that the loop of [main] leaves is one that the
    steps of the pool reach from the pool it started with; so in the pool
    of [main], too, no more jobs than [threads] are inside [job.do()], and
    the slots that are free and the slots that are held add up to
    [threads]. *)
Theorem loop_pool_reachable `{Platform} (E : env) (a : args) (chunk_max : Z)
    (testcases chunk : list string) (chunk_size : Z)
    (jobs : Jobs build_source_files_job) (s : state) (n : nat) :
  reachable n jobs →
  match (submit_loop E a chunk_max testcases chunk chunk_size jobs s).1 with
  | Returned r => reachable n r.2 ∧ executing r.2 ≤ n ∧ slots r.2 + holding r.2 = n
  | _ => True
  end.
Proof.
  intros Hr.
  destruct (submit_loop E a chunk_max testcases chunk chunk_size jobs s)
    as [[r|e| |] s'] eqn:Hrun; cbn [fst]; try done.
  apply submit_loop_pool_steps in Hrun.
  assert (reachable n r.2) as Hr' by (unfold reachable in *; by etrans).
  split; [done|]. pose proof (reachable_slots n r.2 Hr').
  pose proof (executing_le_holding r.2). lia.
Qed.

Lemma loop_pool_reachable_witness :
  match (submit_loop (quiet_env 6) gcc_args 2 five_testcases [] 0 (Jobs_init 2)
           state_init).1 with
  | Returned r =>
      length (outstanding_jobs r.2) = 2 ∧
      reachable 2 r.2 ∧ executing r.2 ≤ 2 ∧ slots r.2 + holding r.2 = 2
  | _ => False
  end.
Proof.
  pose proof (loop_pool_reachable (quiet_env 6) gcc_args 2 five_testcases [] 0
                (Jobs_init 2) state_init 2 (rtc_refl _ _)) as Hw.
  destruct (submit_loop (quiet_env 6) gcc_args 2 five_testcases [] 0 (Jobs_init 2)
              state_init) as [[r|e| |] s'] eqn:Hrun;
    vm_compute in Hrun; [|discriminate..].
  injection Hrun as <- <-. split; [reflexivity | exact Hw].
Defined.

(** X27. A run of [main] has two phases.  First the scan: lines
    printed and directories listed, and nothing else.  Then, if the scan
    returns, the change to the object directory and the build, in which no
    directory is listed any more; the working directory is changed back
    after the build in a run that returns, and is not changed back in a
    run that ends otherwise. *)
Theorem main_phases `{Platform} (E : env) (a0 : args) (listing : list entry) :
  let r := main E a0 listing in
  ∃ scan rest,
    trace r.2 = scan ++ rest ∧
    Forall (λ ev, is_print ev || is_listdir ev = true) scan ∧
    match r.1 with
    | Returned _ =>
        ∃ build, rest = EvChdir (object_dir a0) :: build ++ [EvChdir (original_dir E)] ∧
                 Forall (λ ev, is_build_event ev = true) build
    | _ =>
        rest = [] ∨
        ∃ build, rest = EvChdir (object_dir a0) :: build ∧
                 Forall (λ ev, is_build_event ev = true) build
    end.
Proof.
  cbn zeta. rewrite main_eq. cbn zeta.
  set (a := set_use_pipe a0 (negb (truthy (cl a0)))).
  destruct (scan_testcases_scan_events a listing state_init) as (scan & Hscan & Hall).
  destruct (scan_testcases a listing state_init) as [[testcases|e| |] s1];
    cbn [snd] in Hscan; cbn [trace state_init app] in Hscan.
  2,3,4: exists scan, []; rewrite app_nil_r; cbn [fst snd]; split; [done|];
           split; [done|]; by left.
  destruct (build_support_build_events E a (log s1 [EvChdir (object_dir a)]))
    as (tr2 & Htr2 & Hall2).
  cbn [trace log] in Htr2.
  destruct (build_support E a (log s1 [EvChdir (object_dir a)])) as [[a'|e| |] s2];
    cbn [snd] in Htr2.
  2,3,4: exists scan, (EvChdir (object_dir a0) :: tr2); cbn [fst snd]; split;
           [rewrite Htr2, Hscan; by rewrite <- app_assoc|]; split; [done|];
           right; by exists tr2.
  destruct (build_and_finish_events E a' testcases s2) as (tr3 & Hall3 & Htr3).
  destruct (build_and_finish E a' testcases s2) as [[[]|e| |] s3]; cbn [fst snd] in *.
  - exists scan, (EvChdir (object_dir a0) :: (tr2 ++ tr3) ++ [EvChdir (original_dir E)]).
    split; [rewrite Htr3, Htr2, Hscan; by rewrite <- !app_assoc|]. split; [done|].
    exists (tr2 ++ tr3). split; [done|]. apply Forall_app. by split.
  - exists scan, (EvChdir (object_dir a0) :: tr2 ++ tr3).
    split; [rewrite Htr3, Htr2, Hscan, app_nil_r; by rewrite <- !app_assoc|].
    split; [done|]. right. exists (tr2 ++ tr3). split; [done|]. apply Forall_app. by split.
  - exists scan, (EvChdir (object_dir a0) :: tr2 ++ tr3).
    split; [rewrite Htr3, Htr2, Hscan, app_nil_r; by rewrite <- !app_assoc|].
    split; [done|]. right. exists (tr2 ++ tr3). split; [done|]. apply Forall_app. by split.
  - exists scan, (EvChdir (object_dir a0) :: tr2 ++ tr3).
    split; [rewrite Htr3, Htr2, Hscan, app_nil_r; by rewrite <- !app_assoc|].
    split; [done|]. right. exists (tr2 ++ tr3). split; [done|]. apply Forall_app. by split.
Qed.

(** X29. With more than one thread, when the loop is left with an
    error in the pool -- that is, at [break] -- the last two calls to the
    pool were [start_job] of the batch that [chunk] still holds and the
    check that answered true, and the step after the loop is [start_job]
    of that same batch: [chunk] is emptied only after the check. *)
Theorem early_stop_resubmits_batch `{Platform} (E : env) (a : args)
    (testcases : list string) (n : nat) (s : state) :
  threads a ≠ 1%Z →
  match submit_loop E a (chunk_max_of a testcases) testcases [] 0 (Jobs_init n) s with
  | (Returned (chunk', size', jobs'), s') =>
      has_errors jobs' = true →
      run_remainder E a chunk' size' jobs'
        = pool_start_job E jobs' {| job_args := a; source_paths := chunk' |}
      ∧ ∃ tr evs,
          trace s' = trace s ++ tr ++ EvStartJob chunk' :: evs ++ [EvHasErrors true] ∧
          pool_calls evs = []
  | _ => True
  end.
Proof.
  intros Hthr%Z.eqb_neq.
  destruct (submit_loop E a (chunk_max_of a testcases) testcases [] 0 (Jobs_init n) s)
    as [[[[chunk' size'] jobs']|e| |] s'] eqn:Hrun; try done.
  intros Herr. by apply (break_then_start_job E a testcases n s).
Qed.

Lemma early_stop_resubmits_batch_witness :
  match submit_loop first_job_fails sample_args
          (chunk_max_of sample_args ["bad.cpp"; "good.cpp"]) ["bad.cpp"; "good.cpp"]
          [] 0 (Jobs_init 2) state_init with
  | (Returned (chunk', size', jobs'), s') =>
      chunk' = ["bad.cpp"] ∧ has_errors jobs' = true ∧
      run_remainder first_job_fails sample_args chunk' size' jobs'
        = pool_start_job first_job_fails jobs'
            {| job_args := sample_args; source_paths := chunk' |}
      ∧ ∃ tr evs,
          trace s' = trace state_init ++ tr
                     ++ EvStartJob chunk' :: evs ++ [EvHasErrors true] ∧
          pool_calls evs = []
  | _ => False
  end.
Proof.
  pose proof (early_stop_resubmits_batch first_job_fails sample_args
                ["bad.cpp"; "good.cpp"] 2 state_init) as Hw.
  destruct (submit_loop first_job_fails sample_args
              (chunk_max_of sample_args ["bad.cpp"; "good.cpp"]) ["bad.cpp"; "good.cpp"]
              [] 0 (Jobs_init 2) state_init)
    as [[[[chunk' size'] jobs']|e| |] s'] eqn:Hrun;
    vm_compute in Hrun; [|discriminate..].
  injection Hrun as <- <- <- <-.
  split; [reflexivity|]. split; [reflexivity|]. apply Hw.
  - vm_compute. discriminate.
  - reflexivity.
Defined.

(** * The options and the directories: results *)

(** X23. When the start of [main] gets through, the directory of the
    suite, the language root, the directory of the test cases and the
    directory of the support files have all been found to be directories;
    the last two lie in the language root and the object directory lies in
    the output directory; and the language root is the directory of
    version 1.3 of the suite, or, when that is no directory, the one of
    version 1.2. *)
Theorem setup_directories_checked `{Platform} (h : host) (cpu_count : option Z)
    (o : options) (ns : namespace) :
  setup h cpu_count o = inr ns →
  isdir h (ns_samate_dir ns) = true
  ∧ isdir h (ns_language_root ns) = true
  ∧ isdir h (ns_test_cases_dir ns) = true
  ∧ isdir h (ns_test_cases_support_dir ns) = true
  ∧ ns_test_cases_dir ns = os_path_join (ns_language_root ns) "testcases"
  ∧ ns_test_cases_support_dir ns = os_path_join (ns_language_root ns) "testcasesupport"
  ∧ ns_object_dir ns = os_path_join (ns_output_dir ns) "object"
  ∧ (ns_language ns = "cpp" →
     ns_language_root ns = os_path_join (ns_samate_dir ns) "C"
     ∨ (isdir h (os_path_join (ns_samate_dir ns) "C") = false
        ∧ ns_language_root ns = ns_samate_dir ns))
  ∧ (ns_language ns = "java" →
     ns_language_root ns = os_path_join (os_path_join (ns_samate_dir ns) "Java") "src"
     ∨ (isdir h (os_path_join (os_path_join (ns_samate_dir ns) "Java") "src") = false
        ∧ ns_language_root ns = os_path_join (ns_samate_dir ns) "")).
Proof.
  intros (Hsam & Hroot & Hisroot & Htc & Hsup & _ & _ & Hns)%setup_inr.
  rewrite Hns. cbn. repeat split; try done.
  - intros Hl. rewrite Hl, language_root_of_cpp in Hroot. injection Hroot as Hroot.
    destruct (isdir h (os_path_join (abspath h (opt_samate o)) "C")); [by left | by right].
  - intros Hl. rewrite Hl in Hroot. unfold language_root_of in Hroot.
    cbn [Stdlib.Strings.String.eqb Stdlib.Strings.Ascii.eqb Bool.eqb] in Hroot.
    destruct (isdir h (os_path_join (os_path_join (abspath h (opt_samate o)) "Java") "src"));
      injection Hroot as Hroot; [by left | by right].
Qed.

Lemma setup_directories_checked_witness :
  isdir sample_host (ns_samate_dir sample_namespace) = true
  ∧ isdir sample_host (ns_language_root sample_namespace) = true
  ∧ isdir sample_host (ns_test_cases_dir sample_namespace) = true
  ∧ isdir sample_host (ns_test_cases_support_dir sample_namespace) = true
  ∧ ns_test_cases_dir sample_namespace
    = os_path_join (ns_language_root sample_namespace) "testcases"
  ∧ ns_test_cases_support_dir sample_namespace
    = os_path_join (ns_language_root sample_namespace) "testcasesupport"
  ∧ ns_object_dir sample_namespace = os_path_join (ns_output_dir sample_namespace) "object"
  ∧ (ns_language sample_namespace = "cpp" →
     ns_language_root sample_namespace = os_path_join (ns_samate_dir sample_namespace) "C"
     ∨ (isdir sample_host (os_path_join (ns_samate_dir sample_namespace) "C") = false
        ∧ ns_language_root sample_namespace = ns_samate_dir sample_namespace))
  ∧ (ns_language sample_namespace = "java" →
     ns_language_root sample_namespace
     = os_path_join (os_path_join (ns_samate_dir sample_namespace) "Java") "src"
     ∨ (isdir sample_host
          (os_path_join (os_path_join (ns_samate_dir sample_namespace) "Java") "src") = false
        ∧ ns_language_root sample_namespace
          = os_path_join (ns_samate_dir sample_namespace) "")).
Proof.
  apply (setup_directories_checked sample_host (Some 4%Z) sample_options sample_namespace).
  vm_compute. reflexivity.
Defined.

(** X24. For the language [cpp] the start of [main], from the check
    of the directory of the suite on, can fail in six ways only: the
    directory of the suite, of the test cases or of the support files is
    no directory; the object directory is not there after its removal and
    [os.makedirs] raises; gcc or cl is not found.  The check of the
    language root cannot fail, since the root falls back to the directory
    of the suite, which has been checked; the exceptions for an unknown
    language and for [ant] are not raised either. *)
Theorem cpp_setup_errors `{Platform} (h : host) (cpu_count : option Z) (o : options)
    (err : setup_error) :
  opt_language o = "cpp" →
  setup h cpu_count o = inl err →
  (err = Raise (Exception "Specified SAMATE path is not a directory.")
   ∧ isdir h (abspath h (opt_samate o)) = false)
  ∨ err = Raise (Exception "Cannot locate SAMATE test cases directory.")
  ∨ err = Raise (Exception "Cannot locate SAMATE test cases support directory.")
  ∨ (err = OSError (os_path_join (abspath h (opt_output o)) "object")
     ∧ isdir_after_rmtree h (os_path_join (abspath h (opt_output o)) "object") = false
     ∧ makedirs_succeeds h (os_path_join (abspath h (opt_output o)) "object") = false)
  ∨ (err = Raise (Exception "Could not locate gcc.")
     ∧ truthy (which h (default (default_gcc (system h)) (opt_gcc o))) = false)
  ∨ (err = Raise (Exception "Could not locate cl.")
     ∧ truthy (which h (default "" (opt_cl o))) = false).
Proof.
  intros Hl. unfold setup. rewrite Hl, language_root_of_cpp.
  destruct (isdir h (abspath h (opt_samate o))) eqn:Hsam; cbn [negb];
    [|intros [= <-]; by left].
  set (root := if isdir h (os_path_join (abspath h (opt_samate o)) "C") then _ else _).
  assert (isdir h root = true) as ->
    by (unfold root; by destruct (isdir h (os_path_join _ "C")) eqn:HC).
  cbn [negb].
  destruct (isdir h (os_path_join root "testcases")); cbn [negb];
    [|intros [= <-]; right; by left].
  destruct (isdir h (os_path_join root "testcasesupport")); cbn [negb];
    [|intros [= <-]; right; right; by left].
  destruct (ensure_object_dir h _).2 eqn:Hobj; cbn [negb].
  2: { intros [= <-]. apply ensure_object_dir_fails in Hobj.
       right; right; right; by left. }
  destruct (locate_tools h "cpp" _ (opt_cl o)) as [e'|[[g c] t]] eqn:Ht; [|done].
  intros [= <-]. apply locate_tools_cpp in Ht.
  destruct (truthy (Some (default (default_gcc (system h)) (opt_gcc o)))).
  - destruct (locate h _ "Could not locate gcc.") as [e1|g] eqn:Hg.
    + injection Ht as ->. apply locate_inl in Hg as [-> Hw].
      right; right; right; right; by left.
    + destruct (truthy (opt_cl o)); [|done].
      destruct (locate h _ "Could not locate cl.") as [e2|c] eqn:Hc; [|done].
      injection Ht as ->. apply locate_inl in Hc as [-> Hw].
      right; right; right; right; by right.
  - destruct (truthy (opt_cl o)); [|done].
    destruct (locate h _ "Could not locate cl.") as [e2|c] eqn:Hc; [|done].
    injection Ht as ->. apply locate_inl in Hc as [-> Hw].
    right; right; right; right; by right.
Qed.

Lemma cpp_setup_errors_witness :
  (OSError "/out/object" = Raise (Exception "Specified SAMATE path is not a directory.")
   ∧ isdir readonly_host (abspath readonly_host (opt_samate sample_options)) = false)
  ∨ OSError "/out/object" = Raise (Exception "Cannot locate SAMATE test cases directory.")
  ∨ OSError "/out/object"
    = Raise (Exception "Cannot locate SAMATE test cases support directory.")
  ∨ (OSError "/out/object"
     = OSError (os_path_join (abspath readonly_host (opt_output sample_options)) "object")
     ∧ isdir_after_rmtree readonly_host
         (os_path_join (abspath readonly_host (opt_output sample_options)) "object") = false
     ∧ makedirs_succeeds readonly_host
         (os_path_join (abspath readonly_host (opt_output sample_options)) "object") = false)
  ∨ (OSError "/out/object" = Raise (Exception "Could not locate gcc.")
     ∧ truthy (which readonly_host
                 (default (default_gcc (system readonly_host)) (opt_gcc sample_options)))
       = false)
  ∨ (OSError "/out/object" = Raise (Exception "Could not locate cl.")
     ∧ truthy (which readonly_host (default "" (opt_cl sample_options))) = false).
Proof.
  apply (cpp_setup_errors readonly_host (Some 4%Z) sample_options (OSError "/out/object")).
  - reflexivity.
  - vm_compute. reflexivity.
Defined.

(** X25. When the start of [main] gets through: for [java], [ant] has
    been found; for [cpp], gcc has been found whenever [--gcc] is not
    given empty -- also when [--cl] is given and gcc will not be used --
    and cl has been found when [--cl] is given; without [--gcc] the name
    looked for is [gcc] on Windows and Cygwin and the cross compiler
    elsewhere.  The tool the build will start is thus set, but for one
    case: [cpp] without [--cl] and with an empty [--gcc], in which
    [gcc_path] is not set at all. *)
Theorem setup_tools_located `{Platform} (h : host) (cpu_count : option Z)
    (o : options) (ns : namespace) :
  setup h cpu_count o = inr ns →
  (ns_language ns = "java" →
   truthy (ns_ant_path ns) = true ∧ ns_ant_path ns = which h "ant")
  ∧ (ns_language ns = "cpp" →
     (ns_gcc ns ≠ "" →
      truthy (ns_gcc_path ns) = true ∧ ns_gcc_path ns = which h (ns_gcc ns))
     ∧ (ns_gcc ns = "" → ns_gcc_path ns = None)
     ∧ (truthy (ns_cl ns) = true → truthy (ns_cl_path ns) = true)
     ∧ (opt_gcc o = None →
        ns_gcc ns = (if is_windows (system h) then "gcc"
                     else "/usr/bin/i686-w64-mingw32-gcc")
        ∧ ns_gcc ns ≠ ""))
  ∧ (ns_language ns = "cpp" ∨ ns_language ns = "java" →
     truthy (tool_path ns) = false →
     ns_language ns = "cpp" ∧ truthy (ns_cl ns) = false ∧ opt_gcc o = Some ""
     ∧ ns_gcc_path ns = None).
Proof.
  intros (_ & _ & _ & _ & _ & _ & Ht & Hns)%setup_inr.
  assert (ns_language ns = opt_language o) as Hlang by (by rewrite Hns).
  assert (ns_gcc ns = default (default_gcc (system h)) (opt_gcc o)) as Hgcc
    by (by rewrite Hns).
  assert (ns_cl ns = opt_cl o) as Hcl by (by rewrite Hns).
  rewrite <- Hlang, <- Hgcc, <- Hcl in Ht. clear Hns.
  assert (ns_language ns = "cpp" →
          (ns_gcc ns ≠ "" →
           truthy (ns_gcc_path ns) = true ∧ ns_gcc_path ns = which h (ns_gcc ns))
          ∧ (ns_gcc ns = "" → ns_gcc_path ns = None)
          ∧ (truthy (ns_cl ns) = true → truthy (ns_cl_path ns) = true)) as Hcpp.
  { intros Hl. rewrite Hl in Ht. apply locate_tools_cpp in Ht.
    destruct (truthy (Some (ns_gcc ns))) eqn:Hg.
    - destruct (locate h (ns_gcc ns) _) as [e1|g] eqn:Hlg; [done|].
      apply locate_inr in Hlg as [-> Hgt].
      apply truthy_Some_nonempty in Hg.
      destruct (truthy (ns_cl ns)) eqn:Hc.
      + destruct (locate h _ "Could not locate cl.") as [e2|c] eqn:Hlc; [done|].
        apply locate_inr in Hlc as [Hceq Hct]. subst c. injection Ht as -> -> _. done.
      + injection Ht as -> -> _. done.
    - assert (ns_gcc ns = "") as Hempty by (by destruct (ns_gcc ns)).
      destruct (truthy (ns_cl ns)) eqn:Hc.
      + destruct (locate h _ "Could not locate cl.") as [e2|c] eqn:Hlc; [done|].
        apply locate_inr in Hlc as [Hceq Hct]. subst c. injection Ht as -> -> _. done.
      + injection Ht as -> -> _. done. }
  assert (ns_language ns = "java" →
          truthy (ns_ant_path ns) = true ∧ ns_ant_path ns = which h "ant") as Hjava.
  { intros Hl. rewrite Hl, locate_tools_java in Ht.
    destruct (locate h "ant" _) as [e|t] eqn:Hla; [done|].
    apply locate_inr in Hla as [-> Hat]. by injection Ht as _ _ <-. }
  split; [done|]. split.
  - intros Hl. destruct (Hcpp Hl) as (H1 & H2 & H3).
    split; [done|]. split; [done|]. split; [done|].
    intros Hnone. rewrite Hgcc, Hnone. cbn [default]. unfold default_gcc.
    by destruct (is_windows (system h)).
  - intros Hl Htool. unfold tool_path in Htool.
    destruct Hl as [Hl|Hl]; rewrite Hl in Htool;
      cbn [Stdlib.Strings.String.eqb Stdlib.Strings.Ascii.eqb Bool.eqb] in Htool.
    + destruct (Hcpp Hl) as (H1 & H2 & H3).
      destruct (truthy (ns_cl ns)) eqn:Hc; [rewrite H3 in Htool; done|].
      assert (ns_gcc ns = "") as Hempty.
      { destruct (ns_gcc ns) eqn:Hg; [done|]. destruct H1 as [H1 _]; [done|]. congruence. }
      split; [done|]. split; [done|]. split; [|by apply H2].
      rewrite Hgcc in Hempty. destruct (opt_gcc o) as [g|]; cbn [default] in Hempty.
      * cbn in Hempty. by rewrite Hempty.
      * unfold default_gcc in Hempty. by destruct (is_windows (system h)).
    + destruct (Hjava Hl) as [Hat _]. congruence.
Qed.

Lemma setup_tools_located_witness :
  (ns_language sample_namespace = "java" →
   truthy (ns_ant_path sample_namespace) = true
   ∧ ns_ant_path sample_namespace = which sample_host "ant")
  ∧ (ns_language sample_namespace = "cpp" →
     (ns_gcc sample_namespace ≠ "" →
      truthy (ns_gcc_path sample_namespace) = true
      ∧ ns_gcc_path sample_namespace = which sample_host (ns_gcc sample_namespace))
     ∧ (ns_gcc sample_namespace = "" → ns_gcc_path sample_namespace = None)
     ∧ (truthy (ns_cl sample_namespace) = true →
        truthy (ns_cl_path sample_namespace) = true)
     ∧ (opt_gcc sample_options = None →
        ns_gcc sample_namespace = (if is_windows (system sample_host) then "gcc"
                                   else "/usr/bin/i686-w64-mingw32-gcc")
        ∧ ns_gcc sample_namespace ≠ ""))
  ∧ (ns_language sample_namespace = "cpp" ∨ ns_language sample_namespace = "java" →
     truthy (tool_path sample_namespace) = false →
     ns_language sample_namespace = "cpp" ∧ truthy (ns_cl sample_namespace) = false
     ∧ opt_gcc sample_options = Some ""
     ∧ ns_gcc_path sample_namespace = None).
Proof.
  apply (setup_tools_located sample_host (Some 4%Z) sample_options sample_namespace).
  vm_compute. reflexivity.
Defined.

(** X30. The processes that [build_source_files] starts are runs of
    the tool that the start of [main] has found: every command line begins
    with the path that [shutil.which] gave for [ant], for [cl] or for
    gcc. *)
Theorem located_tool_is_started `{Platform} (ns : namespace) (tool : string)
    (source_paths : list string) (rtns : Z * Z) :
  tool_path ns = Some tool →
  Forall (λ ev, match ev with
                | EvCall cmd _ _ => ∃ rest, cmd = tool :: rest
                | _ => True
                end)
    (build_source_files (args_of ns) source_paths rtns).1.
Proof.
  intros Htool. unfold build_source_files.
  destruct (cases_macro_of (cases (args_of ns))) as [e|cases_macro]; [constructor|].
  assert (∀ evs cmd verbose,
            build_command (args_of ns) cases_macro source_paths = (evs, inr (cmd, verbose)) →
            (∃ rest, cmd = tool :: rest) ∧ Forall (λ ev, is_call ev = false) evs)
    as Hcmd.
  { intros evs cmd verbose. unfold build_command, tool_path in *.
    cbn [args_of language cl cl_path gcc_path ant_path test_cases_support_dir use_pipe].
    destruct (Stdlib.Strings.String.eqb_spec (ns_language ns) "cpp") as [Hcpp|Hcpp].
    - rewrite Hcpp in Htool.
      cbn [Stdlib.Strings.String.eqb Stdlib.Strings.Ascii.eqb Bool.eqb] in Htool.
      destruct (truthy (ns_cl ns)); rewrite Htool; intros [= <- <- <-];
        (split; [by eexists | constructor]).
    - destruct (Stdlib.Strings.String.eqb (ns_language ns) "java"); [|done].
      rewrite Htool. destruct (1 <? length source_paths)%nat; [done|].
      intros [= <- <- <-]. split; [by eexists | by repeat constructor]. }
  destruct (build_command (args_of ns) cases_macro source_paths)
    as [evs [e|[cmd verbose]]] eqn:Hb.
  - unfold build_command in Hb.
    repeat match type of Hb with
           | context [if ?c then _ else _] => destruct c
           end; simplify_eq; by repeat constructor.
  - destruct (Hcmd evs cmd verbose eq_refl) as [[rest ->] Hevs].
    assert (Forall (λ ev, match ev with
                          | EvCall cmd _ _ => ∃ rest, cmd = tool :: rest
                          | _ => True
                          end) evs) as Hevs'.
    { eapply Forall_impl; [exact Hevs|]. intros ev Hev. by destruct ev. }
    destruct (rtns.1 =? 0)%Z; cbn [fst].
    + apply Forall_app. split; [done|]. constructor; [by eexists | constructor].
    + rewrite !Forall_app. split; [split; [done|]|].
      * constructor; [by eexists | constructor].
      * repeat constructor. by eexists.
Qed.

Lemma located_tool_is_started_witness :
  Forall (λ ev, match ev with
                | EvCall cmd _ _ => ∃ rest, cmd = "/usr/bin/i686-w64-mingw32-gcc" :: rest
                | _ => True
                end)
    (build_source_files (args_of sample_namespace) ["a.c"; "b.c"] (1%Z, 1%Z)).1.
Proof.
  apply (located_tool_is_started sample_namespace "/usr/bin/i686-w64-mingw32-gcc"
           ["a.c"; "b.c"] (1%Z, 1%Z)).
  reflexivity.
Defined.
